(** * KiroGate: retry client, stream handler, model cache, metrics

    A shallow embedding of the parts of the gateway that its design
    document makes statements about:

    - [Config]        kiro_gateway/config.py   (Settings, MODEL_MAPPING)
    - [Cache]         kiro_gateway/cache.py    (ModelInfoCache)
    - [Metrics]       kiro_gateway/metrics.py  (active-connection gauge)
    - [HttpClient]    kiro_gateway/http_client.py (request_with_retry)
    - [StreamHandler] kiro_gateway/base_stream_handler.py

    Python values keep their dynamic shape where the code relies on it
    (truthiness, [or], [dict.get], float arithmetic); exceptions are values
    of [exn] carried by [result]. *)

From Stdlib Require Import ZArith Strings.Byte PrimFloat SpecFloat FloatOps.
From Stdlib Require Import FloatAxioms DecimalString.
From stdpp Require Import gmap strings list sorting.

#[local] Set Warnings "-register-all".
#[local] Open Scope Z_scope.

(* ===================================================================== *)
(** * Python values, exceptions, numbers *)
(* ===================================================================== *)

Module Py.

(** Exceptions the modelled code can see.  The two [httpx_*] classes are
    the ones [request_with_retry] names in its handlers;
    [httpx_TimeoutException] is a subclass of [httpx.RequestError], and
    [httpx_RequestError] stands for the request errors that are not
    timeouts.  [asyncio_TimeoutError] is [asyncio.TimeoutError], the class
    [asyncio.wait_for] raises at its deadline; [asyncio_CancelledError]
    is raised at an [await] of a cancelled task, [GeneratorExit] at the
    [yield] of a generator that is being closed. *)
Inductive exn :=
| AttributeError
| TypeError
| ValueError
| OverflowError
| NameError (name : string)
| HTTPException (status_code : Z)
| httpx_TimeoutException
| httpx_RequestError
| FirstTokenTimeoutError
| asyncio_TimeoutError
| asyncio_CancelledError
| GeneratorExit
| OtherException (msg : string).

(** [isinstance(e, Exception)], which is what [except Exception] tests:
    [asyncio.CancelledError] and [GeneratorExit] derive from
    [BaseException] directly, every other class here from
    [Exception]. *)
Definition is_Exception (e : exn) : bool :=
  match e with
  | asyncio_CancelledError | GeneratorExit => false
  | _ => true
  end.

Inductive result (A : Type) :=
| Ok (a : A)
| Err (e : exn).
Arguments Ok {A} a.
Arguments Err {A} e.

Definition bind {A B} (r : result A) (k : A -> result B) : result B :=
  match r with
  | Ok a => k a
  | Err e => Err e
  end.

(** A JSON-shaped Python value ([Any] in the source's annotations). *)
Inductive pyval :=
| PNone
| PBool (b : bool)
| PInt (z : Z)
| PFloat (f : float)
| PStr (s : string)
| PList (l : list pyval)
| PDict (d : gmap string pyval).

(** [bool(v)]: the values Python treats as false are [None], [False],
    zero, the empty string and the empty containers. *)
Definition truthy (v : pyval) : bool :=
  match v with
  | PNone => false
  | PBool b => b
  | PInt z => negb (z =? 0)
  | PFloat f => negb (PrimFloat.eqb f 0%float)
  | PStr s => negb (String.eqb s "")
  | PList l => match l with [] => false | _ => true end
  | PDict d => negb (Nat.eqb (size d) 0)
  end.

(** [x or y] *)
Definition py_or (x y : pyval) : pyval := if truthy x then x else y.

(** [d.get(k)] on a dict: the value, or [None]. *)
Definition dict_get (d : gmap string pyval) (k : string) : pyval :=
  default PNone (d !! k).

(** [v.get(k)]: only a dict has the method. *)
Definition py_get (v : pyval) (k : string) : result pyval :=
  match v with
  | PDict d => Ok (dict_get d k)
  | _ => Err AttributeError
  end.

(** ** Floats

    Python's [float] is an IEEE-754 binary64, which is what [PrimFloat]
    is. *)

(** [float(z)] for a Python int: round to nearest even; an int whose
    rounding is not finite raises [OverflowError]. *)
Definition int_to_float (z : Z) : result float :=
  let f := SF2Prim (binary_normalize prec emax z 0 false) in
  if PrimFloat.is_infinity f then Err OverflowError else Ok f.

(** [int(f)]: truncation toward zero; [inf] raises [OverflowError] and
    [nan] raises [ValueError]. *)
Definition float_to_int (f : float) : result Z :=
  match Prim2SF f with
  | S754_zero _ => Ok 0
  | S754_infinity _ => Err OverflowError
  | S754_nan => Err ValueError
  | S754_finite s m e =>
      let a := if (0 <=? e) then Z.pos m * 2 ^ e else Z.pos m / 2 ^ (- e) in
      Ok (if s then - a else a)
  end.

(** [f * v] with a float on the left: ints and bools are converted,
    floats multiply, anything else is a [TypeError]. *)
Definition float_mul (f : float) (v : pyval) : result float :=
  match v with
  | PInt z => bind (int_to_float z) (fun g => Ok (PrimFloat.mul f g))
  | PBool b => Ok (PrimFloat.mul f (if b then 1%float else 0%float))
  | PFloat g => Ok (PrimFloat.mul f g)
  | _ => Err TypeError
  end.

End Py.
Import Py.

(* ===================================================================== *)
(** * kiro_gateway/config.py *)
(* ===================================================================== *)

Module Config.

(** The fields of [Settings] the modelled code reads. *)
Record Settings := {
  max_retries : Z;
  base_retry_delay : float;
  default_max_input_tokens : Z;
  first_token_timeout : float;
  first_token_max_retries : Z;
}.

(** [Settings()] with no environment override: the [Field(default=...)]
    values. *)
Definition settings : Settings := {|
  max_retries := 3;
  base_retry_delay := 1%float;
  default_max_input_tokens := 200000;
  first_token_timeout := 15%float;
  first_token_max_retries := 3;
|}.

Definition MODEL_MAPPING : gmap string string :=
  list_to_map [
    ("claude-opus-4-5", "claude-opus-4.5");
    ("claude-opus-4-5-20251101", "claude-opus-4.5");
    ("claude-haiku-4-5", "claude-haiku-4.5");
    ("claude-haiku-4.5", "claude-haiku-4.5");
    ("claude-sonnet-4-5", "CLAUDE_SONNET_4_5_20250929_V1_0");
    ("claude-sonnet-4-5-20250929", "CLAUDE_SONNET_4_5_20250929_V1_0");
    ("claude-sonnet-4", "CLAUDE_SONNET_4_20250514_V1_0");
    ("claude-sonnet-4-20250514", "CLAUDE_SONNET_4_20250514_V1_0");
    ("claude-3-7-sonnet-20250219", "CLAUDE_3_7_SONNET_20250219_V1_0");
    ("auto", "claude-sonnet-4.5")
  ].

(** [MODEL_MAPPING.get(external_model, external_model)] *)
Definition get_internal_model_id (external_model : string) : string :=
  default external_model (MODEL_MAPPING !! external_model).

End Config.

(* ===================================================================== *)
(** * kiro_gateway/cache.py *)
(* ===================================================================== *)

Module Cache.

Section ModelInfoCache.

Variable settings : Config.Settings.

(** [DEFAULT_MAX_INPUT_TOKENS = settings.default_max_input_tokens] *)
Definition DEFAULT_MAX_INPUT_TOKENS : pyval :=
  PInt (Config.default_max_input_tokens settings).

(** [self._cache : Dict[str, Dict[str, Any]]] is a [gmap] from model id
    to the model's dict.  [self._cache.get(model_id)]: *)
Definition get (cache : gmap string (gmap string pyval)) (model_id : string)
    : option (gmap string pyval) :=
  cache !! model_id.

Definition get_max_input_tokens (cache : gmap string (gmap string pyval))
    (model_id : string) : result pyval :=
  match cache !! model_id with
  | Some model =>
      if truthy (PDict model) && truthy (dict_get model "tokenLimits") then
        (* model["tokenLimits"].get("maxInputTokens") or DEFAULT *)
        bind (py_get (dict_get model "tokenLimits") "maxInputTokens")
             (fun v => Ok (py_or v DEFAULT_MAX_INPUT_TOKENS))
      else Ok DEFAULT_MAX_INPUT_TOKENS
  | None => Ok DEFAULT_MAX_INPUT_TOKENS
  end.

End ModelInfoCache.

End Cache.

(* ===================================================================== *)
(** * kiro_gateway/metrics.py: the active-connection gauge *)
(* ===================================================================== *)

Module Metrics.

(** The part of [PrometheusMetrics] the gauge lives in. *)
Record PrometheusMetrics := {
  _active_connections : Z;
  _cache_size : Z;
  _token_valid : bool;
}.

(** [__init__] *)
Definition init : PrometheusMetrics := {|
  _active_connections := 0;
  _cache_size := 0;
  _token_valid := false;
|}.

Definition inc_active_connections (m : PrometheusMetrics) : PrometheusMetrics :=
  {| _active_connections := _active_connections m + 1;
     _cache_size := _cache_size m;
     _token_valid := _token_valid m |}.

Definition dec_active_connections (m : PrometheusMetrics) : PrometheusMetrics :=
  {| _active_connections := Z.max 0 (_active_connections m - 1);
     _cache_size := _cache_size m;
     _token_valid := _token_valid m |}.

Definition set_active_connections (count : Z) (m : PrometheusMetrics)
    : PrometheusMetrics :=
  {| _active_connections := count;
     _cache_size := _cache_size m;
     _token_valid := _token_valid m |}.

(** Every method body runs under [self._lock], so a concurrent execution
    of increments and decrements is some sequence of whole calls. *)
Inductive call := Inc | Dec.

Definition run_call (m : PrometheusMetrics) (c : call) : PrometheusMetrics :=
  match c with
  | Inc => inc_active_connections m
  | Dec => dec_active_connections m
  end.

Definition run_calls (cs : list call) (m : PrometheusMetrics) : PrometheusMetrics :=
  foldl run_call m cs.

End Metrics.

(* ===================================================================== *)
(** * kiro_gateway/http_client.py *)
(* ===================================================================== *)

Module HttpClient.

(** The names bound at module level in http_client.py: its imports, its
    two classes, the manager instance and the closing function.
    [HTTPException] is not one of them, and it is not a builtin. *)
Definition module_globals : list string :=
  [ "asyncio"; "Optional"; "httpx"; "logger"; "KiroAuthManager"; "settings";
    "GlobalHTTPClientManager"; "global_http_client_manager";
    "KiroHttpClient"; "close_global_http_client" ].

(** What [httpx] hands back: the status line and the body. *)
Record Response := {
  status_code : Z;
  content : string;
}.

(** What one loop iteration meets outside the client: the outcome of
    [auth_manager.get_access_token()], of sending the request, and of
    [auth_manager.force_refresh()] should the iteration call it.  The auth
    manager and the transport are collaborators of this module. *)
Record attempt_env := {
  token_outcome : result string;
  send_outcome : result Response;
  refresh_outcome : result unit;
}.

(** The calls [request_with_retry] makes, in order. *)
Inductive effect :=
| GetAccessToken
| Send (token : string)
| ForceRefresh
| Sleep (delay : float).

(** How one iteration of the [for] loop leaves. *)
Inductive step :=
| Continue
| Return (response : Response)
| Raise (e : exn).

Inductive outcome :=
| Returned (response : Response)
| Raised (e : exn).

Section KiroHttpClient.

Variable globals : list string.
Variable settings : Config.Settings.

(** Looking a global name up at run time. *)
Definition bound (name : string) : bool :=
  existsb (String.eqb name) globals.

(** [raise HTTPException(status_code=...)]: the name is resolved first. *)
Definition raise_HTTPException (status : Z) : exn :=
  if bound "HTTPException" then HTTPException status
  else NameError "HTTPException".

(** [settings.base_retry_delay * (2 ** attempt)] *)
Definition backoff (attempt : nat) : result float :=
  float_mul (Config.base_retry_delay settings) (PInt (2 ^ Z.of_nat attempt)).

(** [delay = ...; await asyncio.sleep(delay)] *)
Definition sleep_backoff (attempt : nat) : list effect * result step :=
  match backoff attempt with
  | Ok delay => ([Sleep delay], Ok Continue)
  | Err e => ([], Err e)
  end.

(** The body of the [try]. *)
Definition try_body (stream : bool) (attempt : nat) (env : attempt_env)
    : list effect * result step :=
  match token_outcome env with
  | Err e => ([GetAccessToken], Err e)
  | Ok token =>
      match send_outcome env with
      | Err e => ([GetAccessToken; Send token], Err e)
      | Ok response =>
          let sc := status_code response in
          if sc =? 200 then
            ([GetAccessToken; Send token], Ok (Return response))
          else if sc =? 403 then
            match refresh_outcome env with
            | Ok _ => ([GetAccessToken; Send token; ForceRefresh], Ok Continue)
            | Err e => ([GetAccessToken; Send token; ForceRefresh], Err e)
            end
          else if sc =? 429 then
            let '(t, r) := sleep_backoff attempt in
            ([GetAccessToken; Send token] ++ t, r)
          else if (500 <=? sc) && (sc <? 600) then
            let '(t, r) := sleep_backoff attempt in
            ([GetAccessToken; Send token] ++ t, r)
          else
            ([GetAccessToken; Send token], Ok (Return response))
      end
  end.

(** The two [except] clauses; any other exception leaves the function. *)
Definition except (stream : bool) (attempt : nat) (e : exn)
    : list effect * step :=
  match e with
  | httpx_TimeoutException =>
      if stream then ([], Continue)
      else
        match sleep_backoff attempt with
        | (t, Ok s) => (t, s)
        | (t, Err e') => (t, Raise e')
        end
  | httpx_RequestError =>
      match sleep_backoff attempt with
      | (t, Ok s) => (t, s)
      | (t, Err e') => (t, Raise e')
      end
  | _ => ([], Raise e)
  end.

Definition attempt_once (stream : bool) (attempt : nat) (env : attempt_env)
    : list effect * step :=
  match try_body stream attempt env with
  | (t, Ok s) => (t, s)
  | (t, Err e) => let '(t', s) := except stream attempt e in (t ++ t', s)
  end.

(** [for attempt in range(max_retries)], from iteration [attempt] with
    [remaining] iterations to go; [None] when the range is used up. *)
Fixpoint retry_loop (stream : bool) (upstream : nat -> attempt_env)
    (remaining attempt : nat) : list effect * option outcome :=
  match remaining with
  | O => ([], None)
  | S remaining' =>
      match attempt_once stream attempt (upstream attempt) with
      | (t, Continue) =>
          let '(t', r) := retry_loop stream upstream remaining' (S attempt) in
          (t ++ t', r)
      | (t, Return response) => (t, Some (Returned response))
      | (t, Raise e) => (t, Some (Raised e))
      end
  end.

(** [request_with_retry(method, url, json_data, stream, first_token_timeout)].
    The method, url, body and the timeout value reach only the transport
    and the log lines. *)
Definition request_with_retry (stream : bool) (upstream : nat -> attempt_env)
    : list effect * outcome :=
  let max_retries :=
    if stream then Config.first_token_max_retries settings
    else Config.max_retries settings in
  match retry_loop stream upstream (Z.to_nat max_retries) 0 with
  | (t, Some r) => (t, r)
  | (t, None) =>
      (t, Raised (raise_HTTPException (if stream then 504 else 502)))
  end.

End KiroHttpClient.

(** The iterations a call may use: [first_token_max_retries] for a
    streaming request, [max_retries] otherwise. *)
Definition attempt_budget (settings : Config.Settings) (stream : bool) : Z :=
  if stream then Config.first_token_max_retries settings
  else Config.max_retries settings.

(** An iteration that meets a response the loop retries on: 403 with the
    refresh going through, 429, or 5xx. *)
Definition retryable (env : attempt_env) : bool :=
  match token_outcome env, send_outcome env with
  | Ok _, Ok response =>
      let sc := status_code response in
      ((sc =? 403) && match refresh_outcome env with Ok _ => true | Err _ => false end)
      || (sc =? 429)
      || ((500 <=? sc) && (sc <? 600))
  | _, _ => false
  end.

(** The requests a run issued, and the forced refreshes and sleeps in it. *)
Definition is_send (e : effect) : bool :=
  match e with Send _ => true | _ => false end.
Definition is_force_refresh (e : effect) : bool :=
  match e with ForceRefresh => true | _ => false end.
Definition is_sleep (e : effect) : bool :=
  match e with Sleep _ => true | _ => false end.

Definition requests_issued (t : list effect) : nat := length (List.filter is_send t).
Definition refreshes_forced (t : list effect) : nat := length (List.filter is_force_refresh t).
Definition sleeps (t : list effect) : nat := length (List.filter is_sleep t).

(** An upstream that answers every request with the same status. *)
Definition always (status : Z) : nat -> attempt_env :=
  fun _ => {| token_outcome := Ok "token";
              send_outcome := Ok {| status_code := status; content := "" |};
              refresh_outcome := Ok tt |}.

(** An upstream that answers the listed statuses in turn, then 200. *)
Definition scripted (statuses : list Z) : nat -> attempt_env :=
  fun i => {| token_outcome := Ok "token";
              send_outcome := Ok {| status_code := nth i statuses 200; content := "" |};
              refresh_outcome := Ok tt |}.

(** Whether [2 ** n] converts to a float, as the backoff delay needs. *)
Definition converts (n : nat) : bool :=
  match int_to_float (2 ^ Z.of_nat n) with
  | Ok _ => true
  | Err _ => false
  end.

(** An upstream that never answers within the deadline. *)
Definition always_timeout : nat -> attempt_env :=
  fun _ => {| token_outcome := Ok "token";
              send_outcome := Err httpx_TimeoutException;
              refresh_outcome := Ok tt |}.

End HttpClient.

(* ===================================================================== *)
(** * kiro_gateway/base_stream_handler.py *)
(* ===================================================================== *)

Module StreamHandler.

(** The events [AwsEventStreamParser.feed] hands over, by their ["type"]:
    ["content"] carries text, ["usage"] the metering value,
    ["context_usage"] a percentage; other types are passed over. *)
Inductive event :=
| EContent (data : string)
| EUsage (data : pyval)
| EContextUsage (data : float)
| EOther (type : string).

(** What the generator yields.  The formatting methods are abstract in
    the base class, so a yielded string is identified by the method that
    built it and the arguments it was given. *)
Inductive chunk :=
| ContentChunk (content : string) (first_chunk : bool)
| ToolCallsChunk (tool_calls : list pyval) (index : nat)
| FinalChunk (finish_reason : string) (prompt_tokens completion_tokens total_tokens : Z)
             (credits_used : option pyval)
| DoneChunk.

(** The first [__anext__] under [asyncio.wait_for]: bytes, the end of
    the iteration, the deadline of [wait_for], or an exception of the
    read itself. *)
Inductive first_read :=
| FirstBytes (b : list Byte.byte)
| FirstStop
| FirstTimeout
| FirstRaise (e : exn).

(** The upstream response as the handler meets it: the outcome of the
    first read, the byte chunks the [async for] then receives from its own
    [aiter_bytes()] iterator, and the exception that ends the iteration,
    if one does. *)
Record Upstream := {
  first : first_read;
  rest : list (list Byte.byte);
  rest_end : option exn;
}.

(** [httpx.Response], as far as the handler changes it. *)
Record ResponseHandle := { is_closed : bool }.

Definition aclose (r : ResponseHandle) : ResponseHandle := {| is_closed := true |}.

(** How a run of [stream] ends: the chunks it yielded, the exception
    that left the generator, the one [logger.error] was given, and the
    response as the [finally] leaves it. *)
Record stream_run := {
  yielded : list chunk;
  propagated : option exn;
  logged : option exn;
  response : ResponseHandle;
}.

Section BaseStreamHandler.

Variable settings : Config.Settings.

(** kiro_gateway.parsers and kiro_gateway.tokenizer *)
Variable parser_state : Type.
Variable feed : parser_state -> list Byte.byte -> result (parser_state * list event).
Variable get_tool_calls : parser_state -> list pyval.
Variable parse_bracket_tool_calls : string -> list pyval.
Variable deduplicate_tool_calls : list pyval -> list pyval.
Variable count_tokens : string -> Z.
Variable count_message_tokens : list pyval -> Z.
Variable count_tools_tokens : list pyval -> Z.

(** The fields of [self]. *)
Record handler := {
  model : string;
  model_cache : gmap string (gmap string pyval);
  request_messages : option (list pyval);
  request_tools : option (list pyval);
  parser : parser_state;
  full_content : string;
  metering_data : option pyval;
  context_usage_percentage : option float;
}.

Definition with_parser (p : parser_state) (h : handler) : handler :=
  {| model := model h; model_cache := model_cache h;
     request_messages := request_messages h; request_tools := request_tools h;
     parser := p; full_content := full_content h;
     metering_data := metering_data h;
     context_usage_percentage := context_usage_percentage h |}.

Definition process_event (acc : option string * handler) (ev : event)
    : option string * handler :=
  let '(content, h) := acc in
  match ev with
  | EContent data =>
      (Some data,
       {| model := model h; model_cache := model_cache h;
          request_messages := request_messages h; request_tools := request_tools h;
          parser := parser h; full_content := full_content h +:+ data;
          metering_data := metering_data h;
          context_usage_percentage := context_usage_percentage h |})
  | EUsage data =>
      (content,
       {| model := model h; model_cache := model_cache h;
          request_messages := request_messages h; request_tools := request_tools h;
          parser := parser h; full_content := full_content h;
          metering_data := Some data;
          context_usage_percentage := context_usage_percentage h |})
  | EContextUsage data =>
      (content,
       {| model := model h; model_cache := model_cache h;
          request_messages := request_messages h; request_tools := request_tools h;
          parser := parser h; full_content := full_content h;
          metering_data := metering_data h;
          context_usage_percentage := Some data |})
  | EOther _ => (content, h)
  end.

(** [_process_events]: the text of the last content event, if any. *)
Definition _process_events (events : list event) (h : handler)
    : option string * handler :=
  foldl process_event (None, h) events.

(** [_read_first_chunk_with_timeout]: [except asyncio.TimeoutError]
    takes the deadline of [wait_for] and a [TimeoutError] the read itself
    raises alike; any other exception of the read leaves the method as it
    is. *)
Definition _read_first_chunk_with_timeout (up : Upstream)
    : result (option (list Byte.byte)) :=
  match first up with
  | FirstBytes b => Ok (Some b)
  | FirstTimeout => Err FirstTokenTimeoutError
  | FirstStop => Ok None
  | FirstRaise asyncio_TimeoutError => Err FirstTokenTimeoutError
  | FirstRaise e => Err e
  end.

(** [if self.request_messages: ...] and [if self.request_tools: ...] *)
Definition count_if_any (count : list pyval -> Z) (l : option (list pyval)) : Z :=
  match l with
  | Some (x :: xs) => count (x :: xs)
  | _ => 0
  end.

(** [int((self.context_usage_percentage / 100) * max_input_tokens)] *)
Definition total_from_percentage (pct : float) (max_input_tokens : pyval)
    : result Z :=
  bind (float_mul (PrimFloat.div pct 100%float) max_input_tokens) float_to_int.

(** [_calculate_tokens]: (prompt_tokens, completion_tokens, total_tokens) *)
Definition _calculate_tokens (h : handler) : result (Z * Z * Z) :=
  let completion_tokens := count_tokens (full_content h) in
  bind
    (match context_usage_percentage h with
     | Some pct =>
         if PrimFloat.ltb 0%float pct then
           bind (Cache.get_max_input_tokens settings (model_cache h) (model h))
                (total_from_percentage pct)
         else Ok 0
     | None => Ok 0
     end)
    (fun total_tokens_from_api =>
       if 0 <? total_tokens_from_api then
         Ok (Z.max 0 (total_tokens_from_api - completion_tokens),
             completion_tokens,
             total_tokens_from_api)
       else
         let prompt_tokens :=
           0 + count_if_any count_message_tokens (request_messages h)
             + count_if_any count_tools_tokens (request_tools h) in
         Ok (prompt_tokens, completion_tokens, prompt_tokens + completion_tokens)).

(** [if content:] on an optional string *)
Definition nonempty (content : option string) : option string :=
  match content with
  | Some s => if String.eqb s "" then None else Some s
  | None => None
  end.

(** [async for chunk in self.response.aiter_bytes(): ...] *)
Fixpoint consume (chunks : list (list Byte.byte)) (h : handler) (first_chunk_sent : bool)
    : list chunk * result (handler * bool) :=
  match chunks with
  | [] => ([], Ok (h, first_chunk_sent))
  | b :: chunks' =>
      match feed (parser h) b with
      | Err e => ([], Err e)
      | Ok (p, events) =>
          let '(content, h') := _process_events events (with_parser p h) in
          match nonempty content with
          | Some s =>
              let '(ys, r) := consume chunks' h' true in
              (ContentChunk s (negb first_chunk_sent) :: ys, r)
          | None => consume chunks' h' first_chunk_sent
          end
      end
  end.

(** [for idx, tc in enumerate(all_tool_calls): yield ...] *)
Definition tool_call_chunks (all_tool_calls : list pyval) : list chunk :=
  imap (fun idx tc => ToolCallsChunk [tc] idx) all_tool_calls.

(** From the tool calls to the terminator. *)
Definition finish (h : handler) : list chunk * result unit :=
  let bracket_tool_calls := parse_bracket_tool_calls (full_content h) in
  let all_tool_calls :=
    deduplicate_tool_calls (get_tool_calls (parser h) ++ bracket_tool_calls) in
  let finish_reason :=
    match all_tool_calls with [] => "stop" | _ => "tool_calls" end in
  match _calculate_tokens h with
  | Err e => (tool_call_chunks all_tool_calls, Err e)
  | Ok (prompt_tokens, completion_tokens, total_tokens) =>
      let credits_used :=
        match metering_data h with
        | Some d => if truthy d then Some d else None
        | None => None
        end in
      (tool_call_chunks all_tool_calls ++
         [FinalChunk finish_reason prompt_tokens completion_tokens total_tokens
                     credits_used;
          DoneChunk],
       Ok tt)
  end.

(** The body of the [try] in [stream]. *)
Definition stream_body (up : Upstream) (h : handler) : list chunk * result unit :=
  match _read_first_chunk_with_timeout up with
  | Err e => ([], Err e)
  | Ok None => ([DoneChunk], Ok tt)
  | Ok (Some first_byte_chunk) =>
      match feed (parser h) first_byte_chunk with
      | Err e => ([], Err e)
      | Ok (p, events) =>
          let '(first_content, h1) := _process_events events (with_parser p h) in
          let '(ys0, first_chunk_sent) :=
            match nonempty first_content with
            | Some s => ([ContentChunk s true], true)
            | None => ([], false)
            end in
          match consume (rest up) h1 first_chunk_sent with
          | (ys1, Err e) => (ys0 ++ ys1, Err e)
          | (ys1, Ok (h2, _)) =>
              match rest_end up with
              | Some e => (ys0 ++ ys1, Err e)
              | None =>
                  let '(ys2, r) := finish h2 in
                  (ys0 ++ ys1 ++ ys2, r)
              end
          end
      end
  end.

(** [stream], for a consumer that takes every chunk: the [try] with its
    two handlers and the [finally].  [except FirstTokenTimeoutError]
    raises again, [except Exception] logs and goes on to the end of the
    generator, an exception outside [Exception] meets no handler; the
    [finally] runs in each case. *)
Definition stream (up : Upstream) (resp : ResponseHandle) (h : handler)
    : stream_run :=
  match stream_body up h with
  | (ys, Ok _) =>
      {| yielded := ys; propagated := None; logged := None;
         response := aclose resp |}
  | (ys, Err FirstTokenTimeoutError) =>
      {| yielded := ys; propagated := Some FirstTokenTimeoutError; logged := None;
         response := aclose resp |}
  | (ys, Err e) =>
      if is_Exception e then
        {| yielded := ys; propagated := None; logged := Some e;
           response := aclose resp |}
      else
        {| yielded := ys; propagated := Some e; logged := None;
           response := aclose resp |}
  end.

(** [stream], for a consumer that closes the generator while it is
    suspended at its [n]-th [yield] ([n] from 1): [GeneratorExit] is
    raised at that [yield], meets no handler, and leaves after the
    [finally].  There is such a run when the body gets as far as [n]
    chunks. *)
Definition stream_closed (n : nat) (up : Upstream) (resp : ResponseHandle)
    (h : handler) : option stream_run :=
  let ys := fst (stream_body up h) in
  if (1 <=? n)%nat && (n <=? length ys)%nat then
    Some {| yielded := take n ys; propagated := Some GeneratorExit;
            logged := None; response := aclose resp |}
  else None.

End BaseStreamHandler.

Arguments model {parser_state} h.
Arguments model_cache {parser_state} h.
Arguments request_messages {parser_state} h.
Arguments request_tools {parser_state} h.
Arguments parser {parser_state} h.
Arguments full_content {parser_state} h.
Arguments metering_data {parser_state} h.
Arguments context_usage_percentage {parser_state} h.
Arguments with_parser {parser_state} p h.
Arguments process_event {parser_state} acc ev.
Arguments _process_events {parser_state} events h.
Arguments _calculate_tokens settings {parser_state}
  count_tokens count_message_tokens count_tools_tokens h.
Arguments consume {parser_state} feed chunks h first_chunk_sent.
Arguments finish settings {parser_state} get_tool_calls parse_bracket_tool_calls
  deduplicate_tool_calls count_tokens count_message_tokens count_tools_tokens h.
Arguments stream_body settings {parser_state} feed get_tool_calls
  parse_bracket_tool_calls deduplicate_tool_calls
  count_tokens count_message_tokens count_tools_tokens up h.
Arguments stream settings {parser_state} feed get_tool_calls
  parse_bracket_tool_calls deduplicate_tool_calls
  count_tokens count_message_tokens count_tools_tokens up resp h.
Arguments stream_closed settings {parser_state} feed get_tool_calls
  parse_bracket_tool_calls deduplicate_tool_calls
  count_tokens count_message_tokens count_tools_tokens n up resp h.

(** ** The design document's reading of the token rule

    [round(percent/100 × max_input_tokens)]: Python's [round] of a float
    to an int, ties to even. *)
Definition py_round (f : float) : result Z :=
  match Prim2SF f with
  | S754_zero _ => Ok 0
  | S754_infinity _ => Err OverflowError
  | S754_nan => Err ValueError
  | S754_finite s m e =>
      let a :=
        if (0 <=? e) then Z.pos m * 2 ^ e
        else
          let d := 2 ^ (- e) in
          let q := Z.pos m / d in
          let r := Z.pos m mod d in
          if 2 * r <? d then q
          else if d <? 2 * r then q + 1
          else if Z.even q then q else q + 1 in
      Ok (if s then - a else a)
  end.

Definition spec_total_tokens (pct : float) (max_input_tokens : pyval) : result Z :=
  bind (float_mul (PrimFloat.div pct 100%float) max_input_tokens) py_round.

(** ** Reading a yielded sequence *)

Definition chunk_rank (c : chunk) : nat :=
  match c with
  | ContentChunk _ _ => 0
  | ToolCallsChunk _ _ => 1
  | FinalChunk _ _ _ _ _ => 2
  | DoneChunk => 3
  end%nat.

Definition is_content (c : chunk) : bool :=
  match c with ContentChunk _ _ => true | _ => false end.

Definition marked_first (c : chunk) : bool :=
  match c with ContentChunk _ first_chunk => first_chunk | _ => false end.

(** A run of content chunks as the loop emits it: the first one carries
    [first_chunk = not first_chunk_sent], every later one [False]. *)
Inductive content_run : bool -> list chunk -> Prop :=
| content_run_nil first_chunk_sent :
    content_run first_chunk_sent []
| content_run_cons first_chunk_sent s l :
    content_run true l ->
    content_run first_chunk_sent (ContentChunk s (negb first_chunk_sent) :: l).

(** What an earlier chunk [c1] and a later chunk [c2] of one sequence
    satisfy: kinds in order, at most one final chunk and one terminator,
    and nothing after a content chunk marked as first. *)
Definition before (c1 c2 : chunk) : Prop :=
  (chunk_rank c1 <= chunk_rank c2)%nat
  /\ ((2 <= chunk_rank c1)%nat -> (chunk_rank c1 < chunk_rank c2)%nat)
  /\ (is_content c1 = true -> marked_first c2 = false).

(** The sequences [stream] yields. *)
Definition stream_shape (ys : list chunk) : Prop :=
  ys = [DoneChunk]
  \/ exists cs ts tail,
       ys = cs ++ ts ++ tail
       /\ content_run false cs
       /\ Forall (fun c => chunk_rank c = 1%nat) ts
       /\ (tail = []
           \/ exists fr p c t cu, tail = [FinalChunk fr p c t cu; DoneChunk]).

End StreamHandler.

(* ===================================================================== *)
(** * Concrete inputs used by the examples below *)
(* ===================================================================== *)

Module Fixtures.

(** A cache entry as [ListAvailableModels] returns it. *)
Definition model_entry (model_id : string) (max_input_tokens : pyval)
    : gmap string pyval :=
  {[ "modelId" := PStr model_id;
     "tokenLimits" := PDict {[ "maxInputTokens" := max_input_tokens ]} ]}.

Definition cache_with (model_id : string) (max_input_tokens : pyval)
    : gmap string (gmap string pyval) :=
  {[ model_id := model_entry model_id max_input_tokens ]}.

(** An entry that carries no [tokenLimits] at all. *)
Definition cache_without_limits (model_id : string)
    : gmap string (gmap string pyval) :=
  {[ model_id := {[ "modelId" := PStr model_id ]} ]}.

(** Stand-ins for the parser and the tokenizer: every byte chunk is one
    content event carrying the chunk as text, no native tool calls, a
    text that opens with a bracket is one bracket tool call; a token is a
    character, a message or a tool counts four. *)
Definition feed (p : unit) (b : list Byte.byte)
    : result (unit * list StreamHandler.event) :=
  Ok (tt, [StreamHandler.EContent (String.string_of_list_byte b)]).
Definition get_tool_calls (p : unit) : list pyval := [].
Definition parse_bracket_tool_calls (s : string) : list pyval :=
  if String.prefix "[" s then [PStr s] else [].
Definition deduplicate_tool_calls (l : list pyval) : list pyval := l.
Definition count_tokens (s : string) : Z := Z.of_nat (String.length s).
Definition count_message_tokens (l : list pyval) : Z := 4 * Z.of_nat (length l).
Definition count_tools_tokens (l : list pyval) : Z := 4 * Z.of_nat (length l).

(** A handler at the end of a stream that reported a context usage of
    [pct] percent for a model cached with [max_input_tokens]. *)
Definition handler_at (pct : float) (max_input_tokens : pyval) (text : string)
    : StreamHandler.handler unit :=
  {| StreamHandler.model := "m";
     StreamHandler.model_cache := cache_with "m" max_input_tokens;
     StreamHandler.request_messages := Some [PStr "Hi"];
     StreamHandler.request_tools := None;
     StreamHandler.parser := tt;
     StreamHandler.full_content := text;
     StreamHandler.metering_data := None;
     StreamHandler.context_usage_percentage := Some pct |}.

(** A fresh handler, as [__init__] leaves it. *)
Definition fresh_handler : StreamHandler.handler unit :=
  {| StreamHandler.model := "m";
     StreamHandler.model_cache := cache_with "m" (PInt 200000);
     StreamHandler.request_messages := Some [PStr "Hi"];
     StreamHandler.request_tools := None;
     StreamHandler.parser := tt;
     StreamHandler.full_content := "";
     StreamHandler.metering_data := None;
     StreamHandler.context_usage_percentage := None |}.

Definition calculate_tokens (h : StreamHandler.handler unit) : result (Z * Z * Z) :=
  StreamHandler._calculate_tokens Config.settings
    count_tokens count_message_tokens count_tools_tokens h.

Definition run_stream (up : StreamHandler.Upstream) : StreamHandler.stream_run :=
  StreamHandler.stream Config.settings feed get_tool_calls
    parse_bracket_tool_calls deduplicate_tool_calls
    count_tokens count_message_tokens count_tools_tokens
    up {| StreamHandler.is_closed := false |} fresh_handler.

Definition bytes_of (s : string) : list Byte.byte := String.list_byte_of_string s.

(** Three upstream responses: one that streams two chunks and ends, one
    whose connection breaks after the same two chunks, one that stays
    silent past the deadline. *)
Definition up_hello : StreamHandler.Upstream :=
  {| StreamHandler.first := StreamHandler.FirstBytes (bytes_of "Hel");
     StreamHandler.rest := [bytes_of "lo"];
     StreamHandler.rest_end := None |}.

Definition up_broken : StreamHandler.Upstream :=
  {| StreamHandler.first := StreamHandler.FirstBytes (bytes_of "Hel");
     StreamHandler.rest := [bytes_of "lo"];
     StreamHandler.rest_end := Some (OtherException "ReadError") |}.

Definition up_silent : StreamHandler.Upstream :=
  {| StreamHandler.first := StreamHandler.FirstTimeout;
     StreamHandler.rest := [];
     StreamHandler.rest_end := None |}.

Definition up_tool : StreamHandler.Upstream :=
  {| StreamHandler.first := StreamHandler.FirstBytes (bytes_of "[get_weather({})]");
     StreamHandler.rest := [];
     StreamHandler.rest_end := None |}.

End Fixtures.


(* ===================================================================== *)
(** * kiro_gateway/http_client.py: the shared client, and reading a trace *)
(* ===================================================================== *)

Module ClientPool.

(** [httpx.AsyncClient] as the manager sees it: the timeout it was built
    with, whether it is closed, and [serial], which tells one client
    object from another. *)
Record AsyncClient := {
  timeout : float;
  is_closed : bool;
  serial : nat;
}.

(** [GlobalHTTPClientManager]: [self._client], and how many clients it has
    built so far. *)
Record GlobalHTTPClientManager := {
  _client : option AsyncClient;
  built : nat;
}.

(** [__init__] *)
Definition init : GlobalHTTPClientManager := {| _client := None; built := 0 |}.

(** [httpx.AsyncClient(timeout=timeout, ...)] stored in [self._client] *)
Definition create (timeout : float) (m : GlobalHTTPClientManager)
    : AsyncClient * GlobalHTTPClientManager :=
  let c := {| timeout := timeout; is_closed := false; serial := built m |} in
  (c, {| _client := Some c; built := S (built m) |}).

(** [get_client(timeout)], under [self._lock] *)
Definition get_client (timeout : float) (m : GlobalHTTPClientManager)
    : AsyncClient * GlobalHTTPClientManager :=
  match _client m with
  | None => create timeout m
  | Some c => if is_closed c then create timeout m else (c, m)
  end.

(** [close()], under [self._lock]: the closed client stays in
    [self._client]. *)
Definition close (m : GlobalHTTPClientManager) : GlobalHTTPClientManager :=
  match _client m with
  | Some c =>
      if negb (is_closed c) then
        {| _client := Some {| timeout := timeout c; is_closed := true;
                              serial := serial c |};
           built := built m |}
      else m
  | None => m
  end.

(** The timeout [request_with_retry] asks the pool for:
    [first_token_timeout or settings.first_token_timeout] when streaming,
    300 otherwise. *)
Definition request_timeout (settings : Config.Settings) (stream : bool)
    (first_token_timeout : option float) : float :=
  if stream then
    match first_token_timeout with
    | Some t => if PrimFloat.eqb t 0%float then Config.first_token_timeout settings else t
    | None => Config.first_token_timeout settings
    end
  else 300%float.

(** A run of [get_client] calls: the clients handed out, in order. *)
Fixpoint get_clients (timeouts : list float) (m : GlobalHTTPClientManager)
    : list AsyncClient * GlobalHTTPClientManager :=
  match timeouts with
  | [] => ([], m)
  | t :: ts =>
      let '(c, m') := get_client t m in
      let '(cs, m'') := get_clients ts m' in
      (c :: cs, m'')
  end.

End ClientPool.

Module Trace.
Import HttpClient.

(** The tokens the requests of a run carried, and the delays it slept. *)
Definition sent_tokens (t : list effect) : list string :=
  omap (fun e => match e with Send token => Some token | _ => None end) t.

Definition sleep_delays (t : list effect) : list float :=
  omap (fun e => match e with Sleep delay => Some delay | _ => None end) t.

(** A status the loop neither refreshes nor backs off on: 200 and the
    statuses that fall through to the last [return response]. *)
Definition terminal (sc : Z) : bool :=
  negb (sc =? 403) && negb (sc =? 429) && negb ((500 <=? sc) && (sc <? 600)).

(** An exception neither [except] clause names. *)
Definition foreign (e : exn) : bool :=
  match e with
  | httpx_TimeoutException | httpx_RequestError => false
  | _ => true
  end.

(** An iteration answered 429 or 5xx with the token at hand. *)
Definition backs_off (env : attempt_env) : bool :=
  match token_outcome env, send_outcome env with
  | Ok _, Ok response =>
      (status_code response =? 429)
      || ((500 <=? status_code response) && (status_code response <? 600))
  | _, _ => false
  end.

(** An iteration whose request timed out. *)
Definition times_out (env : attempt_env) : bool :=
  match token_outcome env, send_outcome env with
  | Ok _, Err httpx_TimeoutException => true
  | _, _ => false
  end.

(** An upstream that answers 429 until attempt [k], where sending
    raises [e]. *)
Definition raising_at (k : nat) (e : exn) : nat -> attempt_env :=
  fun i => {| token_outcome := Ok "token";
              send_outcome :=
                if (i <? k)%nat then Ok {| status_code := 429; content := "" |}
                else Err e;
              refresh_outcome := Ok tt |}.

Definition is_get_access_token (e : effect) : bool :=
  match e with GetAccessToken => true | _ => false end.

(** The calls of [get_access_token] a trace makes before its position
    [j].  Every iteration of the loop opens with one such call, so the
    call at a position with [k] calls before it is the one of the
    [k]-th iteration after the first of the trace. *)
Definition fetches_before (t : list effect) (j : nat) : nat :=
  length (List.filter is_get_access_token (take j t)).

(** Every [Send] of a trace that opens with iteration [attempt] comes
    right after a [GetAccessToken], one of the [remaining] iterations,
    and carries the token that very call returned. *)
Definition sends_fetched_token (upstream : nat -> attempt_env)
    (remaining attempt : nat) (t : list effect) : Prop :=
  forall j token, t !! j = Some (Send token) ->
    exists j', j = S j'
      /\ t !! j' = Some GetAccessToken
      /\ (fetches_before t j' < remaining)%nat
      /\ token_outcome (upstream (attempt + fetches_before t j')%nat) = Ok token.

(** An upstream whose token changes with the forced refresh: the first
    request, sent with the old token, is answered 403, the second 200. *)
Definition refreshed_once : nat -> attempt_env :=
  fun i => {| token_outcome := Ok (if (i =? 0)%nat then "old" else "new");
              send_outcome :=
                Ok {| status_code := if (i =? 0)%nat then 403 else 200;
                      content := "" |};
              refresh_outcome := Ok tt |}.

End Trace.

(* ===================================================================== *)
(** * kiro_gateway/base_stream_handler.py: reading events and chunks *)
(* ===================================================================== *)

Module StreamMore.
Import StreamHandler.

(** The payloads of the events of each kind, in order. *)
Definition contents (events : list event) : list string :=
  omap (fun ev => match ev with EContent data => Some data | _ => None end) events.

Definition usages (events : list event) : list pyval :=
  omap (fun ev => match ev with EUsage data => Some data | _ => None end) events.

Definition context_usages (events : list event) : list float :=
  omap (fun ev => match ev with EContextUsage data => Some data | _ => None end) events.

(** ["".join(l)] *)
Definition join (l : list string) : string := foldr String.append "" l.

(** The texts of the content chunks of a yielded sequence. *)
Definition chunk_texts (ys : list chunk) : list string :=
  omap (fun c => match c with ContentChunk s _ => Some s | _ => None end) ys.

(** [if self.metering_data: final_chunk["usage"]["credits_used"] = ...] *)
Definition credits_used (metering_data : option pyval) : option pyval :=
  match metering_data with
  | Some d => if truthy d then Some d else None
  | None => None
  end.

(** ["tool_calls" if all_tool_calls else "stop"] *)
Definition finish_reason_of (all_tool_calls : list pyval) : string :=
  match all_tool_calls with [] => "stop" | _ => "tool_calls" end.

Section Handlers.

Variable parser_state : Type.
Variable feed : parser_state -> list Byte.byte -> result (parser_state * list event).

(** The handler after a list of events has gone through
    [_process_events]: all content text appended, the last usage and the
    last context percentage kept. *)
Definition after_events (h : handler parser_state) (events : list event)
    : handler parser_state :=
  {| model := model h; model_cache := model_cache h;
     request_messages := request_messages h; request_tools := request_tools h;
     parser := parser h;
     full_content := full_content h +:+ join (contents events);
     metering_data :=
       match last (usages events) with
       | Some u => Some u
       | None => metering_data h
       end;
     context_usage_percentage :=
       match last (context_usages events) with
       | Some p => Some p
       | None => context_usage_percentage h
       end |}.

(** Feeding byte chunks to the parser one after the other: the parser at
    the end and all events, in order. *)
Fixpoint feed_all (p : parser_state) (chunks : list (list Byte.byte))
    : result (parser_state * list event) :=
  match chunks with
  | [] => Ok (p, [])
  | b :: chunks' =>
      match feed p b with
      | Err e => Err e
      | Ok (p', events) =>
          match feed_all p' chunks' with
          | Err e => Err e
          | Ok (p'', events') => Ok (p'', events ++ events')
          end
      end
  end.

(** A parser that puts at most one content event in what a [feed]
    returns. *)
Definition one_content_per_feed : Prop :=
  forall p b p' events,
    feed p b = Ok (p', events) -> (length (contents events) <= 1)%nat.

End Handlers.

Arguments after_events {parser_state} h events.
Arguments feed_all {parser_state} feed p chunks.
Arguments one_content_per_feed {parser_state} feed.

Section Exits.

Variable settings : Config.Settings.
Variable parser_state : Type.
Variable feed : parser_state -> list Byte.byte -> result (parser_state * list event).
Variable count_tokens : string -> Z.
Variable count_message_tokens : list pyval -> Z.
Variable count_tools_tokens : list pyval -> Z.

(** Where the [try] of [stream] can meet an exception, by what the
    upstream, the parser and the token calculation do, and the exception
    as it reaches the handlers of [stream]:
    - the first read runs into the deadline, or raises: a
      [TimeoutError] it raises counts as the deadline;
    - [self.parser.feed] raises on a chunk [c], the chunks [fed] before
      it having gone through;
    - the byte iteration of the [async for] raises, every chunk before
      having gone through the parser;
    - [_calculate_tokens] raises at the end of the upstream. *)
Inductive raised (up : Upstream) (h : handler parser_state) : exn -> Prop :=
| raised_deadline :
    first up = FirstTimeout ->
    raised up h FirstTokenTimeoutError
| raised_first_read e :
    first up = FirstRaise e ->
    raised up h (match e with
                 | asyncio_TimeoutError => FirstTokenTimeoutError
                 | _ => e
                 end)
| raised_feed b fed c later p events e :
    first up = FirstBytes b ->
    b :: rest up = fed ++ c :: later ->
    feed_all feed (parser h) fed = Ok (p, events) ->
    feed p c = Err e ->
    raised up h e
| raised_read b p events e :
    first up = FirstBytes b ->
    feed_all feed (parser h) (b :: rest up) = Ok (p, events) ->
    rest_end up = Some e ->
    raised up h e
| raised_tokens b p events e :
    first up = FirstBytes b ->
    feed_all feed (parser h) (b :: rest up) = Ok (p, events) ->
    rest_end up = None ->
    _calculate_tokens settings count_tokens count_message_tokens count_tools_tokens
      (with_parser p (after_events h events)) = Err e ->
    raised up h e.

(** What [stream] does with an exception [e] of its [try], as seen in a
    run: it leaves the generator, or it is logged and dropped. *)
Definition leaves (e : exn) (r : stream_run) : Prop :=
  propagated r = Some e /\ logged r = None.

Definition logged_and_dropped (e : exn) (r : stream_run) : Prop :=
  propagated r = None /\ logged r = Some e.

(** A run that stops short: content and tool-call chunks only, neither
    final chunk nor terminator. *)
Definition cut_short (r : stream_run) : Prop :=
  Forall (fun c => (chunk_rank c <= 1)%nat) (yielded r).

End Exits.

Arguments raised settings {parser_state} feed
  count_tokens count_message_tokens count_tools_tokens up h _.

End StreamMore.

Module Fixtures2.
Import StreamHandler.

(** A second stand-in parser: a byte chunk that opens with ["%"] is a
    context-usage event of 50 percent, any other one is a content event
    carrying the chunk as text. *)
Definition feed_pct (p : unit) (b : list Byte.byte) : result (unit * list event) :=
  match b with
  | Byte.x25 :: _ => Ok (tt, [EContextUsage 50%float])
  | _ => Ok (tt, [EContent (String.string_of_list_byte b)])
  end.

(** A handler whose model is cached with a limit that is a string. *)
Definition handler_text_limit : handler unit :=
  {| model := "m";
     model_cache := Fixtures.cache_with "m" (PStr "200000");
     request_messages := Some [PStr "Hi"];
     request_tools := None;
     parser := tt;
     full_content := "";
     metering_data := None;
     context_usage_percentage := None |}.

(** A third stand-in parser: a chunk that opens with ["!"] is malformed
    and makes [feed] raise, any other one is a content event. *)
Definition feed_checked (p : unit) (b : list Byte.byte) : result (unit * list event) :=
  match b with
  | Byte.x21 :: _ => Err ValueError
  | _ => Ok (tt, [EContent (String.string_of_list_byte b)])
  end.

Definition run_checked (up : Upstream) : stream_run :=
  stream Config.settings feed_checked Fixtures.get_tool_calls
    Fixtures.parse_bracket_tool_calls Fixtures.deduplicate_tool_calls
    Fixtures.count_tokens Fixtures.count_message_tokens Fixtures.count_tools_tokens
    up {| is_closed := false |} Fixtures.fresh_handler.

(** Upstream responses: one whose second chunk is malformed, one whose
    task is cancelled while the handler waits for the third chunk, one
    whose first read raises a [TimeoutError] of its own. *)
Definition up_malformed : Upstream :=
  {| first := FirstBytes (Fixtures.bytes_of "Hel");
     rest := [Fixtures.bytes_of "!"; Fixtures.bytes_of "lo"];
     rest_end := None |}.

Definition up_cancelled : Upstream :=
  {| first := FirstBytes (Fixtures.bytes_of "Hel");
     rest := [Fixtures.bytes_of "lo"];
     rest_end := Some asyncio_CancelledError |}.

Definition up_read_timeout : Upstream :=
  {| first := FirstRaise asyncio_TimeoutError;
     rest := [];
     rest_end := None |}.

Definition up_with_usage : Upstream :=
  {| first := FirstBytes (Fixtures.bytes_of "Hi");
     rest := [Fixtures.bytes_of "%"];
     rest_end := None |}.

End Fixtures2.

(* ===================================================================== *)
(** * kiro_gateway/cache.py: replacing the cache *)
(* ===================================================================== *)

Module CacheMore.

(** What [update] does with a list of models.  A [modelId] that is a
    number, a boolean or [None] would become a key that is not a string;
    the cache is modelled with string keys, as its annotation
    [Dict[str, Dict[str, Any]]] has it, and the model stops there. *)
Inductive update_outcome :=
| Updated (cache : gmap string (gmap string pyval))
| UpdateRaises (e : exn)
| NotModelled.

(** [{model["modelId"]: model for model in models_data}]: a missing key
    raises [KeyError], a list or dict as key raises [TypeError], a later
    model replaces an earlier one with the same id. *)
Fixpoint update_from (models_data : list (gmap string pyval))
    (acc : gmap string (gmap string pyval)) : update_outcome :=
  match models_data with
  | [] => Updated acc
  | model :: rest =>
      match model !! "modelId" with
      | None => UpdateRaises (OtherException "KeyError")
      | Some (PStr id) => update_from rest (<[id := model]> acc)
      | Some (PList _) | Some (PDict _) => UpdateRaises TypeError
      | Some _ => NotModelled
      end
  end.

(** [update(models_data)]: the new cache replaces the old one. *)
Definition update (models_data : list (gmap string pyval)) : update_outcome :=
  update_from models_data ∅.

(** [is_empty()]: [not self._cache] *)
Definition is_empty (cache : gmap string (gmap string pyval)) : bool :=
  Nat.eqb (size cache) 0.

(** [size] *)
Definition cache_size (cache : gmap string (gmap string pyval)) : nat := size cache.

(** Whether a model carries the string [id] as its [modelId]. *)
Definition has_id (id : string) (model : gmap string pyval) : bool :=
  match model !! "modelId" with
  | Some (PStr s) => String.eqb s id
  | _ => false
  end.

(** Whether a model carries a string as its [modelId]. *)
Definition has_string_id (model : gmap string pyval) : bool :=
  match model !! "modelId" with
  | Some (PStr _) => true
  | _ => false
  end.

End CacheMore.

(* ===================================================================== *)
(** * kiro_gateway/config.py: the two validators *)
(* ===================================================================== *)

Module ConfigMore.

Section Validators.

(** [str.upper] and [str.lower] *)
Variable upper : string -> string.
Variable lower : string -> string.

Definition valid_levels : list string :=
  ["TRACE"; "DEBUG"; "INFO"; "WARNING"; "ERROR"; "CRITICAL"].

Definition valid_modes : list string := ["off"; "errors"; "all"].

(** [v in s] for a set of strings *)
Definition member (v : string) (s : list string) : bool :=
  existsb (String.eqb v) s.

Definition validate_log_level (v : string) : string :=
  let v := upper v in
  if negb (member v valid_levels) then "INFO" else v.

Definition validate_debug_mode (v : string) : string :=
  let v := lower v in
  if negb (member v valid_modes) then "off" else v.

End Validators.

Fixpoint map_string (f : Ascii.ascii -> Ascii.ascii) (s : string) : string :=
  match s with
  | EmptyString => EmptyString
  | String c s' => String (f c) (map_string f s')
  end.

(** [upper] and [lower] on the letters of ASCII, which is how the builtin
    methods act on strings of ASCII. *)
Definition ascii_upper (s : string) : string :=
  map_string (fun c =>
    let n := Ascii.nat_of_ascii c in
    if ((97 <=? n) && (n <=? 122))%nat then Ascii.ascii_of_nat (n - 32) else c) s.

Definition ascii_lower (s : string) : string :=
  map_string (fun c =>
    let n := Ascii.nat_of_ascii c in
    if ((65 <=? n) && (n <=? 90))%nat then Ascii.ascii_of_nat (n + 32) else c) s.

End ConfigMore.

(* ===================================================================== *)
(** * kiro_gateway/routes.py: checking the proxy key *)
(* ===================================================================== *)

Module Routes.

(** A header value reaches the handlers as a string of code points below
    256, which is what a [string] here is. *)
Definition is_ascii (s : string) : bool :=
  forallb (fun c => (Ascii.nat_of_ascii c <? 128)%nat) (String.list_ascii_of_string s).

(** [secrets.compare_digest(a, b)] on two [str]: equality, and
    [TypeError] when one of them is not ASCII. *)
Definition compare_digest (a b : string) : result bool :=
  if is_ascii a && is_ascii b then Ok (String.eqb a b) else Err TypeError.

(** The truth value of an optional header. *)
Definition present (header : option string) : option string :=
  match header with
  | Some s => if String.eqb s "" then None else Some s
  | None => None
  end.

Section Keys.

Variable PROXY_API_KEY : string.

(** [verify_api_key(auth_header)] *)
Definition verify_api_key (auth_header : option string) : result bool :=
  match present auth_header with
  | None => Err (HTTPException 401)
  | Some h =>
      bind (compare_digest h ("Bearer " +:+ PROXY_API_KEY))
           (fun same => if negb same then Err (HTTPException 401) else Ok true)
  end.

(** [x_api_key and secrets.compare_digest(x_api_key, PROXY_API_KEY)] and
    its twin for the Authorization header: a missing header decides
    without comparing. *)
Definition header_matches (header : option string) (expected : string) : result bool :=
  match present header with
  | None => Ok false
  | Some h => compare_digest h expected
  end.

(** [verify_anthropic_api_key(x_api_key, auth_header)] *)
Definition verify_anthropic_api_key (x_api_key auth_header : option string)
    : result bool :=
  bind (header_matches x_api_key PROXY_API_KEY) (fun by_key =>
    if by_key then Ok true
    else
      bind (header_matches auth_header ("Bearer " +:+ PROXY_API_KEY)) (fun by_bearer =>
        if by_bearer then Ok true else Err (HTTPException 401))).

End Keys.

End Routes.

(* ===================================================================== *)
(** * kiro_gateway/metrics.py: counters and the latency histogram *)
(* ===================================================================== *)

Module MetricsMore.

#[local] Set Warnings "-inexact-float".

(** [LATENCY_BUCKETS] *)
Definition LATENCY_BUCKETS : list float :=
  [0.1; 0.25; 0.5; 1.0; 2.5; 5.0; 10.0; 30.0; 60.0; 120.0; infinity]%float.

(** The collector: the counters ([defaultdict(int)]), the histogram
    ([defaultdict] of eleven zeros) with its sum and count, and the
    gauges. *)
Record Collector := {
  _request_total : gmap string Z;
  _error_total : gmap string Z;
  _latency_histogram : gmap string (list Z);
  _latency_sum : gmap string float;
  _latency_count : gmap string Z;
  gauges : Metrics.PrometheusMetrics;
}.

(** [__init__] *)
Definition init : Collector := {|
  _request_total := ∅;
  _error_total := ∅;
  _latency_histogram := ∅;
  _latency_sum := ∅;
  _latency_count := ∅;
  gauges := Metrics.init;
|}.

(** [d[key] += n] on a [defaultdict(int)] *)
Definition add_to (key : string) (n : Z) (d : gmap string Z) : gmap string Z :=
  <[key := default 0 (d !! key) + n]> d.

(** [str(n)] for an int *)
Definition str_int (n : Z) : string := NilZero.string_of_int (Z.to_int n).

(** [f"{endpoint}:{status_code}:{model}"] *)
Definition request_key (endpoint : string) (status_code : Z) (model : string) : string :=
  endpoint +:+ ":" +:+ str_int status_code +:+ ":" +:+ model.

Definition inc_request (endpoint : string) (status_code : Z) (model : string)
    (c : Collector) : Collector :=
  {| _request_total := add_to (request_key endpoint status_code model) 1 (_request_total c);
     _error_total := _error_total c;
     _latency_histogram := _latency_histogram c;
     _latency_sum := _latency_sum c;
     _latency_count := _latency_count c;
     gauges := gauges c |}.

Definition inc_error (error_type : string) (c : Collector) : Collector :=
  {| _request_total := _request_total c;
     _error_total := add_to error_type 1 (_error_total c);
     _latency_histogram := _latency_histogram c;
     _latency_sum := _latency_sum c;
     _latency_count := _latency_count c;
     gauges := gauges c |}.

(** The loop of [observe_latency] over one histogram: every bucket whose
    bound is at least the latency goes up by one. *)
Definition observe_buckets (latency : float) (counts : list Z) : list Z :=
  zip_with (fun count le => if PrimFloat.leb latency le then count + 1 else count)
           counts LATENCY_BUCKETS.

(** [observe_latency].  The histogram is a [defaultdict]: the row of an
    endpoint comes into being, as eleven zeros, when
    [self._latency_histogram[endpoint]] is first evaluated, and the loop
    evaluates it only under [if latency <= le].  A latency that is below
    no bound (NaN) leaves the histogram as it is; sum and count are
    updated in any case. *)
Definition observe_latency (endpoint : string) (latency : float) (c : Collector)
    : Collector :=
  {| _request_total := _request_total c;
     _error_total := _error_total c;
     _latency_histogram :=
       if existsb (PrimFloat.leb latency) LATENCY_BUCKETS then
         <[endpoint :=
             observe_buckets latency
               (default (replicate (length LATENCY_BUCKETS) 0)
                        (_latency_histogram c !! endpoint))]>
           (_latency_histogram c)
       else _latency_histogram c;
     _latency_sum :=
       <[endpoint :=
           PrimFloat.add (default 0%float (_latency_sum c !! endpoint)) latency]>
         (_latency_sum c);
     _latency_count := add_to endpoint 1 (_latency_count c);
     gauges := gauges c |}.

Definition with_gauges (g : Metrics.PrometheusMetrics) (c : Collector) : Collector :=
  {| _request_total := _request_total c;
     _error_total := _error_total c;
     _latency_histogram := _latency_histogram c;
     _latency_sum := _latency_sum c;
     _latency_count := _latency_count c;
     gauges := g |}.

Definition inc_active_connections (c : Collector) : Collector :=
  with_gauges (Metrics.inc_active_connections (gauges c)) c.

Definition dec_active_connections (c : Collector) : Collector :=
  with_gauges (Metrics.dec_active_connections (gauges c)) c.

(** A run of [observe_latency] calls. *)
Definition observe_all (observations : list (string * float)) (c : Collector)
    : Collector :=
  foldl (fun c o => observe_latency (fst o) (snd o) c) c observations.

(** A latency that is a number. *)
Definition is_number (latency : float) : bool := PrimFloat.eqb latency latency.

(** The observations made for one endpoint. *)
Definition observed (endpoint : string) (observations : list (string * float))
    : list (string * float) :=
  List.filter (fun o => String.eqb (fst o) endpoint) observations.

Definition numbers (observations : list (string * float)) : list (string * float) :=
  List.filter (fun o => is_number (snd o)) observations.

(** A histogram as [observe_latency] keeps it: one count per bucket, none
    negative, none smaller than the one of a lower bucket. *)
Definition cumulative (counts : list Z) : Prop :=
  length counts = length LATENCY_BUCKETS
  /\ forall i j a b, (i <= j)%nat -> counts !! i = Some a -> counts !! j = Some b ->
       0 <= a <= b.

(** Whether the bucket bounds, taken in pairs, are in order. *)
Definition buckets_in_order : bool :=
  forallb (fun i =>
    forallb (fun j =>
      implb (i <=? j)%nat
        match LATENCY_BUCKETS !! i, LATENCY_BUCKETS !! j with
        | Some bi, Some bj => PrimFloat.leb bi bj
        | _, _ => true
        end)
      (seq 0 (length LATENCY_BUCKETS)))
    (seq 0 (length LATENCY_BUCKETS)).

(** What holds of one endpoint after a run of observations: it has a
    row once one of its observations was a number, and a count once it
    had an observation. *)
Definition endpoint_state (c : Collector) (observations : list (string * float))
    (endpoint : string) : Prop :=
  match _latency_histogram c !! endpoint with
  | None => numbers (observed endpoint observations) = []
  | Some counts =>
      numbers (observed endpoint observations) <> []
      /\ cumulative counts
      /\ counts !! 10%nat
         = Some (Z.of_nat (length (numbers (observed endpoint observations))))
  end
  /\ _latency_count c !! endpoint
     = match observed endpoint observations with
       | [] => None
       | _ => Some (Z.of_nat (length (observed endpoint observations)))
       end.

(** [sum(d.values())] *)
Definition total (d : gmap string Z) : Z :=
  map_fold (fun _ count acc => acc + count) 0 d.

(** The separator of the parts of a key, [":"] (code point 58). *)
Definition colon : Ascii.ascii := Ascii.ascii_of_nat 58.

(** [s.split(":")] *)
Fixpoint split_colon (s : string) : list string :=
  match s with
  | EmptyString => [EmptyString]
  | String c rest =>
      if Ascii.eqb c colon then EmptyString :: split_colon rest
      else
        match split_colon rest with
        | part :: parts => String c part :: parts
        | [] => [String c EmptyString]
        end
  end.

(** [key.split(":")[0]] *)
Definition first_part (key : string) : string := hd EmptyString (split_colon key).

(** [_aggregate_by_endpoint]: the loop over the items of
    [_request_total]; the sums it builds do not depend on the order the
    items come in. *)
Definition _aggregate_by_endpoint (request_total : gmap string Z) : gmap string Z :=
  map_fold (fun key count result => add_to (first_part key) count result)
           ∅ request_total.

(** A string without [":"]. *)
Fixpoint colon_free (s : string) : bool :=
  match s with
  | EmptyString => true
  | String c rest => negb (Ascii.eqb c colon) && colon_free rest
  end.

(** A run of [inc_request] calls, each given as endpoint, status, model. *)
Definition inc_requests (calls : list (string * Z * string)) (c : Collector)
    : Collector :=
  foldl (fun c call => inc_request (fst (fst call)) (snd (fst call)) (snd call) c)
        c calls.

(** The calls made for one endpoint. *)
Definition calls_to (endpoint : string) (calls : list (string * Z * string))
    : list (string * Z * string) :=
  List.filter (fun call => String.eqb (fst (fst call)) endpoint) calls.

(** ** kiro_gateway/middleware.py: [MetricsMiddleware.dispatch] *)

(** What [call_next] comes back with: a response, with
    [request.state.model] if the handler set it; an [Exception], given by
    the name of its type; or an exception outside [Exception]
    ([asyncio.CancelledError], [KeyboardInterrupt]), which [except
    Exception] lets through. *)
Inductive handled :=
| Responded (status_code : Z) (model : option string)
| Failed (error_type : string)
| Interrupted (error_type : string).

(** [dispatch]: [call_next] is given the collector as it stands and
    returns it as it leaves it, with the time that went by since
    [start_time]. *)
Definition dispatch (endpoint : string)
    (call_next : Collector -> handled * float * Collector) (c : Collector)
    : result Z * Collector :=
  let '(h, process_time, c') := call_next (inc_active_connections c) in
  match h with
  | Responded status_code model =>
      (Ok status_code,
       dec_active_connections
         (observe_latency endpoint process_time
            (inc_request endpoint status_code (default "unknown" model) c')))
  | Failed error_type =>
      (Err (OtherException error_type),
       dec_active_connections
         (observe_latency endpoint process_time
            (inc_error error_type
               (inc_request endpoint 500 "unknown" c'))))
  | Interrupted error_type =>
      (Err (OtherException error_type), dec_active_connections c')
  end.

(** How many requests and errors [dispatch] records for an outcome. *)
Definition requests_recorded (h : handled) : Z :=
  match h with Interrupted _ => 0 | _ => 1 end.

Definition errors_recorded (h : handled) : Z :=
  match h with Failed _ => 1 | _ => 0 end.

(** A handler that answers and leaves the collector alone. *)
Definition answers (status_code : Z) (model : option string) (process_time : float)
    (c : Collector) : handled * float * Collector :=
  (Responded status_code model, process_time, c).

(** A handler that raises and leaves the collector alone. *)
Definition raises (error_type : string) (process_time : float)
    (c : Collector) : handled * float * Collector :=
  (Failed error_type, process_time, c).

End MetricsMore.

(* ===================================================================== *)
(** * kiro_gateway/token_info_sync.py *)
(* ===================================================================== *)

Module TokenSync.

(** What the database, the auth manager and the Kiro API give one call
    of [sync_token_info]: a value or an [Exception] each.  The third is
    step 3 of the method as a whole, the choice of the idp and
    [fetch_token_info]. *)
Record world := {
  get_token_credentials : result pyval;
  get_access_token : result pyval;
  fetch_token_info : result pyval;
  update_token_info : result unit;
}.

(** The calls the method makes, in the order it makes them. *)
Inductive effect :=
| LoadCredentials
| AccessToken
| FetchInfo
| UpdateDb
| Sleep.

#[export] Instance effect_eq_dec : EqDecision effect.
Proof. solve_decision. Defined.

(** The body of the [try] of [sync_token_info]. *)
Definition sync_body (w : world) : result bool * list effect :=
  match get_token_credentials w with
  | Err e => (Err e, [LoadCredentials])
  | Ok credentials =>
      if negb (truthy credentials) then (Ok false, [LoadCredentials]) else
      match py_get credentials "refresh_token" with
      | Err e => (Err e, [LoadCredentials])
      | Ok refresh_token =>
          if negb (truthy refresh_token) then (Ok false, [LoadCredentials]) else
          match get_access_token w with
          | Err e => (Err e, [LoadCredentials; AccessToken])
          | Ok access_token =>
              if negb (truthy access_token)
              then (Ok false, [LoadCredentials; AccessToken]) else
              match fetch_token_info w with
              | Err e => (Err e, [LoadCredentials; AccessToken; FetchInfo])
              | Ok info =>
                  if negb (truthy info)
                  then (Ok false, [LoadCredentials; AccessToken; FetchInfo]) else
                  (* the arguments of update_token_info: info.get(...) *)
                  match py_get info "email" with
                  | Err e => (Err e, [LoadCredentials; AccessToken; FetchInfo])
                  | Ok _ =>
                      match update_token_info w with
                      | Err e =>
                          (Err e, [LoadCredentials; AccessToken; FetchInfo; UpdateDb])
                      | Ok _ =>
                          (Ok true, [LoadCredentials; AccessToken; FetchInfo; UpdateDb])
                      end
                  end
              end
          end
      end
  end.

(** [sync_token_info]: [except Exception] turns every exception of the
    body into [False]. *)
Definition sync_token_info (w : world) : bool * list effect :=
  match sync_body w with
  | (Ok b, trace) => (b, trace)
  | (Err _, trace) => (false, trace)
  end.

(** The dict [sync_all_tokens] returns. *)
Record summary := {
  success : Z;
  failed : Z;
  total : Z;
}.

(** The loop of [sync_all_tokens] over the active tokens, for any
    [sync_token_info]: an [Exception] of it counts as a failure, and every
    token is followed by [asyncio.sleep(0.5)]. *)
Section Loop.
Context {token : Type}.
Variable sync : token -> result bool * list effect.

Definition sync_step (acc : Z * Z * list effect) (t : token)
    : Z * Z * list effect :=
  let '(success, failed, trace) := acc in
  match sync t with
  | (Ok true, effects) => (success + 1, failed, trace ++ effects ++ [Sleep])
  | (_, effects) => (success, failed + 1, trace ++ effects ++ [Sleep])
  end.

Definition sync_all_tokens (tokens : list token) : summary * list effect :=
  let '(success, failed, trace) := foldl sync_step (0, 0, []) tokens in
  ({| success := success; failed := failed; total := success + failed |}, trace).

End Loop.

(** The method as the service has it. *)
Definition sync_token (w : world) : result bool * list effect :=
  (Ok (fst (sync_token_info w)), snd (sync_token_info w)).

(** How often an effect occurs. *)
Definition occurrences (e : effect) (trace : list effect) : nat :=
  length (List.filter (fun x => bool_decide (x = e)) trace).

End TokenSync.

Module Fixtures3.
Import TokenSync.

Definition creds : pyval :=
  PDict (<["refresh_token" := PStr "rt"]> ∅).

Definition account : pyval :=
  PDict (<["email" := PStr "a@b.c"]> ∅).

Definition world_ok : world :=
  {| get_token_credentials := Ok creds;
     get_access_token := Ok (PStr "at");
     fetch_token_info := Ok account;
     update_token_info := Ok tt |}.

Definition world_no_info : world :=
  {| get_token_credentials := Ok creds;
     get_access_token := Ok (PStr "at");
     fetch_token_info := Ok PNone;
     update_token_info := Ok tt |}.

Definition world_db_down : world :=
  {| get_token_credentials := Err (OtherException "OperationalError");
     get_access_token := Ok (PStr "at");
     fetch_token_info := Ok account;
     update_token_info := Ok tt |}.

End Fixtures3.
(* ===================================================================== *)
(** * Properties *)
(* ===================================================================== *)

(** ** Model-name translation *)

Section ConfigFacts.
Import Config.

Example get_internal_model_id_known :
  get_internal_model_id "claude-sonnet-4-5" = "CLAUDE_SONNET_4_5_20250929_V1_0".
Proof. reflexivity. Qed.

Example get_internal_model_id_alias :
  get_internal_model_id "auto" = "claude-sonnet-4.5".
Proof. reflexivity. Qed.

Example get_internal_model_id_unknown :
  MODEL_MAPPING !! "gpt-4o" = None /\ get_internal_model_id "gpt-4o" = "gpt-4o".
Proof. split; reflexivity. Qed.

(** C7: model-name translation returns an external name that is not a
    key of [MODEL_MAPPING] unchanged, and returns the mapped upstream id
    for a name that is a key. *)
Theorem get_internal_model_id_table (external_model : string) :
  (MODEL_MAPPING !! external_model = None ->
     get_internal_model_id external_model = external_model)
  /\ (forall internal, MODEL_MAPPING !! external_model = Some internal ->
        get_internal_model_id external_model = internal).
Proof.
  unfold get_internal_model_id. split.
  - intros ->. reflexivity.
  - intros internal ->. reflexivity.
Qed.

Lemma get_internal_model_id_table_witness :
  get_internal_model_id "text-davinci" = "text-davinci"
  /\ get_internal_model_id "claude-opus-4-5-20251101" = "claude-opus-4.5".
Proof.
  split.
  - apply (proj1 (get_internal_model_id_table "text-davinci")). reflexivity.
  - apply (proj2 (get_internal_model_id_table "claude-opus-4-5-20251101")).
    reflexivity.
Defined.

End ConfigFacts.

(** ** The active-connection gauge *)

Section MetricsFacts.
Import Metrics.

Lemma run_call_nonneg (m : PrometheusMetrics) (c : call) :
  0 <= _active_connections m -> 0 <= _active_connections (run_call m c).
Proof. destruct c; simpl; lia. Qed.

Lemma run_calls_nonneg (cs : list call) :
  forall m, 0 <= _active_connections m ->
            0 <= _active_connections (run_calls cs m).
Proof.
  unfold run_calls. induction cs as [|c cs IH]; intros m Hm; simpl.
  - exact Hm.
  - apply IH, run_call_nonneg, Hm.
Qed.

Example dec_at_zero_stays :
  _active_connections (run_calls [Dec; Dec; Inc; Dec; Dec] init) = 0.
Proof. reflexivity. Qed.

(** C10: the active-connection gauge starts at 0 and is never negative
    after any sequence of [inc_active_connections] and
    [dec_active_connections] calls, the decrement clamping at zero. *)
Theorem active_connections_never_negative (cs : list call) :
  _active_connections init = 0
  /\ 0 <= _active_connections (run_calls cs init).
Proof.
  split; [reflexivity|]. apply run_calls_nonneg. simpl. lia.
Qed.

End MetricsFacts.

(** ** The model cache *)

Section CacheFacts.
Import Cache Fixtures.

Lemma truthy_dict_of_lookup (d : gmap string pyval) (k : string) (v : pyval) :
  d !! k = Some v -> truthy (PDict d) = true.
Proof.
  intros Hk. simpl. destruct (Nat.eqb_spec (size d) 0) as [H0|]; [|reflexivity].
  apply map_size_empty_iff in H0. subst d. rewrite lookup_empty in Hk.
  discriminate.
Qed.

(** An absent model gets the default, whatever the settings. *)
Lemma get_max_input_tokens_absent (s : Config.Settings)
    (cache : gmap string (gmap string pyval)) (model_id : string) :
  cache !! model_id = None ->
  get_max_input_tokens s cache model_id = Ok (DEFAULT_MAX_INPUT_TOKENS s).
Proof. unfold get_max_input_tokens. intros ->. reflexivity. Qed.

(** A falsy [tokenLimits] gets the default. *)
Lemma get_max_input_tokens_no_limits (s : Config.Settings)
    (cache : gmap string (gmap string pyval)) (model_id : string)
    (model : gmap string pyval) :
  cache !! model_id = Some model ->
  truthy (dict_get model "tokenLimits") = false ->
  get_max_input_tokens s cache model_id = Ok (DEFAULT_MAX_INPUT_TOKENS s).
Proof.
  unfold get_max_input_tokens. intros -> ->.
  rewrite andb_false_r. reflexivity.
Qed.

(** Inside a [tokenLimits] dict, the value decides through [or]. *)
Lemma get_max_input_tokens_limits (s : Config.Settings)
    (cache : gmap string (gmap string pyval)) (model_id : string)
    (model limits : gmap string pyval) :
  cache !! model_id = Some model ->
  model !! "tokenLimits" = Some (PDict limits) ->
  truthy (PDict limits) = true ->
  get_max_input_tokens s cache model_id =
    Ok (py_or (dict_get limits "maxInputTokens") (DEFAULT_MAX_INPUT_TOKENS s)).
Proof.
  unfold get_max_input_tokens. intros -> Hl Ht.
  rewrite (truthy_dict_of_lookup _ _ _ Hl).
  unfold dict_get at 1 2. rewrite Hl. cbn [default from_option id].
  rewrite Ht. reflexivity.
Qed.

Example get_max_input_tokens_cached :
  get_max_input_tokens Config.settings (cache_with "claude-sonnet-4.5" (PInt 1000000))
    "claude-sonnet-4.5" = Ok (PInt 1000000).
Proof. vm_compute. reflexivity. Qed.

(** C6, as stated, fails: a cached model whose [maxInputTokens] is 0 has
    a value there, and the lookup returns 200000, not that value. *)
Lemma get_max_input_tokens_zero_not_returned :
  cache_with "m" (PInt 0) !! "m" = Some (model_entry "m" (PInt 0))
  /\ model_entry "m" (PInt 0) !! "tokenLimits"
       = Some (PDict {[ "maxInputTokens" := PInt 0 ]})
  /\ ({[ "maxInputTokens" := PInt 0 ]} : gmap string pyval) !! "maxInputTokens"
       = Some (PInt 0)
  /\ get_max_input_tokens Config.settings (cache_with "m" (PInt 0)) "m"
       = Ok (PInt 200000)
  /\ get_max_input_tokens Config.settings (cache_with "m" (PInt 0)) "m"
       <> Ok (PInt 0).
Proof.
  repeat split; try (vm_compute; reflexivity).
  vm_compute. discriminate.
Qed.

(** C6 (amended): for a model id absent from the cache,
    [get_max_input_tokens] returns the default 200000; for a cached model
    whose [tokenLimits] dict holds a truthy (non-zero, non-null)
    [maxInputTokens] value, it returns that value. *)
Theorem get_max_input_tokens_default_or_value
    (cache : gmap string (gmap string pyval)) (model_id : string) :
  (cache !! model_id = None ->
     get_max_input_tokens Config.settings cache model_id = Ok (PInt 200000))
  /\ (forall model limits v,
        cache !! model_id = Some model ->
        model !! "tokenLimits" = Some (PDict limits) ->
        limits !! "maxInputTokens" = Some v ->
        truthy v = true ->
        get_max_input_tokens Config.settings cache model_id = Ok v).
Proof.
  split.
  - intros Hc. rewrite (get_max_input_tokens_absent _ _ _ Hc). reflexivity.
  - intros model limits v Hc Hl Hv Ht.
    rewrite (get_max_input_tokens_limits _ _ _ _ _ Hc Hl
               (truthy_dict_of_lookup _ _ _ Hv)).
    unfold dict_get, py_or. rewrite Hv. cbn [default from_option id]. rewrite Ht. reflexivity.
Qed.

Lemma get_max_input_tokens_default_or_value_witness :
  get_max_input_tokens Config.settings ∅ "claude-opus-4.5" = Ok (PInt 200000)
  /\ get_max_input_tokens Config.settings
       (cache_with "claude-opus-4.5" (PInt 180000)) "claude-opus-4.5"
     = Ok (PInt 180000).
Proof.
  split.
  - apply (proj1 (get_max_input_tokens_default_or_value ∅ "claude-opus-4.5")).
    reflexivity.
  - apply (proj2 (get_max_input_tokens_default_or_value
                    (cache_with "claude-opus-4.5" (PInt 180000)) "claude-opus-4.5")
             (model_entry "claude-opus-4.5" (PInt 180000))
             {[ "maxInputTokens" := PInt 180000 ]} (PInt 180000));
      vm_compute; reflexivity.
Defined.

(** C9: [get_max_input_tokens] returns the 200000 default for every
    cached model whose [tokenLimits] is missing or empty, and for every
    cached model whose [tokenLimits] holds a [maxInputTokens] of 0 or
    null: the lookup falls back through Python's [or] on falsy values. *)
Theorem get_max_input_tokens_falsy_default
    (cache : gmap string (gmap string pyval)) (model_id : string)
    (model : gmap string pyval) :
  cache !! model_id = Some model ->
  (model !! "tokenLimits" = None
   \/ model !! "tokenLimits" = Some (PDict ∅)
   \/ exists limits,
        model !! "tokenLimits" = Some (PDict limits)
        /\ (limits !! "maxInputTokens" = Some (PInt 0)
            \/ limits !! "maxInputTokens" = Some PNone)) ->
  get_max_input_tokens Config.settings cache model_id = Ok (PInt 200000).
Proof.
  intros Hc [Hmiss | [Hempty | (limits & Hl & Hv)]].
  - rewrite (get_max_input_tokens_no_limits _ _ _ _ Hc); [reflexivity|].
    unfold dict_get. rewrite Hmiss. reflexivity.
  - rewrite (get_max_input_tokens_no_limits _ _ _ _ Hc); [reflexivity|].
    unfold dict_get. rewrite Hempty. reflexivity.
  - assert (Ht : truthy (PDict limits) = true).
    { destruct Hv as [Hv|Hv]; exact (truthy_dict_of_lookup _ _ _ Hv). }
    rewrite (get_max_input_tokens_limits _ _ _ _ _ Hc Hl Ht).
    unfold dict_get, py_or. destruct Hv as [-> | ->]; reflexivity.
Qed.

Lemma get_max_input_tokens_falsy_default_witness :
  get_max_input_tokens Config.settings (cache_with "m" PNone) "m" = Ok (PInt 200000)
  /\ get_max_input_tokens Config.settings (cache_without_limits "m") "m"
     = Ok (PInt 200000).
Proof.
  split.
  - apply (get_max_input_tokens_falsy_default (cache_with "m" PNone) "m"
             (model_entry "m" PNone)).
    + vm_compute. reflexivity.
    + right. right. exists {[ "maxInputTokens" := PNone ]}. split.
      * vm_compute. reflexivity.
      * right. vm_compute. reflexivity.
  - apply (get_max_input_tokens_falsy_default (cache_without_limits "m") "m"
             {[ "modelId" := PStr "m" ]}).
    + vm_compute. reflexivity.
    + left. vm_compute. reflexivity.
Defined.

End CacheFacts.

(** ** The retry client *)

Section HttpClientFacts.
Import HttpClient.

(** *** Counting along a trace *)

Lemma requests_issued_app (t t' : list effect) :
  requests_issued (t ++ t') = (requests_issued t + requests_issued t')%nat.
Proof. unfold requests_issued. rewrite List.filter_app, length_app. reflexivity. Qed.

(** *** The backoff delay *)

Lemma converts_below_1024 : forallb converts (seq 0 1024) = true.
Proof. vm_compute. reflexivity. Qed.

Example no_float_for_2_pow_1024 : int_to_float (2 ^ 1024) = Err OverflowError.
Proof. vm_compute. reflexivity. Qed.

Lemma sleep_backoff_ok (settings : Config.Settings) (attempt : nat) :
  (attempt < 1024)%nat ->
  exists delay, sleep_backoff settings attempt = ([Sleep delay], Ok Continue).
Proof.
  intros Hlt.
  assert (Hc : converts attempt = true).
  { pose proof converts_below_1024 as H.
    rewrite forallb_forall in H. apply H, in_seq. lia. }
  unfold converts in Hc. unfold sleep_backoff, backoff, float_mul.
  destruct (int_to_float (2 ^ Z.of_nat attempt)) as [g|]; [|discriminate].
  simpl. eauto.
Qed.

(** *** One iteration *)

Lemma attempt_once_200 settings stream attempt env token resp :
  token_outcome env = Ok token ->
  send_outcome env = Ok resp ->
  status_code resp = 200 ->
  attempt_once settings stream attempt env
    = ([GetAccessToken; Send token], Return resp).
Proof.
  intros Ht Hs Hc. unfold attempt_once, try_body. rewrite Ht, Hs, Hc.
  reflexivity.
Qed.

Lemma attempt_once_403 settings stream attempt env token resp :
  token_outcome env = Ok token ->
  send_outcome env = Ok resp ->
  status_code resp = 403 ->
  refresh_outcome env = Ok tt ->
  attempt_once settings stream attempt env
    = ([GetAccessToken; Send token; ForceRefresh], Continue).
Proof.
  intros Ht Hs Hc Hr. unfold attempt_once, try_body. rewrite Ht, Hs, Hc, Hr.
  reflexivity.
Qed.

Lemma attempt_once_retryable settings stream attempt env :
  (attempt < 1024)%nat ->
  retryable env = true ->
  exists t, attempt_once settings stream attempt env = (t, Continue)
            /\ requests_issued t = 1%nat.
Proof.
  intros Hlt Hr. unfold retryable in Hr.
  destruct (token_outcome env) as [token|] eqn:Ht; [|discriminate].
  destruct (send_outcome env) as [resp|] eqn:Hs; [|discriminate].
  destruct (sleep_backoff_ok settings attempt Hlt) as [delay Hd].
  unfold attempt_once, try_body. rewrite Ht, Hs. cbn zeta.
  destruct (status_code resp =? 200) eqn:E200.
  { apply Z.eqb_eq in E200. rewrite E200 in Hr. discriminate. }
  destruct (status_code resp =? 403) eqn:E403.
  { destruct (refresh_outcome env) as [u|].
    - eexists. split; reflexivity.
    - apply Z.eqb_eq in E403. rewrite E403 in Hr. discriminate. }
  destruct (status_code resp =? 429) eqn:E429.
  { rewrite Hd. eexists. split; reflexivity. }
  simpl in Hr. rewrite Hr, Hd. eexists. split; reflexivity.
Qed.

(** *** The loop *)

Lemma retry_loop_all_retryable settings stream upstream :
  forall remaining attempt,
    (attempt + remaining <= 1024)%nat ->
    (forall i, (attempt <= i < attempt + remaining)%nat ->
               retryable (upstream i) = true) ->
    exists t, retry_loop settings stream upstream remaining attempt = (t, None)
              /\ requests_issued t = remaining.
Proof.
  induction remaining as [|remaining IH]; intros attempt Hb Hall.
  - exists []. split; reflexivity.
  - destruct (attempt_once_retryable settings stream attempt (upstream attempt))
      as (t & Ht & Hn); [lia | apply Hall; lia |].
    destruct (IH (S attempt)) as (t' & Ht' & Hn'); [lia | intros i Hi; apply Hall; lia |].
    exists (t ++ t'). cbn [retry_loop]. rewrite Ht, Ht'. split; [reflexivity|].
    rewrite requests_issued_app, Hn, Hn'. reflexivity.
Qed.

Lemma retry_loop_403 settings stream upstream remaining attempt token resp :
  token_outcome (upstream attempt) = Ok token ->
  send_outcome (upstream attempt) = Ok resp ->
  status_code resp = 403 ->
  refresh_outcome (upstream attempt) = Ok tt ->
  retry_loop settings stream upstream (S remaining) attempt
    = ([GetAccessToken; Send token; ForceRefresh]
         ++ fst (retry_loop settings stream upstream remaining (S attempt)),
       snd (retry_loop settings stream upstream remaining (S attempt))).
Proof.
  intros Ht Hs Hc Hr. cbn [retry_loop].
  rewrite (attempt_once_403 _ _ _ _ _ _ Ht Hs Hc Hr).
  destruct (retry_loop settings stream upstream remaining (S attempt)).
  reflexivity.
Qed.

(** *** The budget *)

(** C1, as stated, fails: with [max_retries = 3] and an upstream that
    only ever answers 429, the client issues 3 requests, not 3 + 1,
    before it fails. *)
Lemma retry_budget_is_not_one_more :
  Config.max_retries Config.settings = 3
  /\ requests_issued
       (fst (request_with_retry module_globals Config.settings false (always 429)))
     = 3%nat
  /\ (exists e, snd (request_with_retry module_globals Config.settings false (always 429))
                = Raised e)
  /\ Z.of_nat (requests_issued
       (fst (request_with_retry module_globals Config.settings false (always 429))))
     <> Config.max_retries Config.settings + 1.
Proof.
  split; [reflexivity|]. split; [vm_compute; reflexivity|].
  split; [eexists; vm_compute; reflexivity|].
  intros H. vm_compute in H. discriminate H.
Qed.

(** C1 (amended): for a request that receives only retryable responses
    (403 with a successful refresh, 429 or 5xx), [request_with_retry]
    issues exactly as many upstream requests as its attempt budget
    ([max_retries], or [first_token_max_retries] when streaming; none if
    that is not positive), one per iteration of [range(max_retries)],
    and then fails.  The budget is taken to be at most 1024, the range
    in which [2 ** attempt] still converts to a float for the backoff
    delay. *)
Theorem retry_budget_respected globals settings stream upstream :
  attempt_budget settings stream <= 1024 ->
  (forall i, (i < Z.to_nat (attempt_budget settings stream))%nat ->
             retryable (upstream i) = true) ->
  requests_issued (fst (request_with_retry globals settings stream upstream))
    = Z.to_nat (attempt_budget settings stream)
  /\ snd (request_with_retry globals settings stream upstream)
     = Raised (raise_HTTPException globals (if stream then 504 else 502)).
Proof.
  intros Hb Hall. unfold request_with_retry.
  fold (attempt_budget settings stream).
  destruct (retry_loop_all_retryable settings stream upstream
              (Z.to_nat (attempt_budget settings stream)) 0)
    as (t & Ht & Hn); [lia | intros i Hi; apply Hall; lia |].
  rewrite Ht. split; [exact Hn | reflexivity].
Qed.

Lemma retry_budget_respected_witness :
  requests_issued
    (fst (request_with_retry module_globals Config.settings false (always 503)))
    = 3%nat
  /\ snd (request_with_retry module_globals Config.settings false (always 503))
     = Raised (raise_HTTPException module_globals 502).
Proof.
  apply (retry_budget_respected module_globals Config.settings false (always 503)).
  - vm_compute. discriminate.
  - intros i _. reflexivity.
Defined.

(** *** Exhaustion *)

Example HTTPException_is_not_a_global :
  bound module_globals "HTTPException" = false.
Proof. reflexivity. Qed.

(** Had the module imported the name, exhaustion would raise 504 for a
    streaming request and 502 otherwise. *)
Lemma exhaustion_status_when_bound globals settings stream upstream :
  bound globals "HTTPException" = true ->
  snd (retry_loop settings stream upstream
         (Z.to_nat (attempt_budget settings stream)) 0) = None ->
  snd (request_with_retry globals settings stream upstream)
    = Raised (HTTPException (if stream then 504 else 502)).
Proof.
  intros Hb Hx. unfold request_with_retry, raise_HTTPException.
  fold (attempt_budget settings stream).
  destruct (retry_loop settings stream upstream _ 0) as [t [r|]];
    [discriminate|].
  cbn [snd]. rewrite Hb. reflexivity.
Qed.

(** C2: when every attempt is used up, [request_with_retry] as written
    reaches [raise HTTPException(...)] with the name [HTTPException]
    unbound in http_client.py, so what it raises is [NameError], for a
    streaming and a non-streaming request alike, and not an error
    carrying status 502 or 504. *)
Theorem exhaustion_raises_NameError settings stream upstream :
  snd (retry_loop settings stream upstream
         (Z.to_nat (attempt_budget settings stream)) 0) = None ->
  snd (request_with_retry module_globals settings stream upstream)
    = Raised (NameError "HTTPException")
  /\ forall status,
       snd (request_with_retry module_globals settings stream upstream)
         <> Raised (HTTPException status).
Proof.
  intros Hx. unfold request_with_retry.
  fold (attempt_budget settings stream).
  destruct (retry_loop settings stream upstream _ 0) as [t [r|]];
    [discriminate|].
  cbn [snd]. split; [reflexivity|]. intros status. discriminate.
Qed.

Lemma exhaustion_raises_NameError_witness :
  (snd (request_with_retry module_globals Config.settings false (always 429))
     = Raised (NameError "HTTPException")
   /\ forall status,
        snd (request_with_retry module_globals Config.settings false (always 429))
          <> Raised (HTTPException status))
  /\ (snd (request_with_retry module_globals Config.settings true always_timeout)
        = Raised (NameError "HTTPException")
      /\ forall status,
           snd (request_with_retry module_globals Config.settings true always_timeout)
             <> Raised (HTTPException status)).
Proof.
  split.
  - apply (exhaustion_raises_NameError Config.settings false (always 429)).
    vm_compute. reflexivity.
  - apply (exhaustion_raises_NameError Config.settings true always_timeout).
    vm_compute. reflexivity.
Defined.

(** *** 403 *)

Example one_403_then_success :
  request_with_retry module_globals Config.settings false (scripted [403])
    = ([GetAccessToken; Send "token"; ForceRefresh; GetAccessToken; Send "token"],
       Returned {| status_code := 200; content := "" |}).
Proof. vm_compute. reflexivity. Qed.

(** C5: an attempt that receives 403 forces a refresh of the access
    credential and goes to the next iteration with no sleep in between;
    the iteration is one of the [range(max_retries)] budget; and when a
    single 403 is followed by a 200, the call returns that response
    after exactly one forced refresh. *)
Theorem forbidden_refreshes_and_retries globals settings stream upstream :
  (forall attempt token resp,
     token_outcome (upstream attempt) = Ok token ->
     send_outcome (upstream attempt) = Ok resp ->
     status_code resp = 403 ->
     refresh_outcome (upstream attempt) = Ok tt ->
     attempt_once settings stream attempt (upstream attempt)
       = ([GetAccessToken; Send token; ForceRefresh], Continue)
     /\ forall remaining,
          retry_loop settings stream upstream (S remaining) attempt
            = ([GetAccessToken; Send token; ForceRefresh]
                 ++ fst (retry_loop settings stream upstream remaining (S attempt)),
               snd (retry_loop settings stream upstream remaining (S attempt))))
  /\ (forall token0 resp0 token1 resp1,
        token_outcome (upstream 0%nat) = Ok token0 ->
        send_outcome (upstream 0%nat) = Ok resp0 ->
        status_code resp0 = 403 ->
        refresh_outcome (upstream 0%nat) = Ok tt ->
        token_outcome (upstream 1%nat) = Ok token1 ->
        send_outcome (upstream 1%nat) = Ok resp1 ->
        status_code resp1 = 200 ->
        2 <= attempt_budget settings stream ->
        request_with_retry globals settings stream upstream
          = ([GetAccessToken; Send token0; ForceRefresh;
              GetAccessToken; Send token1],
             Returned resp1)
        /\ refreshes_forced
             (fst (request_with_retry globals settings stream upstream)) = 1%nat
        /\ sleeps (fst (request_with_retry globals settings stream upstream))
           = 0%nat).
Proof.
  split.
  - intros attempt token resp Ht Hs Hc Hr. split.
    + exact (attempt_once_403 _ _ _ _ _ _ Ht Hs Hc Hr).
    + intros remaining. exact (retry_loop_403 _ _ _ _ _ _ _ Ht Hs Hc Hr).
  - intros token0 resp0 token1 resp1 Ht0 Hs0 Hc0 Hr0 Ht1 Hs1 Hc1 Hb.
    assert (E : request_with_retry globals settings stream upstream
                = ([GetAccessToken; Send token0; ForceRefresh;
                    GetAccessToken; Send token1], Returned resp1)).
    { unfold request_with_retry. fold (attempt_budget settings stream).
      destruct (Z.to_nat (attempt_budget settings stream)) as [|[|n]] eqn:En;
        [lia | lia |].
      rewrite (retry_loop_403 _ _ _ _ _ _ _ Ht0 Hs0 Hc0 Hr0).
      cbn [retry_loop].
      rewrite (attempt_once_200 _ _ _ _ _ _ Ht1 Hs1 Hc1).
      reflexivity. }
    rewrite E. repeat split.
Qed.

Lemma forbidden_refreshes_and_retries_witness :
  request_with_retry module_globals Config.settings true (scripted [403])
    = ([GetAccessToken; Send "token"; ForceRefresh; GetAccessToken; Send "token"],
       Returned {| status_code := 200; content := "" |})
  /\ refreshes_forced
       (fst (request_with_retry module_globals Config.settings true (scripted [403])))
     = 1%nat
  /\ sleeps (fst (request_with_retry module_globals Config.settings true
                    (scripted [403]))) = 0%nat.
Proof.
  apply (proj2 (forbidden_refreshes_and_retries module_globals Config.settings true
                  (scripted [403]))
           "token" {| status_code := 403; content := "" |}
           "token" {| status_code := 200; content := "" |});
    try reflexivity.
  vm_compute. discriminate.
Defined.

End HttpClientFacts.

(** ** The stream handler: token calculation *)

Section TokenFacts.
Import StreamHandler Fixtures.

Example int_truncates : float_to_int 1.75%float = Ok 1 /\ py_round 1.75%float = Ok 2.
Proof. split; vm_compute; reflexivity. Qed.

Example int_truncates_toward_zero : float_to_int (-1.75)%float = Ok (-1).
Proof. vm_compute. reflexivity. Qed.

Example round_ties_to_even :
  py_round 2.5%float = Ok 2 /\ py_round 3.5%float = Ok 4.
Proof. split; vm_compute; reflexivity. Qed.

(** C3, as stated, fails: at 25 percent of a 7-token limit the handler
    reports a total of 1 (the truncation of 1.75), where rounding
    gives 2. *)
Lemma calculate_tokens_truncates :
  context_usage_percentage (handler_at 25%float (PInt 7) "") = Some 25%float
  /\ PrimFloat.ltb 0%float 25%float = true
  /\ Cache.get_max_input_tokens Config.settings
       (model_cache (handler_at 25%float (PInt 7) ""))
       (model (handler_at 25%float (PInt 7) "")) = Ok (PInt 7)
  /\ spec_total_tokens 25%float (PInt 7) = Ok 2
  /\ calculate_tokens (handler_at 25%float (PInt 7) "") = Ok (1, 0, 1)
  /\ calculate_tokens (handler_at 25%float (PInt 7) "") <> Ok (Z.max 0 (2 - 0), 0, 2).
Proof.
  repeat split; try (vm_compute; reflexivity).
  intros H. vm_compute in H. discriminate H.
Qed.

(** A percentage that is positive but truncates to 0 leaves the count
    to the tokenizer. *)
Example calculate_tokens_small_percentage :
  calculate_tokens (handler_at 0.25%float (PInt 7) "abc") = Ok (4, 3, 7).
Proof. vm_compute. reflexivity. Qed.

Variable settings : Config.Settings.
Variable parser_state : Type.
Variable count_tokens : string -> Z.
Variable count_message_tokens : list pyval -> Z.
Variable count_tools_tokens : list pyval -> Z.

(** C3 (amended): when a [context_usage_percentage > 0] is known and a
    [max_input_tokens] is resolved from the model cache, the handler
    takes [total = int(percent/100 × max_input_tokens)], the product
    truncated toward zero rather than rounded.  If that total is
    positive, [total_tokens = total] and
    [prompt_tokens = max(0, total − completion_tokens)] with
    [completion_tokens] the count of the accumulated text; if it is not,
    the prompt is counted with the tokenizer and
    [total_tokens = prompt_tokens + completion_tokens]. *)
Theorem calculate_tokens_from_percentage
    (h : handler parser_state) (pct : float) (max_input_tokens : pyval) (total : Z) :
  context_usage_percentage h = Some pct ->
  PrimFloat.ltb 0%float pct = true ->
  Cache.get_max_input_tokens settings (model_cache h) (model h) = Ok max_input_tokens ->
  bind (float_mul (PrimFloat.div pct 100%float) max_input_tokens) float_to_int
    = Ok total ->
  let completion_tokens := count_tokens (full_content h) in
  let counted :=
    count_if_any count_message_tokens (request_messages h)
    + count_if_any count_tools_tokens (request_tools h) in
  (0 < total ->
     _calculate_tokens settings count_tokens count_message_tokens
       count_tools_tokens h
     = Ok (Z.max 0 (total - completion_tokens), completion_tokens, total))
  /\ (total <= 0 ->
        _calculate_tokens settings count_tokens count_message_tokens
          count_tools_tokens h
        = Ok (counted, completion_tokens, counted + completion_tokens)).
Proof.
  intros Hp Hpos Hm Ht completion_tokens counted.
  unfold _calculate_tokens. rewrite Hp, Hpos, Hm.
  unfold total_from_percentage. cbn [bind]. rewrite Ht. cbn [bind].
  split; intros Hsign.
  - apply Z.ltb_lt in Hsign. rewrite Hsign. reflexivity.
  - apply Z.ltb_ge in Hsign. rewrite Hsign. reflexivity.
Qed.

End TokenFacts.

Lemma calculate_tokens_from_percentage_witness :
  Fixtures.calculate_tokens (Fixtures.handler_at 25%float (PInt 200003) "Hello")
    = Ok (49995, 5, 50000)
  /\ Fixtures.calculate_tokens (Fixtures.handler_at 0.25%float (PInt 7) "Hello")
    = Ok (4, 5, 9).
Proof.
  split.
  - apply (proj1 (calculate_tokens_from_percentage Config.settings unit
             Fixtures.count_tokens Fixtures.count_message_tokens
             Fixtures.count_tools_tokens
             (Fixtures.handler_at 25%float (PInt 200003) "Hello")
             25%float (PInt 200003) 50000
             eq_refl eq_refl eq_refl eq_refl)).
    reflexivity.
  - apply (proj2 (calculate_tokens_from_percentage Config.settings unit
             Fixtures.count_tokens Fixtures.count_message_tokens
             Fixtures.count_tools_tokens
             (Fixtures.handler_at 0.25%float (PInt 7) "Hello")
             0.25%float (PInt 7) 0
             eq_refl eq_refl eq_refl eq_refl)).
    discriminate.
Defined.

(** ** The stream handler: what is yielded, and how a run ends *)

Ltac shape := split; [|split; [|split]].

Section StreamFacts.
Import StreamHandler.

Variable settings : Config.Settings.
Variable parser_state : Type.
Variable feed : parser_state -> list Byte.byte -> result (parser_state * list event).
Variable get_tool_calls : parser_state -> list pyval.
Variable parse_bracket_tool_calls : string -> list pyval.
Variable deduplicate_tool_calls : list pyval -> list pyval.
Variable count_tokens : string -> Z.
Variable count_message_tokens : list pyval -> Z.
Variable count_tools_tokens : list pyval -> Z.

Local Abbreviation body :=
  (stream_body settings feed get_tool_calls parse_bracket_tool_calls
     deduplicate_tool_calls count_tokens count_message_tokens count_tools_tokens).
Local Abbreviation run :=
  (stream settings feed get_tool_calls parse_bracket_tool_calls
     deduplicate_tool_calls count_tokens count_message_tokens count_tools_tokens).

(** *** Runs of content chunks *)

Lemma consume_content_run (chunks : list (list Byte.byte)) :
  forall (h : handler parser_state) (first_chunk_sent : bool),
    content_run first_chunk_sent (fst (consume feed chunks h first_chunk_sent)).
Proof.
  induction chunks as [|b chunks IH]; intros h sent; cbn [consume].
  - constructor.
  - destruct (feed (parser h) b) as [[p events]|e]; [|constructor].
    destruct (_process_events events (with_parser p h)) as [content h'].
    destruct (nonempty content) as [s|].
    + specialize (IH h' true).
      destruct (consume feed chunks h' true) as [ys r].
      constructor. exact IH.
    + apply IH.
Qed.

Lemma content_run_sent (l : list chunk) (sent : bool) :
  content_run sent l -> sent = true ->
  Forall (fun c => chunk_rank c = 0%nat /\ marked_first c = false) l.
Proof.
  induction 1 as [sent|sent s l Hl IH]; intros Hs; constructor.
  - subst sent. split; reflexivity.
  - apply IH. reflexivity.
Qed.

Lemma content_run_rank (l : list chunk) (sent : bool) :
  content_run sent l -> Forall (fun c => chunk_rank c = 0%nat) l.
Proof. induction 1; constructor; [reflexivity | assumption]. Qed.

Lemma content_run_sorted (l : list chunk) (sent : bool) :
  content_run sent l -> StronglySorted before l.
Proof.
  induction 1 as [sent|sent s l Hl IH]; constructor; [exact IH|].
  eapply Forall_impl; [exact (content_run_sent l true Hl eq_refl)|].
  intros c [Hr Hf]. unfold before. cbn [chunk_rank is_content]. rewrite Hr.
  split; [lia | split; [lia | intros _; exact Hf]].
Qed.

Lemma content_run_head (l : list chunk) :
  content_run false l ->
  match l with
  | c :: _ => marked_first c = true
  | [] => True
  end.
Proof. inversion 1; subst; [exact I | reflexivity]. Qed.

Lemma content_run_first (s : string) (l : list chunk) :
  content_run true l -> content_run false (ContentChunk s true :: l).
Proof. intros H. exact (content_run_cons false s l H). Qed.

(** *** Tool-call chunks *)

Lemma tool_call_chunks_rank (all_tool_calls : list pyval) :
  Forall (fun c => chunk_rank c = 1%nat) (tool_call_chunks all_tool_calls).
Proof.
  apply Forall_forall. intros c Hc. unfold tool_call_chunks in Hc.
  apply elem_of_lookup_imap in Hc as (i & tc & -> & _). reflexivity.
Qed.

Lemma tool_call_chunks_index (all_tool_calls : list pyval) (i : nat) (tc : pyval) :
  all_tool_calls !! i = Some tc ->
  tool_call_chunks all_tool_calls !! i = Some (ToolCallsChunk [tc] i).
Proof.
  intros H. unfold tool_call_chunks. rewrite list_lookup_imap, H. reflexivity.
Qed.

(** *** The shape of what is yielded *)

Lemma finish_shape (h : handler parser_state) :
  exists ts tail,
    fst (finish settings get_tool_calls parse_bracket_tool_calls
           deduplicate_tool_calls count_tokens count_message_tokens
           count_tools_tokens h) = ts ++ tail
    /\ Forall (fun c => chunk_rank c = 1%nat) ts
    /\ (tail = []
        \/ exists fr p c t cu, tail = [FinalChunk fr p c t cu; DoneChunk]).
Proof.
  unfold finish.
  destruct (_calculate_tokens _ _ _ _ h) as [[[p c] t]|e].
  - eexists _, _. split; [reflexivity|]. split; [apply tool_call_chunks_rank|].
    right. eauto 6.
  - eexists _, []. split; [symmetry; apply app_nil_r|].
    split; [apply tool_call_chunks_rank | left; reflexivity].
Qed.

Lemma stream_body_shape (up : Upstream) (h : handler parser_state) :
  stream_shape (fst (body up h)).
Proof.
  unfold stream_body, stream_shape.
  destruct (_read_first_chunk_with_timeout up) as [[b|]|e].
  2: { left. reflexivity. }
  2: { right. exists [], [], []. shape; [reflexivity | constructor | constructor | left; reflexivity]. }
  destruct (feed (parser h) b) as [[p events]|e].
  2: { right. exists [], [], []. shape; [reflexivity | constructor | constructor | left; reflexivity]. }
  destruct (_process_events events (with_parser p h)) as [first_content h1].
  right.
  destruct (nonempty first_content) as [s|].
  - pose proof (consume_content_run (rest up) h1 true) as Hrun.
    destruct (consume feed (rest up) h1 true) as [ys1 [[h2 sent]|e]]; cbn [fst] in Hrun.
    + destruct (rest_end up) as [e|].
      * exists ([ContentChunk s true] ++ ys1), [], [].
        shape; [rewrite !app_nil_r; reflexivity
                      | apply content_run_first, Hrun | constructor | left; reflexivity].
      * destruct (finish_shape h2) as (ts & tail & Hf & Hts & Htail).
        destruct (finish _ _ _ _ _ _ _ h2) as [ys2 r]. cbn [fst] in Hf. subst ys2.
        exists ([ContentChunk s true] ++ ys1), ts, tail. cbn [fst].
        shape; [reflexivity
                      | apply content_run_first, Hrun | exact Hts | exact Htail].
    + exists ([ContentChunk s true] ++ ys1), [], [].
      shape; [rewrite !app_nil_r; reflexivity
                    | apply content_run_first, Hrun | constructor | left; reflexivity].
  - pose proof (consume_content_run (rest up) h1 false) as Hrun.
    destruct (consume feed (rest up) h1 false) as [ys1 [[h2 sent]|e]]; cbn [fst] in Hrun.
    + destruct (rest_end up) as [e|].
      * exists ys1, [], [].
        shape; [rewrite !app_nil_r; reflexivity
                      | exact Hrun | constructor | left; reflexivity].
      * destruct (finish_shape h2) as (ts & tail & Hf & Hts & Htail).
        destruct (finish _ _ _ _ _ _ _ h2) as [ys2 r]. cbn [fst] in Hf. subst ys2.
        exists ys1, ts, tail. cbn [fst].
        shape; [reflexivity | exact Hrun | exact Hts | exact Htail].
    + exists ys1, [], [].
      shape; [rewrite !app_nil_r; reflexivity
                    | exact Hrun | constructor | left; reflexivity].
Qed.

(** *** From the shape to the order *)

Lemma rank_content (c : chunk) : chunk_rank c = 0%nat <-> is_content c = true.
Proof. destruct c; cbn; split; intros H; try reflexivity; discriminate. Qed.

Lemma not_first_of_rank (c : chunk) :
  (1 <= chunk_rank c)%nat -> marked_first c = false /\ is_content c = false.
Proof. destruct c; cbn; intros H; try (split; reflexivity); lia. Qed.

Lemma tool_chunks_sorted (ts : list chunk) :
  Forall (fun c => chunk_rank c = 1%nat) ts -> StronglySorted before ts.
Proof.
  induction 1 as [|x ts Hx Hts IH]; constructor; [exact IH|].
  eapply Forall_impl; [exact Hts|]. intros y Hy. unfold before.
  rewrite Hx, Hy. split; [lia | split; [lia|]].
  intros Hc. apply rank_content in Hc. lia.
Qed.

Lemma tail_sorted (tail : list chunk) :
  (tail = [] \/ exists fr p c t cu, tail = [FinalChunk fr p c t cu; DoneChunk]) ->
  StronglySorted before tail
  /\ Forall (fun c => (2 <= chunk_rank c)%nat) tail.
Proof.
  intros [-> | (fr & p & c & t & cu & ->)].
  - split; constructor.
  - split.
    + repeat constructor; cbn; lia.
    + repeat constructor; cbn; lia.
Qed.

Lemma shape_sorted (ys : list chunk) :
  stream_shape ys -> StronglySorted before ys.
Proof.
  intros [-> | (cs & ts & tail & -> & Hcs & Hts & Htail)].
  - repeat constructor.
  - destruct (tail_sorted tail Htail) as [Hsorted Hrank].
    pose proof (content_run_rank cs false Hcs) as Hcs0.
    rewrite Forall_forall in Hcs0, Hts, Hrank.
    apply StronglySorted_app. split; [|split].
    + intros x y Hx Hy. specialize (Hcs0 x Hx).
      assert (Hy1 : (1 <= chunk_rank y)%nat).
      { apply elem_of_app in Hy as [Hy|Hy];
          [rewrite (Hts y Hy) | specialize (Hrank y Hy)]; lia. }
      destruct (not_first_of_rank y Hy1) as [Hnf _].
      unfold before. rewrite Hcs0. split; [lia | split; [lia | intros _; exact Hnf]].
    + exact (content_run_sorted cs false Hcs).
    + apply StronglySorted_app. split; [|split].
      * intros x y Hx Hy. specialize (Hts x Hx). specialize (Hrank y Hy).
        destruct (not_first_of_rank y ltac:(lia)) as [Hnf _].
        unfold before. rewrite Hts. split; [lia | split; [lia | intros _; exact Hnf]].
      * apply tool_chunks_sorted, Forall_forall, Hts.
      * exact Hsorted.
Qed.

Lemma shape_head (ys : list chunk) (c : chunk) :
  stream_shape ys -> ys !! 0%nat = Some c -> is_content c = true ->
  marked_first c = true.
Proof.
  intros [-> | (cs & ts & tail & -> & Hcs & Hts & Htail)] H0 Hc.
  - injection H0 as <-. discriminate.
  - pose proof (content_run_head cs Hcs) as Hhead.
    destruct cs as [|c0 cs].
    + destruct (tail_sorted tail Htail) as [_ Hrank].
      rewrite Forall_forall in Hts, Hrank.
      apply list_elem_of_lookup_2 in H0. cbn [app] in H0.
      apply rank_content in Hc.
      apply elem_of_app in H0 as [H0|H0];
        [specialize (Hts c H0) | specialize (Hrank c H0)]; lia.
    + injection H0 as <-. exact Hhead.
Qed.

Lemma sorted_lookup (l : list chunk) (i j : nat) (x y : chunk) :
  StronglySorted before l -> (i < j)%nat ->
  l !! i = Some x -> l !! j = Some y -> before x y.
Proof.
  intros Hs Hij Hi Hj. rewrite <- (take_drop j l) in Hs.
  apply (StronglySorted_app_1_elem_of _ _ _ x y Hs).
  - apply (list_elem_of_lookup_2 _ i). rewrite lookup_take_lt; [exact Hi | exact Hij].
  - apply (list_elem_of_lookup_2 _ 0%nat). rewrite lookup_drop, Nat.add_0_r. exact Hj.
Qed.

Lemma yielded_stream (up : Upstream) (resp : ResponseHandle) (h : handler parser_state) :
  yielded (run up resp h) = fst (body up h).
Proof.
  unfold stream. destruct (stream_body _ _ _ _ _ _ _ _ up h) as [ys [u|e]];
    [reflexivity|]. destruct e; reflexivity.
Qed.

(** C4: in every chunk sequence [stream] yields, all content chunks
    precede all tool-call chunks, these precede the final chunk, and the
    final chunk precedes the terminator (of which, like the final chunk,
    there is at most one); and a content chunk is marked as first exactly
    when no content chunk comes before it.  The statement is by
    positions, so it also holds of any prefix a consumer has taken. *)
Theorem stream_chunks_in_order (up : Upstream) (resp : ResponseHandle)
    (h : handler parser_state) :
  (forall i j ci cj,
     (i < j)%nat ->
     yielded (run up resp h) !! i = Some ci ->
     yielded (run up resp h) !! j = Some cj ->
     (chunk_rank ci <= chunk_rank cj)%nat
     /\ ((2 <= chunk_rank ci)%nat -> (chunk_rank ci < chunk_rank cj)%nat))
  /\ (forall i c,
        yielded (run up resp h) !! i = Some c ->
        is_content c = true ->
        (marked_first c = true
         <-> forall j cj, (j < i)%nat ->
               yielded (run up resp h) !! j = Some cj -> is_content cj = false)).
Proof.
  rewrite yielded_stream.
  pose proof (stream_body_shape up h) as Hshape.
  pose proof (shape_sorted _ Hshape) as Hsorted.
  split.
  - intros i j ci cj Hij Hi Hj.
    destruct (sorted_lookup _ i j ci cj Hsorted Hij Hi Hj) as (H1 & H2 & _).
    split; assumption.
  - intros i c Hi Hc. split.
    + intros Hfirst j cj Hji Hj.
      destruct (sorted_lookup _ j i cj c Hsorted Hji Hj Hi) as (_ & _ & H3).
      destruct (is_content cj); [|reflexivity].
      rewrite (H3 eq_refl) in Hfirst. discriminate.
    + intros Hnone. destruct i as [|i].
      * exact (shape_head _ c Hshape Hi Hc).
      * destruct (lookup_lt_is_Some_2 (fst (body up h)) 0%nat) as [c0 H0].
        { apply lookup_lt_Some in Hi. lia. }
        destruct (sorted_lookup _ 0%nat (S i) c0 c Hsorted ltac:(lia) H0 Hi)
          as (Hle & _ & _).
        apply rank_content in Hc. rewrite Hc in Hle.
        assert (Hc0 : is_content c0 = true) by (apply rank_content; lia).
        rewrite (Hnone 0%nat c0 ltac:(lia) H0) in Hc0. discriminate.
Qed.

(** A run that meets no exception ends with the final chunk and the
    terminator, or is the terminator alone for an empty response. *)
Lemma stream_completes (up : Upstream) (h : handler parser_state) :
  snd (body up h) = Ok tt ->
  fst (body up h) = [DoneChunk]
  \/ exists ys fr p c t cu,
       fst (body up h) = ys ++ [FinalChunk fr p c t cu; DoneChunk].
Proof.
  unfold stream_body.
  destruct (_read_first_chunk_with_timeout up) as [[b|]|e];
    [| left; reflexivity | discriminate].
  destruct (feed (parser h) b) as [[p events]|e]; [|discriminate].
  destruct (_process_events events (with_parser p h)) as [first_content h1].
  destruct (match nonempty first_content with
            | Some s => ([ContentChunk s true], true)
            | None => ([], false)
            end) as [ys0 sent].
  destruct (consume feed (rest up) h1 sent) as [ys1 [[h2 sent']|e]]; [|discriminate].
  destruct (rest_end up) as [e|]; [discriminate|].
  unfold finish.
  destruct (_calculate_tokens _ _ _ _ h2) as [[[p' c'] t']|e]; [|discriminate].
  intros _. right. cbn [fst]. eexists _, _, _, _, _, _.
  rewrite !app_assoc. reflexivity.
Qed.

End StreamFacts.

(** ** The stream handler on concrete responses *)

Section StreamExamples.
Import StreamHandler Fixtures.

Example stream_hello :
  yielded (run_stream up_hello)
    = [ContentChunk "Hel" true; ContentChunk "lo" false;
       FinalChunk "stop" 4 5 9 None; DoneChunk].
Proof. vm_compute. reflexivity. Qed.

Example stream_tool_call :
  yielded (run_stream up_tool)
    = [ContentChunk "[get_weather({})]" true;
       ToolCallsChunk [PStr "[get_weather({})]"] 0;
       FinalChunk "tool_calls" 4 17 21 None; DoneChunk].
Proof. vm_compute. reflexivity. Qed.

Example stream_broken :
  yielded (run_stream up_broken)
    = [ContentChunk "Hel" true; ContentChunk "lo" false]
  /\ logged (run_stream up_broken) = Some (OtherException "ReadError").
Proof. split; vm_compute; reflexivity. Qed.

Lemma stream_chunks_in_order_witness :
  ((chunk_rank (ContentChunk "Hel" true) <= chunk_rank DoneChunk)%nat
   /\ ((2 <= chunk_rank (ContentChunk "Hel" true))%nat ->
       (chunk_rank (ContentChunk "Hel" true) < chunk_rank DoneChunk)%nat))
  /\ (marked_first (ContentChunk "lo" false) = true
      <-> forall j cj, (j < 1)%nat ->
            yielded (run_stream up_hello) !! j = Some cj -> is_content cj = false).
Proof.
  split.
  - apply (proj1 (stream_chunks_in_order Config.settings unit feed get_tool_calls
                    parse_bracket_tool_calls deduplicate_tool_calls
                    count_tokens count_message_tokens count_tools_tokens
                    up_hello {| is_closed := false |} fresh_handler)
             0%nat 3%nat (ContentChunk "Hel" true) DoneChunk).
    + lia.
    + vm_compute. reflexivity.
    + vm_compute. reflexivity.
  - apply (proj2 (stream_chunks_in_order Config.settings unit feed get_tool_calls
                    parse_bracket_tool_calls deduplicate_tool_calls
                    count_tokens count_message_tokens count_tools_tokens
                    up_hello {| is_closed := false |} fresh_handler)
             1%nat (ContentChunk "lo" false)).
    + vm_compute. reflexivity.
    + reflexivity.
Defined.

End StreamExamples.

(* ===================================================================== *)
(** * Further properties *)
(* ===================================================================== *)

(** ** The retry client: bounds, tokens, delays *)

Section RetryMore.
Import HttpClient Trace.

Variable globals : list string.
Variable settings : Config.Settings.
Variable stream : bool.
Variable upstream : nat -> attempt_env.

Lemma refreshes_forced_app (t t' : list effect) :
  refreshes_forced (t ++ t') = (refreshes_forced t + refreshes_forced t')%nat.
Proof. unfold refreshes_forced. rewrite List.filter_app, length_app. reflexivity. Qed.

Lemma sleeps_app (t t' : list effect) :
  sleeps (t ++ t') = (sleeps t + sleeps t')%nat.
Proof. unfold sleeps. rewrite List.filter_app, length_app. reflexivity. Qed.

Ltac attempt_cases :=
  unfold attempt_once, try_body, except, sleep_backoff;
  repeat case_match; simplify_eq; cbn.

Lemma attempt_once_counts (attempt : nat) (env : attempt_env) :
  (requests_issued (fst (attempt_once settings stream attempt env)) <= 1)%nat
  /\ (refreshes_forced (fst (attempt_once settings stream attempt env))
      <= requests_issued (fst (attempt_once settings stream attempt env)))%nat
  /\ (sleeps (fst (attempt_once settings stream attempt env)) <= 1)%nat.
Proof. attempt_cases; lia. Qed.

Lemma retry_loop_counts :
  forall remaining attempt,
    (requests_issued (fst (retry_loop settings stream upstream remaining attempt))
     <= remaining)%nat
    /\ (refreshes_forced (fst (retry_loop settings stream upstream remaining attempt))
        <= requests_issued
             (fst (retry_loop settings stream upstream remaining attempt)))%nat
    /\ (sleeps (fst (retry_loop settings stream upstream remaining attempt))
        <= remaining)%nat.
Proof.
  induction remaining as [|remaining IH]; intros attempt; cbn [retry_loop].
  - cbn. lia.
  - pose proof (attempt_once_counts attempt (upstream attempt)) as H1.
    destruct (attempt_once settings stream attempt (upstream attempt)) as [t [|r|e]];
      cbn [fst] in *; try lia.
    specialize (IH (S attempt)).
    destruct (retry_loop settings stream upstream remaining (S attempt)) as [t' r'].
    cbn [fst] in *.
    rewrite requests_issued_app, refreshes_forced_app, sleeps_app. lia.
Qed.

(** X1: whatever the upstream does, a call never sends more requests
    than its attempt budget, never forces more refreshes than it sent
    requests, and never sleeps more often than the budget. *)
Theorem requests_within_budget :
  (requests_issued (fst (request_with_retry globals settings stream upstream))
   <= Z.to_nat (attempt_budget settings stream))%nat
  /\ (refreshes_forced (fst (request_with_retry globals settings stream upstream))
      <= requests_issued (fst (request_with_retry globals settings stream upstream)))%nat
  /\ (sleeps (fst (request_with_retry globals settings stream upstream))
      <= Z.to_nat (attempt_budget settings stream))%nat.
Proof.
  unfold request_with_retry. fold (attempt_budget settings stream).
  pose proof (retry_loop_counts (Z.to_nat (attempt_budget settings stream)) 0) as H.
  destruct (retry_loop settings stream upstream _ 0) as [t [r|]]; exact H.
Qed.

(** *** Iterations that go on to the next one *)

Lemma retry_loop_continue_run :
  forall k rem attempt,
    (forall i, (attempt <= i < attempt + k)%nat ->
               snd (attempt_once settings stream i (upstream i)) = Continue) ->
    retry_loop settings stream upstream (k + rem) attempt
    = (concat (map (fun i => fst (attempt_once settings stream i (upstream i)))
                   (seq attempt k))
         ++ fst (retry_loop settings stream upstream rem (attempt + k)),
       snd (retry_loop settings stream upstream rem (attempt + k))).
Proof.
  induction k as [|k IH]; intros rem attempt Hc.
  - cbn [Nat.add seq map concat app]. rewrite Nat.add_0_r.
    destruct (retry_loop settings stream upstream rem attempt). reflexivity.
  - cbn [Nat.add retry_loop seq map concat].
    pose proof (Hc attempt ltac:(lia)) as H0.
    destruct (attempt_once settings stream attempt (upstream attempt)) as [t s].
    cbn [snd] in H0. subst s. cbn [fst].
    rewrite (IH rem (S attempt)) by (intros i Hi; apply Hc; lia).
    replace (S attempt + k)%nat with (attempt + S k)%nat by lia.
    rewrite <- app_assoc. reflexivity.
Qed.

Lemma requests_issued_concat (tr : nat -> list effect) (l : list nat) :
  (forall i, i ∈ l -> requests_issued (tr i) = 1%nat) ->
  requests_issued (concat (map tr l)) = length l.
Proof.
  induction l as [|i l IH]; intros H; cbn [map concat length]; [reflexivity|].
  rewrite requests_issued_app, H, IH; [reflexivity | | left].
  intros j Hj. apply H. right. exact Hj.
Qed.

Lemma retryable_continues (attempt : nat) :
  (attempt < 1024)%nat ->
  retryable (upstream attempt) = true ->
  snd (attempt_once settings stream attempt (upstream attempt)) = Continue
  /\ requests_issued (fst (attempt_once settings stream attempt (upstream attempt)))
     = 1%nat.
Proof.
  intros Hlt Hr.
  destruct (attempt_once_retryable settings stream attempt (upstream attempt) Hlt Hr)
    as (t & -> & Hn). split; [reflexivity | exact Hn].
Qed.

Lemma attempt_once_terminal (attempt : nat) (env : attempt_env) token resp :
  token_outcome env = Ok token ->
  send_outcome env = Ok resp ->
  terminal (status_code resp) = true ->
  attempt_once settings stream attempt env
  = ([GetAccessToken; Send token], Return resp).
Proof.
  intros Ht Hs Hterm. unfold terminal in Hterm.
  unfold attempt_once, try_body. rewrite Ht, Hs. cbn zeta.
  destruct (status_code resp =? 200); [reflexivity|].
  destruct (status_code resp =? 403); [discriminate|].
  destruct (status_code resp =? 429); [discriminate|].
  destruct ((500 <=? status_code resp) && (status_code resp <? 600));
    [discriminate | reflexivity].
Qed.

(** X2: the call returns the first response that is neither 403, 429
    nor 5xx, whether 200 or a client error such as 400 or 404, as it is
    and at once: after [k] retried responses it has sent exactly [k + 1]
    requests. *)
Theorem first_terminal_response_returned (k : nat) token resp :
  (k < Z.to_nat (attempt_budget settings stream))%nat ->
  (k <= 1024)%nat ->
  (forall i, (i < k)%nat -> retryable (upstream i) = true) ->
  token_outcome (upstream k) = Ok token ->
  send_outcome (upstream k) = Ok resp ->
  terminal (status_code resp) = true ->
  snd (request_with_retry globals settings stream upstream) = Returned resp
  /\ requests_issued (fst (request_with_retry globals settings stream upstream))
     = S k.
Proof.
  intros Hk Hk' Hretry Ht Hs Hterm.
  unfold request_with_retry. fold (attempt_budget settings stream).
  destruct (Z.to_nat (attempt_budget settings stream)) as [|budget] eqn:Eb; [lia|].
  replace (S budget) with (k + S (budget - k))%nat by lia.
  rewrite retry_loop_continue_run
    by (intros i Hi; apply retryable_continues; [lia | apply Hretry; lia]).
  cbn [Nat.add retry_loop].
  rewrite (attempt_once_terminal k (upstream k) token resp Ht Hs Hterm).
  cbn [fst snd]. split; [reflexivity|].
  rewrite requests_issued_app, requests_issued_concat.
  - rewrite length_seq. cbn. lia.
  - intros i Hi. apply elem_of_seq in Hi.
    apply retryable_continues; [lia | apply Hretry; lia].
Qed.

(** *** Tokens *)

Lemma attempt_once_trace (attempt : nat) (env : attempt_env) :
  fst (attempt_once settings stream attempt env) !! 0%nat = Some GetAccessToken
  /\ length (List.filter is_get_access_token
               (fst (attempt_once settings stream attempt env))) = 1%nat
  /\ forall j token,
       fst (attempt_once settings stream attempt env) !! j = Some (Send token) ->
       j = 1%nat /\ token_outcome env = Ok token.
Proof.
  attempt_cases;
    (split; [reflexivity|]; split; [reflexivity|]; intros j token Hj;
     repeat (destruct j as [|j]; cbn in Hj; simplify_eq; eauto)).
Qed.

Lemma fetches_before_app (t t' : list effect) (j : nat) :
  fetches_before (t ++ t') (length t + j)
  = (length (List.filter is_get_access_token t) + fetches_before t' j)%nat.
Proof.
  unfold fetches_before. rewrite take_app_add.
  rewrite List.filter_app, length_app. reflexivity.
Qed.

Lemma sends_fetched_token_here (remaining attempt : nat) :
  sends_fetched_token upstream (S remaining) attempt
    (fst (attempt_once settings stream attempt (upstream attempt))).
Proof.
  destruct (attempt_once_trace attempt (upstream attempt)) as (H0 & _ & Hsend).
  intros j token Hj. destruct (Hsend j token Hj) as [-> Htok].
  exists 0%nat. split; [reflexivity|]. split; [exact H0|].
  unfold fetches_before. rewrite take_0. cbn [List.filter length].
  rewrite Nat.add_0_r. split; [lia | exact Htok].
Qed.

Lemma retry_loop_tokens :
  forall remaining attempt,
    sends_fetched_token upstream remaining attempt
      (fst (retry_loop settings stream upstream remaining attempt)).
Proof.
  induction remaining as [|remaining IH]; intros attempt; cbn [retry_loop].
  - intros j token Hj. discriminate.
  - pose proof (sends_fetched_token_here remaining attempt) as Hhere.
    destruct (attempt_once_trace attempt (upstream attempt)) as (H0 & Hone & _).
    destruct (attempt_once settings stream attempt (upstream attempt)) as [t [|r|e]];
      cbn [fst] in *; try exact Hhere.
    specialize (IH (S attempt)).
    destruct (retry_loop settings stream upstream remaining (S attempt)) as [t' r'].
    cbn [fst] in *. intros j token Hj.
    destruct (decide (j < length t)%nat) as [Hlt|Hge].
    + rewrite lookup_app_l in Hj by exact Hlt.
      destruct (Hhere j token Hj) as (j' & -> & Hget & Hbound & Htok).
      exists j'. split; [reflexivity|].
      assert (Hsame : fetches_before (t ++ t') j' = fetches_before t j').
      { unfold fetches_before. rewrite take_app_le by lia. reflexivity. }
      rewrite Hsame, lookup_app_l by lia. repeat split; assumption.
    + rewrite lookup_app_r in Hj by lia.
      destruct (IH _ token Hj) as (j' & Heq & Hget & Hbound & Htok).
      exists (length t + j')%nat. split; [lia|].
      rewrite lookup_app_r by lia.
      replace (length t + j' - length t)%nat with j' by lia.
      split; [exact Hget|]. rewrite fetches_before_app, Hone.
      split; [lia|].
      replace (attempt + (1 + fetches_before t' j'))%nat
        with (S attempt + fetches_before t' j')%nat by lia.
      exact Htok.
Qed.

(** X3: every request of a call is sent right after a call of
    [get_access_token] and carries the token that very call returned:
    the request at a position with [a] earlier calls of
    [get_access_token] in the trace belongs to iteration [a] of the loop
    and carries the token the auth manager gave in iteration [a], never
    the token of an earlier iteration. *)
Theorem every_request_fetches_its_token (j : nat) (token : string) :
  fst (request_with_retry globals settings stream upstream) !! j
    = Some (Send token) ->
  exists j',
    j = S j'
    /\ fst (request_with_retry globals settings stream upstream) !! j'
       = Some GetAccessToken
    /\ (fetches_before (fst (request_with_retry globals settings stream upstream)) j'
        < Z.to_nat (attempt_budget settings stream))%nat
    /\ token_outcome
         (upstream
            (fetches_before
               (fst (request_with_retry globals settings stream upstream)) j'))
       = Ok token.
Proof.
  unfold request_with_retry. fold (attempt_budget settings stream).
  pose proof (retry_loop_tokens (Z.to_nat (attempt_budget settings stream)) 0) as H.
  destruct (retry_loop settings stream upstream _ 0) as [t [r|]]; cbn [fst] in *;
    intros Hj; destruct (H j token Hj) as (j' & -> & Hget & Hbound & Htok);
    exists j'; repeat split; assumption.
Qed.

(** *** Delays *)

Lemma sleep_delays_app (t t' : list effect) :
  sleep_delays (t ++ t') = sleep_delays t ++ sleep_delays t'.
Proof. unfold sleep_delays. apply omap_app. Qed.

Lemma backs_off_attempt (attempt : nat) :
  (attempt < 1024)%nat ->
  backs_off (upstream attempt) = true ->
  exists token delay,
    backoff settings attempt = Ok delay
    /\ attempt_once settings stream attempt (upstream attempt)
       = ([GetAccessToken; Send token; Sleep delay], Continue).
Proof.
  intros Hlt Hb. unfold backs_off in Hb.
  destruct (token_outcome (upstream attempt)) as [token|] eqn:Ht; [|discriminate].
  destruct (send_outcome (upstream attempt)) as [resp|] eqn:Hs; [|discriminate].
  destruct (sleep_backoff_ok settings attempt Hlt) as [delay Hd].
  exists token, delay. split.
  - unfold sleep_backoff in Hd.
    destruct (backoff settings attempt); [injection Hd as ->; reflexivity | discriminate].
  - unfold attempt_once, try_body. rewrite Ht, Hs. cbn zeta.
    destruct (status_code resp =? 200) eqn:E200.
    { apply Z.eqb_eq in E200. rewrite E200 in Hb. discriminate. }
    destruct (status_code resp =? 403) eqn:E403.
    { apply Z.eqb_eq in E403. rewrite E403 in Hb. discriminate. }
    destruct (status_code resp =? 429) eqn:E429.
    { rewrite Hd. reflexivity. }
    cbn [orb] in Hb. rewrite Hb, Hd. reflexivity.
Qed.

Lemma backs_off_delays :
  forall k attempt,
    (attempt + k <= 1024)%nat ->
    (forall i, (attempt <= i < attempt + k)%nat -> backs_off (upstream i) = true) ->
    Forall2 (fun delay a => backoff settings a = Ok delay)
      (sleep_delays
         (concat (map (fun i => fst (attempt_once settings stream i (upstream i)))
                      (seq attempt k))))
      (seq attempt k).
Proof.
  induction k as [|k IH]; intros attempt Hb Hall; cbn [seq map concat].
  - constructor.
  - destruct (backs_off_attempt attempt ltac:(lia) (Hall attempt ltac:(lia)))
      as (token & delay & Hd & ->).
    cbn [fst]. rewrite sleep_delays_app. cbn. constructor; [exact Hd|].
    apply IH; [lia | intros i Hi; apply Hall; lia].
Qed.

(** X4: against an upstream that keeps answering 429 or 5xx, the call
    sleeps once after every request, the last one included, and the delay
    after attempt [a] (counted from 0) is
    [base_retry_delay * 2 ** a]. *)
Theorem backoff_schedule :
  attempt_budget settings stream <= 1024 ->
  (forall i, (i < Z.to_nat (attempt_budget settings stream))%nat ->
             backs_off (upstream i) = true) ->
  Forall2 (fun delay a => backoff settings a = Ok delay)
    (sleep_delays (fst (request_with_retry globals settings stream upstream)))
    (seq 0 (Z.to_nat (attempt_budget settings stream))).
Proof.
  intros Hb Hall. unfold request_with_retry. fold (attempt_budget settings stream).
  pose proof (retry_loop_continue_run (Z.to_nat (attempt_budget settings stream)) 0 0)
    as Hrun.
  rewrite Nat.add_0_r in Hrun. rewrite Hrun.
  - cbn [retry_loop fst snd]. rewrite app_nil_r.
    apply backs_off_delays; [lia | intros i Hi; apply Hall; lia].
  - intros i Hi.
    destruct (backs_off_attempt i ltac:(lia) (Hall i ltac:(lia)))
      as (token & delay & _ & ->). reflexivity.
Qed.

(** *** Timeouts *)

Lemma times_out_attempt (attempt : nat) :
  times_out (upstream attempt) = true ->
  exists token,
    token_outcome (upstream attempt) = Ok token
    /\ attempt_once settings stream attempt (upstream attempt)
       = (([GetAccessToken; Send token]
             ++ (if stream then [] else fst (sleep_backoff settings attempt))),
          if stream then Continue
          else match snd (sleep_backoff settings attempt) with
               | Ok s => s
               | Err e => Raise e
               end).
Proof.
  intros H. unfold times_out in H.
  destruct (token_outcome (upstream attempt)) as [token|] eqn:Ht; [|discriminate].
  destruct (send_outcome (upstream attempt)) as [resp|e] eqn:Hs; [discriminate|].
  destruct e; try discriminate.
  exists token. split; [reflexivity|].
  unfold attempt_once, try_body, except. rewrite Ht, Hs.
  destruct stream; [reflexivity|].
  destruct (sleep_backoff settings attempt) as [t [s|e]]; reflexivity.
Qed.

End RetryMore.

Section RetryTimeouts.
Import HttpClient Trace.

Variable globals : list string.
Variable settings : Config.Settings.
Variable upstream : nat -> attempt_env.

Lemma sleeps_concat_zero (tr : nat -> list effect) (l : list nat) :
  (forall i, i ∈ l -> sleeps (tr i) = 0%nat) ->
  sleeps (concat (map tr l)) = 0%nat.
Proof.
  induction l as [|i l IH]; intros H; cbn [map concat]; [reflexivity|].
  rewrite sleeps_app, H, IH; [reflexivity | | left].
  intros j Hj. apply H. right. exact Hj.
Qed.

(** X5: a streaming call whose every attempt times out before the first
    byte retries at once: it sends one request per attempt of
    [first_token_max_retries] and never sleeps, then fails. *)
Theorem stream_timeouts_retry_without_delay :
  (forall i, (i < Z.to_nat (Config.first_token_max_retries settings))%nat ->
             times_out (upstream i) = true) ->
  requests_issued (fst (request_with_retry globals settings true upstream))
    = Z.to_nat (Config.first_token_max_retries settings)
  /\ sleeps (fst (request_with_retry globals settings true upstream)) = 0%nat
  /\ snd (request_with_retry globals settings true upstream)
     = Raised (raise_HTTPException globals 504).
Proof.
  intros Hall. unfold request_with_retry.
  pose proof (retry_loop_continue_run settings true upstream
                (Z.to_nat (Config.first_token_max_retries settings)) 0 0) as Hrun.
  rewrite Nat.add_0_r in Hrun.
  assert (Hone : forall i, (i < Z.to_nat (Config.first_token_max_retries settings))%nat ->
            exists token, attempt_once settings true i (upstream i)
                          = ([GetAccessToken; Send token], Continue)).
  { intros i Hi.
    destruct (times_out_attempt settings true upstream i (Hall i Hi))
      as (token & _ & ->). exists token. reflexivity. }
  rewrite Hrun.
  - cbn [retry_loop fst snd]. rewrite app_nil_r. split; [|split; [|reflexivity]].
    + rewrite requests_issued_concat; [apply length_seq|].
      intros i Hi. apply elem_of_seq in Hi.
      destruct (Hone i ltac:(lia)) as [token ->]. reflexivity.
    + apply sleeps_concat_zero. intros i Hi. apply elem_of_seq in Hi.
      destruct (Hone i ltac:(lia)) as [token ->]. reflexivity.
  - intros i Hi. destruct (Hone i ltac:(lia)) as [token ->]. reflexivity.
Qed.

End RetryTimeouts.

Section RetryForeign.
Import HttpClient Trace.

Variable globals : list string.
Variable settings : Config.Settings.
Variable stream : bool.
Variable upstream : nat -> attempt_env.

Lemma foreign_raises (attempt : nat) (e : exn) :
  foreign e = true ->
  (token_outcome (upstream attempt) = Err e
   \/ (exists token, token_outcome (upstream attempt) = Ok token)
      /\ send_outcome (upstream attempt) = Err e) ->
  snd (attempt_once settings stream attempt (upstream attempt)) = Raise e
  /\ sleeps (fst (attempt_once settings stream attempt (upstream attempt))) = 0%nat.
Proof.
  intros Hf [Ht | [[token Ht] Hs]]; unfold attempt_once, try_body, except.
  - rewrite Ht. destruct e; try discriminate; split; reflexivity.
  - rewrite Ht, Hs. destruct e; try discriminate; split; reflexivity.
Qed.

(** X6: an exception that is neither an [httpx] timeout nor an [httpx]
    request error, raised while fetching the token or sending the
    request, is not retried: it leaves [request_with_retry] as it is, and
    no later attempt is made. *)
Theorem foreign_exception_propagates (k : nat) (e : exn) :
  (k < Z.to_nat (attempt_budget settings stream))%nat ->
  (k <= 1024)%nat ->
  (forall i, (i < k)%nat -> retryable (upstream i) = true) ->
  foreign e = true ->
  (token_outcome (upstream k) = Err e
   \/ (exists token, token_outcome (upstream k) = Ok token)
      /\ send_outcome (upstream k) = Err e) ->
  snd (request_with_retry globals settings stream upstream) = Raised e
  /\ (requests_issued (fst (request_with_retry globals settings stream upstream))
      <= S k)%nat.
Proof.
  intros Hk Hk' Hretry Hf Hraise.
  unfold request_with_retry. fold (attempt_budget settings stream).
  destruct (Z.to_nat (attempt_budget settings stream)) as [|budget] eqn:Eb; [lia|].
  replace (S budget) with (k + S (budget - k))%nat by lia.
  rewrite retry_loop_continue_run
    by (intros i Hi; apply retryable_continues; [lia | apply Hretry; lia]).
  cbn [Nat.add retry_loop].
  destruct (foreign_raises k e Hf Hraise) as [Hr _].
  pose proof (attempt_once_counts settings stream k (upstream k)) as (Hn & _ & _).
  destruct (attempt_once settings stream k (upstream k)) as [t s].
  cbn [snd fst] in *. subst s. cbn [fst snd]. split; [reflexivity|].
  rewrite requests_issued_app, requests_issued_concat.
  - rewrite length_seq. lia.
  - intros i Hi. apply elem_of_seq in Hi.
    apply retryable_continues; [lia | apply Hretry; lia].
Qed.

End RetryForeign.

Section RetryExamples.
Import HttpClient Trace.

Example refreshed_once_trace :
  fst (request_with_retry module_globals Config.settings false refreshed_once)
  = [GetAccessToken; Send "old"; ForceRefresh; GetAccessToken; Send "new"].
Proof. vm_compute. reflexivity. Qed.

Lemma every_request_fetches_its_token_witness :
  exists j',
    4%nat = S j'
    /\ fst (request_with_retry module_globals Config.settings false refreshed_once)
         !! j' = Some GetAccessToken
    /\ (fetches_before
          (fst (request_with_retry module_globals Config.settings false
                  refreshed_once)) j'
        < Z.to_nat (attempt_budget Config.settings false))%nat
    /\ token_outcome
         (refreshed_once
            (fetches_before
               (fst (request_with_retry module_globals Config.settings false
                       refreshed_once)) j'))
       = Ok "new".
Proof.
  apply (every_request_fetches_its_token module_globals Config.settings false
           refreshed_once 4%nat "new").
  vm_compute. reflexivity.
Defined.

Lemma first_terminal_response_returned_witness :
  snd (request_with_retry module_globals Config.settings false (scripted [429; 404]))
    = Returned {| status_code := 404; content := "" |}
  /\ requests_issued
       (fst (request_with_retry module_globals Config.settings false
               (scripted [429; 404]))) = 2%nat.
Proof.
  apply (first_terminal_response_returned module_globals Config.settings false
           (scripted [429; 404]) 1 "token" {| status_code := 404; content := "" |}).
  - vm_compute. lia.
  - lia.
  - intros i Hi. assert (i = 0%nat) as -> by lia. reflexivity.
  - reflexivity.
  - reflexivity.
  - reflexivity.
Defined.

Example default_backoff_delays :
  sleep_delays (fst (request_with_retry module_globals Config.settings false (always 429)))
    = [1%float; 2%float; 4%float].
Proof. vm_compute. reflexivity. Qed.

Lemma backoff_schedule_witness :
  Forall2 (fun delay a => backoff Config.settings a = Ok delay)
    (sleep_delays
       (fst (request_with_retry module_globals Config.settings false (always 503))))
    (seq 0 (Z.to_nat (attempt_budget Config.settings false))).
Proof.
  apply (backoff_schedule module_globals Config.settings false (always 503)).
  - vm_compute. discriminate.
  - intros i _. reflexivity.
Defined.

Lemma stream_timeouts_retry_without_delay_witness :
  requests_issued
    (fst (request_with_retry module_globals Config.settings true always_timeout))
    = Z.to_nat (Config.first_token_max_retries Config.settings)
  /\ sleeps (fst (request_with_retry module_globals Config.settings true always_timeout))
     = 0%nat
  /\ snd (request_with_retry module_globals Config.settings true always_timeout)
     = Raised (raise_HTTPException module_globals 504).
Proof.
  apply (stream_timeouts_retry_without_delay module_globals Config.settings
           always_timeout).
  intros i _. reflexivity.
Defined.

Lemma foreign_exception_propagates_witness :
  snd (request_with_retry module_globals Config.settings false
         (raising_at 1 (OtherException "ssl.SSLError")))
    = Raised (OtherException "ssl.SSLError")
  /\ (requests_issued
        (fst (request_with_retry module_globals Config.settings false
                (raising_at 1 (OtherException "ssl.SSLError")))) <= 2)%nat.
Proof.
  apply (foreign_exception_propagates module_globals Config.settings false
           (raising_at 1 (OtherException "ssl.SSLError")) 1
           (OtherException "ssl.SSLError")).
  - vm_compute. lia.
  - lia.
  - intros i Hi. assert (i = 0%nat) as -> by lia. reflexivity.
  - reflexivity.
  - right. split; [exists "token"|]; reflexivity.
Defined.

End RetryExamples.

(** ** The shared client *)

Section ClientPoolFacts.
Import ClientPool.

Lemma get_client_open (t : float) (m : GlobalHTTPClientManager) :
  is_closed (fst (get_client t m)) = false
  /\ _client (snd (get_client t m)) = Some (fst (get_client t m)).
Proof.
  unfold get_client, create.
  destruct (_client m) as [c|] eqn:Hc; [|split; reflexivity].
  destruct (is_closed c) eqn:Hcl; cbn [fst snd]; split; try reflexivity; assumption.
Qed.

Lemma get_client_reuses (t : float) (m : GlobalHTTPClientManager) (c : AsyncClient) :
  _client m = Some c -> is_closed c = false -> get_client t m = (c, m).
Proof. intros Hc Ho. unfold get_client. rewrite Hc, Ho. reflexivity. Qed.

Lemma get_clients_reuse (ts : list float) (m : GlobalHTTPClientManager)
    (c : AsyncClient) :
  _client m = Some c -> is_closed c = false ->
  get_clients ts m = (replicate (length ts) c, m).
Proof.
  intros Hc Ho. induction ts as [|t ts IH]; cbn [get_clients]; [reflexivity|].
  rewrite (get_client_reuses t m c Hc Ho), IH. reflexivity.
Qed.

(** X7: once the pool has built a client, every later [get_client] call
    returns that same open client whatever timeout it asks for: the
    timeout of the call that built the client is the one all callers get,
    until the pool is closed. *)
Theorem pool_keeps_first_timeout (t0 : float) (ts : list float)
    (m : GlobalHTTPClientManager) :
  (_client m = None \/ exists c, _client m = Some c /\ is_closed c = true) ->
  fst (get_clients (t0 :: ts) m)
  = replicate (S (length ts))
      {| timeout := t0; is_closed := false; serial := built m |}.
Proof.
  intros Hm. cbn [get_clients].
  assert (Hnew : get_client t0 m = create t0 m).
  { unfold get_client. destruct Hm as [-> | (c & -> & ->)]; reflexivity. }
  rewrite Hnew. unfold create. cbn zeta.
  rewrite (get_clients_reuse ts
             {| _client := Some {| timeout := t0; is_closed := false;
                                   serial := built m |};
                built := S (built m) |}
             {| timeout := t0; is_closed := false; serial := built m |}
             eq_refl eq_refl).
  reflexivity.
Qed.

Lemma pool_keeps_first_timeout_witness :
  fst (get_clients
         [request_timeout Config.settings false None;
          request_timeout Config.settings true None;
          request_timeout Config.settings true (Some 5%float)] init)
  = replicate 3 {| timeout := 300%float; is_closed := false; serial := 0 |}.
Proof.
  apply (pool_keeps_first_timeout 300%float [15%float; 5%float] init).
  left. reflexivity.
Defined.

(** X8: after [close], the next [get_client] builds a new open client
    with the timeout it is asked for, and the pool then holds that
    client; a [close] on a pool without an open client changes nothing. *)
Theorem pool_rebuilds_after_close (t : float) (m : GlobalHTTPClientManager) :
  get_client t (close m)
  = ({| timeout := t; is_closed := false; serial := built m |},
     {| _client := Some {| timeout := t; is_closed := false; serial := built m |};
        built := S (built m) |})
  /\ ((_client m = None \/ exists c, _client m = Some c /\ is_closed c = true) ->
      close m = m).
Proof.
  split.
  - unfold close, get_client, create.
    destruct (_client m) as [c|] eqn:Hc.
    + destruct (is_closed c) eqn:Hcl; cbn [negb _client built is_closed].
      * rewrite Hc, Hcl. reflexivity.
      * reflexivity.
    + rewrite Hc. reflexivity.
  - unfold close. intros [-> | (c & -> & ->)]; reflexivity.
Qed.

End ClientPoolFacts.

(** ** The stream handler: events, text and tool calls *)

Section EventFacts.
Import StreamHandler StreamMore.

Lemma string_app_nil_r (s : string) : s +:+ "" = s.
Proof. induction s as [|a s IH]; [reflexivity|]. change (String a (s +:+ "") = String a s). rewrite IH. reflexivity. Qed.

Lemma string_app_assoc (s1 s2 s3 : string) :
  (s1 +:+ s2) +:+ s3 = s1 +:+ (s2 +:+ s3).
Proof.
  induction s1 as [|a s1 IH]; [reflexivity|].
  change (String a ((s1 +:+ s2) +:+ s3) = String a (s1 +:+ (s2 +:+ s3))).
  rewrite IH. reflexivity.
Qed.

Lemma join_app (l1 l2 : list string) : join (l1 ++ l2) = join l1 +:+ join l2.
Proof.
  induction l1 as [|s l1 IH]; cbn; [reflexivity|].
  fold (join (l1 ++ l2)). fold (join l1).
  rewrite IH, string_app_assoc. reflexivity.
Qed.

Variable parser_state : Type.

Lemma after_events_nil (h : handler parser_state) : after_events h [] = h.
Proof. destruct h. unfold after_events. cbn. rewrite string_app_nil_r. reflexivity. Qed.

Ltac events_cons ev events :=
  destruct ev;
  [ change (contents (EContent ?d :: events)) with (d :: contents events)
  | change (contents (EUsage ?d :: events)) with (contents events)
  | change (contents (EContextUsage ?d :: events)) with (contents events)
  | change (contents (EOther ?d :: events)) with (contents events) ];
  [ change (usages (EContent ?d :: events)) with (usages events)
  | change (usages (EUsage ?d :: events)) with (d :: usages events)
  | change (usages (EContextUsage ?d :: events)) with (usages events)
  | change (usages (EOther ?d :: events)) with (usages events) ];
  [ change (context_usages (EContent ?d :: events)) with (context_usages events)
  | change (context_usages (EUsage ?d :: events)) with (context_usages events)
  | change (context_usages (EContextUsage ?d :: events)) with (d :: context_usages events)
  | change (context_usages (EOther ?d :: events)) with (context_usages events) ].

Lemma after_events_cons (ev : event) (events : list event) (h : handler parser_state) :
  after_events (snd (process_event (None, h) ev)) events = after_events h (ev :: events).
Proof.
  unfold after_events. events_cons ev events;
    cbn [process_event snd full_content metering_data context_usage_percentage model
         model_cache request_messages request_tools parser].
  - f_equal. change (join (data :: contents events))
      with (data +:+ join (contents events)). apply string_app_assoc.
  - f_equal. rewrite last_cons. destruct (last (usages events)); reflexivity.
  - f_equal. rewrite last_cons. destruct (last (context_usages events)); reflexivity.
  - reflexivity.
Qed.

Lemma process_events_fold (events : list event) :
  forall (c : option string) (h : handler parser_state),
    foldl process_event (c, h) events
    = (match last (contents events) with Some d => Some d | None => c end,
       after_events h events).
Proof.
  induction events as [|ev events IH]; intros c h.
  - cbn [foldl]. rewrite after_events_nil. reflexivity.
  - cbn [foldl]. rewrite <- after_events_cons.
    destruct ev as [d|u|p|ty]; cbn [process_event snd]; rewrite IH.
    + change (contents (EContent d :: events)) with (d :: contents events).
      rewrite last_cons. destruct (last (contents events)); reflexivity.
    + reflexivity.
    + reflexivity.
    + reflexivity.
Qed.

(** X9: [_process_events] appends the text of every content event to
    [full_content], in order, but returns only the text of the last one;
    of several usage or context-usage events the last one is kept, and
    with none the earlier value stays. *)
Theorem process_events_accumulates (events : list event) (h : handler parser_state) :
  fst (_process_events events h) = last (contents events)
  /\ full_content (snd (_process_events events h))
     = full_content h +:+ join (contents events)
  /\ metering_data (snd (_process_events events h))
     = match last (usages events) with
       | Some u => Some u
       | None => metering_data h
       end
  /\ context_usage_percentage (snd (_process_events events h))
     = match last (context_usages events) with
       | Some p => Some p
       | None => context_usage_percentage h
       end.
Proof.
  unfold _process_events. rewrite process_events_fold. cbn [fst snd].
  split; [destruct (last (contents events)); reflexivity|].
  repeat split.
Qed.

End EventFacts.

Section CompleteRuns.
Import StreamHandler StreamMore.

Variable settings : Config.Settings.
Variable parser_state : Type.
Variable feed : parser_state -> list Byte.byte -> result (parser_state * list event).
Variable get_tool_calls : parser_state -> list pyval.
Variable parse_bracket_tool_calls : string -> list pyval.
Variable deduplicate_tool_calls : list pyval -> list pyval.
Variable count_tokens : string -> Z.
Variable count_message_tokens : list pyval -> Z.
Variable count_tools_tokens : list pyval -> Z.

Local Abbreviation body :=
  (stream_body settings feed get_tool_calls parse_bracket_tool_calls
     deduplicate_tool_calls count_tokens count_message_tokens count_tools_tokens).
Local Abbreviation tokens :=
  (_calculate_tokens settings count_tokens count_message_tokens count_tools_tokens).

Lemma contents_app (e1 e2 : list event) :
  contents (e1 ++ e2) = contents e1 ++ contents e2.
Proof. apply omap_app. Qed.

Lemma with_parser_same (h : handler parser_state) : with_parser (parser h) h = h.
Proof. destruct h. reflexivity. Qed.

Lemma after_events_app (h : handler parser_state) (e1 e2 : list event) :
  after_events (after_events h e1) e2 = after_events h (e1 ++ e2).
Proof.
  unfold after_events, usages, context_usages.
  cbn [full_content metering_data context_usage_percentage model model_cache
       request_messages request_tools parser].
  rewrite contents_app, join_app, string_app_assoc, !omap_app, !last_app.
  f_equal.
  - destruct (last (omap _ e2)); reflexivity.
  - destruct (last (omap _ e2)); reflexivity.
Qed.

Lemma nonempty_Some (c : option string) (s : string) :
  nonempty c = Some s -> c = Some s.
Proof.
  unfold nonempty. destruct c as [s'|]; [|discriminate].
  destruct (String.eqb s' ""); [discriminate|]. intros [= ->]. reflexivity.
Qed.

Lemma nonempty_None (c : option string) :
  nonempty c = None -> c = None \/ c = Some "".
Proof.
  unfold nonempty. destruct c as [s'|]; [|left; reflexivity].
  destruct (String.eqb_spec s' ""); [subst; right; reflexivity | discriminate].
Qed.

Lemma last_single (l : list string) :
  (length l <= 1)%nat -> join l = default "" (last l).
Proof.
  destruct l as [|s [|s' l]]; cbn [length]; intros H; try lia.
  - reflexivity.
  - cbn. apply string_app_nil_r.
Qed.

Lemma last_content_match (l : list string) :
  match last l with Some d => Some d | None => None end = last l.
Proof. destruct (last l); reflexivity. Qed.

Lemma consume_feed_all (chunks : list (list Byte.byte)) :
  forall (h : handler parser_state) (sent : bool),
    match feed_all feed (parser h) chunks with
    | Ok (p', events) =>
        exists ys sent2,
          consume feed chunks h sent
            = (ys, Ok (with_parser p' (after_events h events), sent2))
          /\ Forall (fun c => is_content c = true) ys
          /\ (one_content_per_feed feed ->
              join (chunk_texts ys) = join (contents events))
    | Err e => exists ys, consume feed chunks h sent = (ys, Err e)
    end.
Proof.
  induction chunks as [|b chunks IH]; intros h sent; cbn [consume feed_all].
  - exists [], sent. rewrite after_events_nil, with_parser_same.
    split; [reflexivity|]. split; [constructor | reflexivity].
  - destruct (feed (parser h) b) as [[p events]|e] eqn:Hfeed;
      [|exists []; reflexivity].
    unfold _process_events. rewrite process_events_fold, last_content_match.
    assert (Hh : forall p' events',
              with_parser p' (after_events (after_events (with_parser p h) events) events')
              = with_parser p' (after_events h (events ++ events'))).
    { intros p' events'. rewrite after_events_app. destruct h. reflexivity. }
    destruct (nonempty (last (contents events))) as [s|] eqn:Hne.
    + specialize (IH (after_events (with_parser p h) events) true).
      change (parser (after_events (with_parser p h) events)) with p in IH.
      destruct (feed_all feed p chunks) as [[p' events']|e].
      * destruct IH as (ys & sent2 & -> & Hall & Htxt).
        exists (ContentChunk s (negb sent) :: ys), sent2. rewrite Hh.
        split; [reflexivity|]. split; [constructor; [reflexivity | exact Hall]|].
        intros Hone.
        change (chunk_texts (ContentChunk s (negb sent) :: ys))
          with (s :: chunk_texts ys).
        change (join (s :: chunk_texts ys)) with (s +:+ join (chunk_texts ys)).
        rewrite contents_app, join_app, (Htxt Hone).
        rewrite (last_single _ (Hone _ _ _ _ Hfeed)).
        apply nonempty_Some in Hne. rewrite Hne. reflexivity.
      * destruct IH as (ys & ->). eexists. reflexivity.
    + specialize (IH (after_events (with_parser p h) events) sent).
      change (parser (after_events (with_parser p h) events)) with p in IH.
      destruct (feed_all feed p chunks) as [[p' events']|e].
      * destruct IH as (ys & sent2 & -> & Hall & Htxt).
        exists ys, sent2. rewrite Hh.
        split; [reflexivity|]. split; [exact Hall|].
        intros Hone. rewrite contents_app, join_app, (Htxt Hone).
        rewrite (last_single _ (Hone _ _ _ _ Hfeed)).
        apply nonempty_None in Hne. destruct Hne as [-> | ->]; reflexivity.
      * destruct IH as (ys & ->). eexists. reflexivity.
Qed.

(** A run that reads the upstream to its end, spelled out. *)
Lemma run_to_end (up : Upstream) (h : handler parser_state) b p' events :
  first up = FirstBytes b ->
  rest_end up = None ->
  feed_all feed (parser h) (b :: rest up) = Ok (p', events) ->
  exists cs,
    body up h
    = (cs
       ++ tool_call_chunks
            (deduplicate_tool_calls
               (get_tool_calls p'
                ++ parse_bracket_tool_calls
                     (full_content h +:+ join (contents events))))
       ++ match tokens (with_parser p' (after_events h events)) with
          | Ok (pt, ct, tt') =>
              [FinalChunk
                 (finish_reason_of
                    (deduplicate_tool_calls
                       (get_tool_calls p'
                        ++ parse_bracket_tool_calls
                             (full_content h +:+ join (contents events)))))
                 pt ct tt'
                 (credits_used (metering_data (after_events h events)));
               DoneChunk]
          | Err _ => []
          end,
       match tokens (with_parser p' (after_events h events)) with
       | Ok _ => Ok tt
       | Err e => Err e
       end)
    /\ Forall (fun c => is_content c = true) cs
    /\ (one_content_per_feed feed -> join (chunk_texts cs) = join (contents events)).
Proof.
  intros Hfirst Hend Hfeed.
  unfold stream_body, _read_first_chunk_with_timeout. rewrite Hfirst, Hend.
  cbn [feed_all] in Hfeed.
  destruct (feed (parser h) b) as [[p ev0]|e] eqn:Hf0; [|discriminate].
  unfold _process_events. rewrite process_events_fold, last_content_match.
  assert (Hh : with_parser p' (after_events (after_events (with_parser p h) ev0)
                                 (drop (length ev0) events))
               = with_parser p' (after_events h (ev0 ++ drop (length ev0) events))).
  { rewrite after_events_app. destruct h. reflexivity. }
  assert (Hcases : exists ys0 sent0,
            match nonempty (last (contents ev0)) with
            | Some s => ([ContentChunk s true], true)
            | None => ([], false)
            end = (ys0, sent0)
            /\ Forall (fun c => is_content c = true) ys0
            /\ (one_content_per_feed feed ->
                join (chunk_texts ys0) = join (contents ev0))).
  { destruct (nonempty (last (contents ev0))) as [s|] eqn:Hne.
    - exists [ContentChunk s true], true. split; [reflexivity|].
      split; [repeat constructor|]. intros Hone.
      rewrite (last_single _ (Hone _ _ _ _ Hf0)).
      apply nonempty_Some in Hne. rewrite Hne. cbn. apply string_app_nil_r.
    - exists [], false. split; [reflexivity|]. split; [constructor|].
      intros Hone. rewrite (last_single _ (Hone _ _ _ _ Hf0)).
      apply nonempty_None in Hne. destruct Hne as [-> | ->]; reflexivity. }
  destruct Hcases as (ys0 & sent0 & -> & Hall0 & Htxt0).
  pose proof (consume_feed_all (rest up) (after_events (with_parser p h) ev0) sent0)
    as Hcons.
  change (parser (after_events (with_parser p h) ev0)) with p in Hcons.
  destruct (feed_all feed p (rest up)) as [[p'' ev1]|e]; [|discriminate].
  injection Hfeed as -> <-.
  rewrite drop_app_length in Hh.
  destruct Hcons as (ys1 & sent2 & -> & Hall1 & Htxt1).
  rewrite Hh. unfold finish.
  change (full_content (with_parser p' (after_events h (ev0 ++ ev1))))
    with (full_content h +:+ join (contents (ev0 ++ ev1))).
  change (parser (with_parser p' (after_events h (ev0 ++ ev1)))) with p'.
  exists (ys0 ++ ys1). split; [|split].
  - destruct (tokens (with_parser p' (after_events h (ev0 ++ ev1))))
      as [[[pt ct] tt']|e].
    + rewrite <- !app_assoc. reflexivity.
    + rewrite app_nil_r, <- !app_assoc. reflexivity.
  - apply Forall_app; split; assumption.
  - intros Hone. unfold chunk_texts. rewrite omap_app.
    fold (chunk_texts ys0). fold (chunk_texts ys1).
    rewrite join_app, contents_app, join_app, (Htxt0 Hone), (Htxt1 Hone).
    reflexivity.
Qed.

Lemma complete_run (up : Upstream) (h : handler parser_state) b p' events pt ct tt' :
  first up = FirstBytes b ->
  rest_end up = None ->
  feed_all feed (parser h) (b :: rest up) = Ok (p', events) ->
  tokens (with_parser p' (after_events h events)) = Ok (pt, ct, tt') ->
  exists cs,
    body up h
    = (cs
       ++ tool_call_chunks
            (deduplicate_tool_calls
               (get_tool_calls p'
                ++ parse_bracket_tool_calls
                     (full_content h +:+ join (contents events))))
       ++ [FinalChunk
             (finish_reason_of
                (deduplicate_tool_calls
                   (get_tool_calls p'
                    ++ parse_bracket_tool_calls
                         (full_content h +:+ join (contents events)))))
             pt ct tt'
             (credits_used (metering_data (after_events h events)));
           DoneChunk],
       Ok tt)
    /\ Forall (fun c => is_content c = true) cs
    /\ (one_content_per_feed feed -> join (chunk_texts cs) = join (contents events)).
Proof.
  intros Hfirst Hend Hfeed Htok.
  destruct (run_to_end up h b p' events Hfirst Hend Hfeed) as (cs & Hbody & Hrest).
  rewrite Htok in Hbody. exists cs. split; [exact Hbody | exact Hrest].
Qed.

Lemma calculate_tokens_completion (h : handler parser_state) pt ct tt' :
  tokens h = Ok (pt, ct, tt') -> ct = count_tokens (full_content h).
Proof.
  unfold _calculate_tokens.
  destruct (match context_usage_percentage h with
            | Some pct =>
                if PrimFloat.ltb 0 pct
                then bind (Cache.get_max_input_tokens settings (model_cache h) (model h))
                          (total_from_percentage pct)
                else Ok 0
            | None => Ok 0
            end) as [total|e]; cbn [bind]; [|discriminate].
  destruct (0 <? total); intros [= _ <- _]; reflexivity.
Qed.

Lemma chunk_texts_numbered (calls : list pyval) :
  forall g : nat -> nat,
    chunk_texts (imap (fun idx tc => ToolCallsChunk [tc] (g idx)) calls) = [].
Proof.
  induction calls as [|tc calls IH]; intros g; [reflexivity|].
  rewrite imap_cons. exact (IH (fun idx => g (S idx))).
Qed.

Lemma chunk_texts_tool_calls (calls : list pyval) :
  chunk_texts (tool_call_chunks calls) = [].
Proof. exact (chunk_texts_numbered calls (fun idx => idx)). Qed.

(** X10: a run that reads the upstream to its end yields, in this order,
    its content chunks, one tool-call chunk per tool call left by
    [deduplicate_tool_calls] (the parser's calls first, then the ones
    bracket-parsed from the whole text), numbered from 0, the final chunk
    and the terminator.  The final chunk's finish reason is
    ["tool_calls"] exactly when there is a tool call, and its
    completion count is that of all content text the parser produced. *)
Theorem complete_run_layout (up : Upstream) (h : handler parser_state)
    b p' events pt ct tt' :
  first up = FirstBytes b ->
  rest_end up = None ->
  feed_all feed (parser h) (b :: rest up) = Ok (p', events) ->
  tokens (with_parser p' (after_events h events)) = Ok (pt, ct, tt') ->
  let calls :=
    deduplicate_tool_calls
      (get_tool_calls p'
       ++ parse_bracket_tool_calls (full_content h +:+ join (contents events))) in
  exists cs cu,
    body up h
    = (cs
       ++ imap (fun idx tc => ToolCallsChunk [tc] idx) calls
       ++ [FinalChunk (if decide (calls = []) then "stop" else "tool_calls")
             pt (count_tokens (full_content h +:+ join (contents events))) tt' cu;
           DoneChunk],
       Ok tt)
    /\ Forall (fun c => is_content c = true) cs.
Proof.
  intros Hfirst Hend Hfeed Htok calls.
  destruct (complete_run up h b p' events pt ct tt' Hfirst Hend Hfeed Htok)
    as (cs & Hbody & Hall & _).
  exists cs, (credits_used (metering_data (after_events h events))).
  split; [|exact Hall]. rewrite Hbody.
  rewrite (calculate_tokens_completion _ _ _ _ Htok).
  fold calls. unfold finish_reason_of, tool_call_chunks.
  destruct calls; reflexivity.
Qed.

(** X11: with a parser that returns at most one content event per
    [feed], a run that reads the upstream to its end streams every piece
    of text it accumulates: the texts of its content chunks, put together,
    are the text its completion count is taken of. *)
Theorem streamed_text_is_counted_text (up : Upstream) (h : handler parser_state)
    b p' events pt ct tt' :
  one_content_per_feed feed ->
  full_content h = "" ->
  first up = FirstBytes b ->
  rest_end up = None ->
  feed_all feed (parser h) (b :: rest up) = Ok (p', events) ->
  tokens (with_parser p' (after_events h events)) = Ok (pt, ct, tt') ->
  join (chunk_texts (fst (body up h))) = join (contents events)
  /\ ct = count_tokens (join (chunk_texts (fst (body up h)))).
Proof.
  intros Hone Hempty Hfirst Hend Hfeed Htok.
  destruct (complete_run up h b p' events pt ct tt' Hfirst Hend Hfeed Htok)
    as (cs & Hbody & _ & Htxt).
  assert (Hjoin : join (chunk_texts (fst (body up h))) = join (contents events)).
  { rewrite Hbody. cbn [fst]. unfold chunk_texts. rewrite !omap_app.
    fold (chunk_texts cs). fold (chunk_texts (tool_call_chunks
      (deduplicate_tool_calls (get_tool_calls p' ++ parse_bracket_tool_calls
         (full_content h +:+ join (contents events)))))).
    rewrite chunk_texts_tool_calls. cbn [omap list_omap app].
    rewrite app_nil_r. exact (Htxt Hone). }
  split; [exact Hjoin|]. rewrite Hjoin.
  rewrite (calculate_tokens_completion _ _ _ _ Htok).
  change (full_content (with_parser p' (after_events h events)))
    with (full_content h +:+ join (contents events)).
  rewrite Hempty. reflexivity.
Qed.

Lemma count_if_any_nonneg (count : list pyval -> Z) (l : option (list pyval)) :
  (forall l', 0 <= count l') -> 0 <= count_if_any count l.
Proof. intros H. destruct l as [[|x xs]|]; cbn; [lia | apply H | lia]. Qed.

(** X12: whenever [_calculate_tokens] returns, with a tokenizer whose
    counts are not negative, its completion count is that of the
    accumulated text, [0 <= prompt_tokens <= total_tokens], and
    [total_tokens = prompt_tokens + completion_tokens] unless the total
    taken from the context-usage percentage is smaller than the
    completion count, in which case [prompt_tokens] is 0. *)
Theorem calculate_tokens_bounds (h : handler parser_state) pt ct tt' :
  (forall s, 0 <= count_tokens s) ->
  (forall l, 0 <= count_message_tokens l) ->
  (forall l, 0 <= count_tools_tokens l) ->
  tokens h = Ok (pt, ct, tt') ->
  ct = count_tokens (full_content h)
  /\ 0 <= pt <= tt'
  /\ (tt' = pt + ct \/ (pt = 0 /\ tt' < ct)).
Proof.
  intros Hc Hm Ht. unfold _calculate_tokens.
  destruct (match context_usage_percentage h with
            | Some pct =>
                if PrimFloat.ltb 0 pct
                then bind (Cache.get_max_input_tokens settings (model_cache h) (model h))
                          (total_from_percentage pct)
                else Ok 0
            | None => Ok 0
            end) as [total|e]; cbn [bind]; [|discriminate].
  pose proof (Hc (full_content h)) as Hc0.
  pose proof (count_if_any_nonneg count_message_tokens (request_messages h) Hm) as Hm0.
  pose proof (count_if_any_nonneg count_tools_tokens (request_tools h) Ht) as Ht0.
  destruct (Z.ltb_spec 0 total); intros [= <- <- <-]; lia.
Qed.

(** X13: if the token calculation raises at the end of the upstream
    (a cached limit that is not a number, say), what has been yielded
    stays yielded, content and tool-call chunks, but the run has neither
    final chunk nor terminator, and the exception is the run's result. *)
Theorem token_failure_drops_final_chunk (up : Upstream) (h : handler parser_state)
    b p' events e :
  first up = FirstBytes b ->
  rest_end up = None ->
  feed_all feed (parser h) (b :: rest up) = Ok (p', events) ->
  tokens (with_parser p' (after_events h events)) = Err e ->
  snd (body up h) = Err e
  /\ Forall (fun c => (chunk_rank c <= 1)%nat) (fst (body up h)).
Proof.
  intros Hfirst Hend Hfeed Htok.
  destruct (run_to_end up h b p' events Hfirst Hend Hfeed) as (cs & Hbody & Hall & _).
  rewrite Htok in Hbody. rewrite Hbody. cbn [fst snd]. split; [reflexivity|].
  rewrite app_nil_r. apply Forall_app. split.
  - eapply Forall_impl; [exact Hall|]. intros c Hc.
    destruct c; try discriminate. cbn. lia.
  - apply Forall_forall. intros c Hc. unfold tool_call_chunks in Hc.
    apply elem_of_lookup_imap in Hc as (i & tc & -> & _). cbn. lia.
Qed.

End CompleteRuns.

Section StreamMoreExamples.
Import StreamHandler StreamMore Fixtures Fixtures2.

Lemma fixture_feed_one_content : one_content_per_feed feed.
Proof. intros p b p' events [= _ <-]. cbn. lia. Qed.

Lemma complete_run_layout_witness :
  exists cs cu,
    stream_body Config.settings feed get_tool_calls parse_bracket_tool_calls
      deduplicate_tool_calls count_tokens count_message_tokens count_tools_tokens
      up_tool fresh_handler
    = (cs
       ++ [ToolCallsChunk [PStr "[get_weather({})]"] 0]
       ++ [FinalChunk "tool_calls" 4 17 21 cu; DoneChunk],
       Ok tt)
    /\ Forall (fun c => is_content c = true) cs.
Proof.
  exact (complete_run_layout Config.settings unit feed get_tool_calls
           parse_bracket_tool_calls deduplicate_tool_calls
           count_tokens count_message_tokens count_tools_tokens
           up_tool fresh_handler (bytes_of "[get_weather({})]") tt
           [EContent "[get_weather({})]"] 4 17 21
           eq_refl eq_refl eq_refl eq_refl).
Defined.

Lemma streamed_text_is_counted_text_witness :
  StreamMore.join
    (chunk_texts
       (fst (stream_body Config.settings feed get_tool_calls parse_bracket_tool_calls
               deduplicate_tool_calls count_tokens count_message_tokens
               count_tools_tokens up_hello fresh_handler)))
  = StreamMore.join (contents [EContent "Hel"; EContent "lo"])
  /\ 5 = count_tokens
           (StreamMore.join
              (chunk_texts
                 (fst (stream_body Config.settings feed get_tool_calls
                         parse_bracket_tool_calls deduplicate_tool_calls count_tokens
                         count_message_tokens count_tools_tokens up_hello
                         fresh_handler)))).
Proof.
  exact (streamed_text_is_counted_text Config.settings unit feed get_tool_calls
           parse_bracket_tool_calls deduplicate_tool_calls
           count_tokens count_message_tokens count_tools_tokens
           up_hello fresh_handler (bytes_of "Hel") tt
           [EContent "Hel"; EContent "lo"] 4 5 9
           fixture_feed_one_content eq_refl eq_refl eq_refl eq_refl eq_refl).
Defined.

Lemma calculate_tokens_bounds_witness :
  5 = count_tokens (full_content (handler_at 25%float (PInt 200003) "Hello"))
  /\ 0 <= 49995 <= 50000
  /\ (50000 = 49995 + 5 \/ (49995 = 0 /\ 50000 < 5)).
Proof.
  apply (calculate_tokens_bounds Config.settings unit
           count_tokens count_message_tokens count_tools_tokens
           (handler_at 25%float (PInt 200003) "Hello") 49995 5 50000).
  - intros s. unfold count_tokens. lia.
  - intros l. unfold count_message_tokens. lia.
  - intros l. unfold count_tools_tokens. lia.
  - vm_compute. reflexivity.
Defined.

Lemma token_failure_drops_final_chunk_witness :
  snd (stream_body Config.settings feed_pct get_tool_calls parse_bracket_tool_calls
         deduplicate_tool_calls count_tokens count_message_tokens count_tools_tokens
         up_with_usage handler_text_limit) = Err TypeError
  /\ Forall (fun c => (chunk_rank c <= 1)%nat)
       (fst (stream_body Config.settings feed_pct get_tool_calls
               parse_bracket_tool_calls deduplicate_tool_calls count_tokens
               count_message_tokens count_tools_tokens up_with_usage
               handler_text_limit)).
Proof.
  exact (token_failure_drops_final_chunk Config.settings unit feed_pct get_tool_calls
           parse_bracket_tool_calls deduplicate_tool_calls
           count_tokens count_message_tokens count_tools_tokens
           up_with_usage handler_text_limit (bytes_of "Hi") tt
           [EContent "Hi"; EContextUsage 50%float] TypeError
           eq_refl eq_refl eq_refl eq_refl).
Defined.

Example stream_with_text_limit :
  yielded (stream Config.settings feed_pct get_tool_calls parse_bracket_tool_calls
             deduplicate_tool_calls count_tokens count_message_tokens
             count_tools_tokens up_with_usage {| is_closed := false |}
             handler_text_limit)
  = [ContentChunk "Hi" true].
Proof. vm_compute. reflexivity. Qed.

End StreamMoreExamples.

(** ** The stream handler: how a run ends *)

Section StreamExits.
Import StreamHandler StreamMore.

Variable settings : Config.Settings.
Variable parser_state : Type.
Variable feed : parser_state -> list Byte.byte -> result (parser_state * list event).
Variable get_tool_calls : parser_state -> list pyval.
Variable parse_bracket_tool_calls : string -> list pyval.
Variable deduplicate_tool_calls : list pyval -> list pyval.
Variable count_tokens : string -> Z.
Variable count_message_tokens : list pyval -> Z.
Variable count_tools_tokens : list pyval -> Z.

Local Abbreviation body :=
  (stream_body settings feed get_tool_calls parse_bracket_tool_calls
     deduplicate_tool_calls count_tokens count_message_tokens count_tools_tokens).
Local Abbreviation run :=
  (stream settings feed get_tool_calls parse_bracket_tool_calls
     deduplicate_tool_calls count_tokens count_message_tokens count_tools_tokens).
Local Abbreviation run_closed :=
  (stream_closed settings feed get_tool_calls parse_bracket_tool_calls
     deduplicate_tool_calls count_tokens count_message_tokens count_tools_tokens).
Local Abbreviation tokens :=
  (_calculate_tokens settings count_tokens count_message_tokens count_tools_tokens).
Local Abbreviation met :=
  (raised settings feed count_tokens count_message_tokens count_tools_tokens).

(** The first chunk goes through the same steps as the later ones, with
    no chunk sent yet. *)
Lemma body_as_consume (up : Upstream) (h : handler parser_state) b :
  first up = FirstBytes b ->
  body up h
  = match consume feed (b :: rest up) h false with
    | (ys, Err e) => (ys, Err e)
    | (ys, Ok (h2, _)) =>
        match rest_end up with
        | Some e => (ys, Err e)
        | None =>
            let '(ys2, r) :=
              finish settings get_tool_calls parse_bracket_tool_calls
                deduplicate_tool_calls count_tokens count_message_tokens
                count_tools_tokens h2 in
            (ys ++ ys2, r)
        end
    end.
Proof.
  intros Hfirst. unfold stream_body, _read_first_chunk_with_timeout.
  rewrite Hfirst. cbn [consume].
  destruct (feed (parser h) b) as [[p events]|e]; [|reflexivity].
  destruct (_process_events events (with_parser p h)) as [content h1].
  destruct (nonempty content) as [s|]; cbn [negb].
  - destruct (consume feed (rest up) h1 true) as [ys1 [[h2 sent]|e]];
      [|reflexivity].
    destruct (rest_end up); [reflexivity|].
    destruct (finish _ _ _ _ _ _ _ h2) as [ys2 r]. reflexivity.
  - destruct (consume feed (rest up) h1 false) as [ys1 [[h2 sent]|e]];
      [|reflexivity].
    destruct (rest_end up); [reflexivity|].
    destruct (finish _ _ _ _ _ _ _ h2) as [ys2 r]. reflexivity.
Qed.

(** The parser fails on the whole list exactly when it fails on one
    chunk after the ones before it went through. *)
Lemma feed_all_fails_at (chunks : list (list Byte.byte)) :
  forall (p : parser_state) (e : exn),
    feed_all feed p chunks = Err e ->
    exists fed c later p' events,
      chunks = fed ++ c :: later
      /\ feed_all feed p fed = Ok (p', events)
      /\ feed p' c = Err e.
Proof.
  induction chunks as [|b chunks IH]; intros p e; cbn [feed_all]; [discriminate|].
  destruct (feed p b) as [[p1 ev1]|e1] eqn:Hb.
  - destruct (feed_all feed p1 chunks) as [[p2 ev2]|e2] eqn:Hrest; [discriminate|].
    intros [= ->].
    destruct (IH p1 e Hrest) as (fed & c & later & p' & events & -> & Hfed & Hc).
    exists (b :: fed), c, later, p', (ev1 ++ events).
    split; [reflexivity|]. split; [|exact Hc].
    cbn [feed_all]. rewrite Hb, Hfed. reflexivity.
  - intros [= ->]. exists [], b, chunks, p, []. repeat split. exact Hb.
Qed.

Lemma feed_all_stops_at (fed : list (list Byte.byte)) :
  forall (p p' : parser_state) c later events e,
    feed_all feed p fed = Ok (p', events) ->
    feed p' c = Err e ->
    feed_all feed p (fed ++ c :: later) = Err e.
Proof.
  induction fed as [|b fed IH]; intros p p' c later events e; cbn [feed_all app].
  - intros [= -> _] Hc. rewrite Hc. reflexivity.
  - destruct (feed p b) as [[p1 ev1]|e1]; [|discriminate].
    destruct (feed_all feed p1 fed) as [[p2 ev2]|e2] eqn:Hfed; [|discriminate].
    intros [= -> _] Hc. rewrite (IH p1 p' c later ev2 e Hfed Hc). reflexivity.
Qed.

Lemma consume_rank (chunks : list (list Byte.byte)) (h : handler parser_state)
    (sent : bool) :
  Forall (fun c => (chunk_rank c <= 1)%nat) (fst (consume feed chunks h sent)).
Proof.
  eapply Forall_impl.
  - exact (content_run_rank _ _ (consume_content_run parser_state feed chunks h sent)).
  - intros c Hc. cbn beta in Hc. lia.
Qed.

(** An exception the body ends with was met at one of the places of
    [raised], and nothing was yielded past the tool-call chunks. *)
Lemma body_raises (up : Upstream) (h : handler parser_state) (e : exn) :
  snd (body up h) = Err e ->
  met up h e /\ Forall (fun c => (chunk_rank c <= 1)%nat) (fst (body up h)).
Proof.
  destruct (first up) as [b| | |e0] eqn:Hfirst.
  - rewrite (body_as_consume up h b Hfirst).
    pose proof (consume_rank (b :: rest up) h false) as Hrank.
    pose proof (consume_feed_all parser_state feed (b :: rest up) h false) as Hcons.
    destruct (feed_all feed (parser h) (b :: rest up)) as [[p' events]|e1] eqn:Hfeed.
    + destruct Hcons as (ys & sent2 & Hc & _ & _). rewrite Hc in *. cbn [fst] in Hrank.
      destruct (rest_end up) as [e1|] eqn:Hend; cbn [fst snd].
      * intros [= ->]. split; [|exact Hrank].
        eapply raised_read; eassumption.
      * unfold finish.
        destruct (tokens (with_parser p' (after_events h events)))
          as [[[pt ct] tt']|e1] eqn:Htok; cbn [fst snd]; [discriminate|].
        intros [= ->]. split.
        -- eapply raised_tokens; eassumption.
        -- apply Forall_app. split; [exact Hrank|].
           eapply Forall_impl; [apply tool_call_chunks_rank|].
           intros c Hc'. cbn beta in Hc'. lia.
    + destruct Hcons as (ys & Hc). rewrite Hc in *. cbn [fst snd] in *.
      intros [= ->]. split; [|exact Hrank].
      destruct (feed_all_fails_at _ _ _ Hfeed)
        as (fed & c & later & p' & events & Hsplit & Hfed & Hfail).
      eapply raised_feed; eassumption.
  - unfold stream_body, _read_first_chunk_with_timeout. rewrite Hfirst. discriminate.
  - unfold stream_body, _read_first_chunk_with_timeout. rewrite Hfirst.
    cbn [fst snd]. intros [= <-]. split; [|constructor].
    apply raised_deadline. exact Hfirst.
  - unfold stream_body, _read_first_chunk_with_timeout. rewrite Hfirst.
    pose proof (raised_first_read settings parser_state feed count_tokens
                  count_message_tokens count_tools_tokens up h e0 Hfirst) as Hmet.
    destruct e0; cbn [fst snd]; intros [= <-]; (split; [exact Hmet | constructor]).
Qed.

(** And an exception met at one of these places is what the body ends
    with. *)
Lemma raised_body (up : Upstream) (h : handler parser_state) (e : exn) :
  met up h e -> snd (body up h) = Err e.
Proof.
  intros [Hfirst | e0 Hfirst
          | b fed c later p events e' Hfirst Hsplit Hfed Hfail
          | b p events e' Hfirst Hfeed Hend
          | b p events e' Hfirst Hfeed Hend Htok].
  - unfold stream_body, _read_first_chunk_with_timeout. rewrite Hfirst. reflexivity.
  - unfold stream_body, _read_first_chunk_with_timeout. rewrite Hfirst.
    destruct e0; reflexivity.
  - rewrite (body_as_consume up h b Hfirst).
    pose proof (consume_feed_all parser_state feed (b :: rest up) h false) as Hcons.
    rewrite Hsplit, (feed_all_stops_at fed _ _ c later _ _ Hfed Hfail) in Hcons.
    destruct Hcons as (ys & Hc). rewrite <- Hsplit in Hc. rewrite Hc. reflexivity.
  - rewrite (body_as_consume up h b Hfirst).
    pose proof (consume_feed_all parser_state feed (b :: rest up) h false) as Hcons.
    rewrite Hfeed in Hcons. destruct Hcons as (ys & sent2 & Hc & _ & _).
    rewrite Hc, Hend. reflexivity.
  - rewrite (body_as_consume up h b Hfirst).
    pose proof (consume_feed_all parser_state feed (b :: rest up) h false) as Hcons.
    rewrite Hfeed in Hcons. destruct Hcons as (ys & sent2 & Hc & _ & _).
    rewrite Hc, Hend. unfold finish. rewrite Htok. reflexivity.
Qed.

(** What the handlers of [stream] make of the exception the body ends
    with. *)
Lemma stream_handlers (up : Upstream) (resp : ResponseHandle)
    (h : handler parser_state) (e : exn) :
  snd (body up h) = Err e ->
  (e = FirstTokenTimeoutError -> leaves e (run up resp h))
  /\ (e <> FirstTokenTimeoutError -> is_Exception e = true ->
      logged_and_dropped e (run up resp h))
  /\ (is_Exception e = false -> leaves e (run up resp h)).
Proof.
  unfold stream, leaves, logged_and_dropped.
  destruct (stream_body _ _ _ _ _ _ _ _ up h) as [ys [u|e']]; cbn [snd];
    [discriminate|]. intros [= ->].
  destruct e; cbn [is_Exception]; repeat split; intros; try discriminate;
    try contradiction; reflexivity.
Qed.


End StreamExits.

Section StreamExitExamples.
Import StreamHandler StreamMore Fixtures Fixtures2.

Example stream_malformed :
  yielded (run_checked up_malformed) = [ContentChunk "Hel" true]
  /\ logged (run_checked up_malformed) = Some ValueError
  /\ propagated (run_checked up_malformed) = None.
Proof. repeat split; vm_compute; reflexivity. Qed.

Example stream_read_timeout :
  propagated (run_stream up_read_timeout) = Some FirstTokenTimeoutError
  /\ logged (run_stream up_read_timeout) = None.
Proof. split; vm_compute; reflexivity. Qed.



End StreamExitExamples.

(** ** The model cache: replacing it, and when a lookup raises *)

Section CacheMoreFacts.
Import Cache CacheMore.

Lemma has_id_string (id : string) (model : gmap string pyval) :
  has_id id model = true <-> model !! "modelId" = Some (PStr id).
Proof.
  unfold has_id. destruct (model !! "modelId") as [[| | | |s| |]|]; split;
    try discriminate; intros H.
  - apply String.eqb_eq in H. subst. reflexivity.
  - injection H as ->. apply String.eqb_refl.
Qed.

Lemma update_from_lookup (models_data : list (gmap string pyval)) :
  forall acc,
    forallb has_string_id models_data = true ->
    exists cache,
      update_from models_data acc = Updated cache
      /\ (forall id,
            cache !! id
            = match last (List.filter (has_id id) models_data) with
              | Some model => Some model
              | None => acc !! id
              end)
      /\ (size cache <= size acc + length models_data)%nat.
Proof.
  induction models_data as [|model rest IH]; intros acc Hall.
  - exists acc. cbn. split; [reflexivity|]. split; [reflexivity | lia].
  - cbn [forallb] in Hall. apply andb_true_iff in Hall as [Hm Hrest].
    unfold has_string_id in Hm. cbn [update_from].
    destruct (model !! "modelId") as [[| | | |s| |]|] eqn:Hid; try discriminate.
    destruct (IH (<[s := model]> acc) Hrest) as (cache & -> & Hget & Hsize).
    exists cache. split; [reflexivity|]. split.
    + intros id. rewrite Hget. cbn [List.filter].
      destruct (has_id id model) eqn:Hh.
      * rewrite last_cons. apply has_id_string in Hh. rewrite Hid in Hh.
        injection Hh as ->. rewrite lookup_insert_eq.
        destruct (last (List.filter (has_id id) rest)); reflexivity.
      * destruct (last (List.filter (has_id id) rest)); [reflexivity|].
        apply lookup_insert_ne. intros ->.
        assert (has_id id model = true) as Hc by (apply has_id_string; exact Hid).
        rewrite Hc in Hh. discriminate.
    + pose proof (map_size_insert s model acc) as Hins.
      cbn [length]. destruct (acc !! s); cbn [id] in Hins; lia.
Qed.

(** X14: [update] with models that all carry a string [modelId] replaces
    the cache by one in which [get(id)] is the last of the given models
    with that id, and [None] for an id none of them has, whatever was
    cached before; the new cache is empty exactly when the list is, and
    has at most as many entries as the list. *)
Theorem update_then_get (models_data : list (gmap string pyval)) :
  forallb has_string_id models_data = true ->
  exists cache,
    update models_data = Updated cache
    /\ (forall id, get cache id = last (List.filter (has_id id) models_data))
    /\ (is_empty cache = true <-> models_data = [])
    /\ (cache_size cache <= length models_data)%nat.
Proof.
  intros Hall. unfold update.
  destruct (update_from_lookup models_data ∅ Hall) as (cache & Hup & Hget & Hsize).
  exists cache. split; [exact Hup|].
  assert (Hget' : forall id, get cache id = last (List.filter (has_id id) models_data)).
  { intros id. unfold get. rewrite Hget, lookup_empty.
    destruct (last (List.filter (has_id id) models_data)); reflexivity. }
  split; [exact Hget'|]. split.
  - unfold is_empty. rewrite Nat.eqb_eq, map_size_empty_iff. split.
    + intros ->. destruct models_data as [|model rest]; [reflexivity|]. exfalso.
      cbn [forallb] in Hall. apply andb_true_iff in Hall as [Hm _].
      unfold has_string_id in Hm.
      destruct (model !! "modelId") as [[| | | |s| |]|] eqn:Hid; try discriminate.
      specialize (Hget' s). unfold get in Hget'. rewrite lookup_empty in Hget'.
      cbn [List.filter] in Hget'.
      assert (has_id s model = true) as Hh by (apply has_id_string; exact Hid).
      rewrite Hh, last_cons in Hget'.
      destruct (last (List.filter (has_id s) rest)); discriminate.
    + intros ->. cbn in Hup. injection Hup as <-. reflexivity.
  - unfold cache_size. rewrite map_size_empty in Hsize. lia.
Qed.

(** X15: a model without a [modelId] key makes [update] raise
    [KeyError]; no cache comes out of the call. *)
Theorem update_without_id_raises (before after : list (gmap string pyval))
    (model : gmap string pyval) :
  forallb has_string_id before = true ->
  model !! "modelId" = None ->
  update (before ++ model :: after) = UpdateRaises (OtherException "KeyError").
Proof.
  intros Hall Hnone. unfold update. generalize (∅ : gmap string (gmap string pyval)).
  induction before as [|m before IH]; intros acc; cbn [app update_from].
  - rewrite Hnone. reflexivity.
  - cbn [forallb] in Hall. apply andb_true_iff in Hall as [Hm Hrest].
    unfold has_string_id in Hm.
    destruct (m !! "modelId") as [[| | | |s| |]|]; try discriminate.
    apply IH, Hrest.
Qed.

(** X16: [get_max_input_tokens] raises only [AttributeError], and it
    does so exactly for a cached model whose [tokenLimits] is a truthy
    value other than a dict (a non-empty string or list, a non-zero
    number, [True]); in every other case it returns. *)
Theorem get_max_input_tokens_raises_iff (s : Config.Settings)
    (cache : gmap string (gmap string pyval)) (model_id : string) (e : exn) :
  get_max_input_tokens s cache model_id = Err e
  <-> e = AttributeError
      /\ exists model v,
           cache !! model_id = Some model
           /\ model !! "tokenLimits" = Some v
           /\ truthy v = true
           /\ forall d, v <> PDict d.
Proof.
  unfold get_max_input_tokens. split.
  - destruct (cache !! model_id) as [model|] eqn:Hc; [|discriminate].
    destruct (truthy (PDict model)) eqn:Hm; cbn [andb]; [|discriminate].
    unfold dict_get at 1 2.
    destruct (model !! "tokenLimits") as [v|] eqn:Hl; cbn [default from_option id];
      [|discriminate].
    destruct (truthy v) eqn:Hv; [|discriminate].
    destruct v; cbn [py_get bind]; try discriminate;
      intros [= <-]; (split; [reflexivity|]);
      match goal with
      | H : model !! "tokenLimits" = Some ?v |- _ => exists model, v
      end;
      (split; [reflexivity|]); (split; [exact Hl|]);
      (split; [exact Hv|]); intros d; discriminate.
  - intros (-> & model & v & Hc & Hl & Hv & Hnd). rewrite Hc.
    rewrite (truthy_dict_of_lookup _ _ _ Hl). unfold dict_get at 1 2.
    rewrite Hl. cbn [default from_option id andb]. rewrite Hv.
    destruct v; try reflexivity. exfalso. exact (Hnd d eq_refl).
Qed.

End CacheMoreFacts.

Section CacheMoreExamples.
Import Cache CacheMore Fixtures.

Lemma update_then_get_witness :
  exists cache,
    update [model_entry "a" (PInt 1); model_entry "b" (PInt 2); model_entry "a" (PInt 3)]
      = Updated cache
    /\ (forall id,
          get cache id
          = last (List.filter (has_id id)
                    [model_entry "a" (PInt 1); model_entry "b" (PInt 2);
                     model_entry "a" (PInt 3)]))
    /\ (is_empty cache = true
        <-> [model_entry "a" (PInt 1); model_entry "b" (PInt 2);
             model_entry "a" (PInt 3)] = [])
    /\ (cache_size cache <= 3)%nat.
Proof.
  apply (update_then_get
           [model_entry "a" (PInt 1); model_entry "b" (PInt 2); model_entry "a" (PInt 3)]).
  vm_compute. reflexivity.
Defined.

Example update_last_wins :
  match update [model_entry "a" (PInt 1); model_entry "b" (PInt 2);
                model_entry "a" (PInt 3)] with
  | Updated cache => get_max_input_tokens Config.settings cache "a"
  | _ => Err TypeError
  end = Ok (PInt 3).
Proof. vm_compute. reflexivity. Qed.

Lemma update_without_id_raises_witness :
  update ([model_entry "a" (PInt 1)] ++ {[ "name" := PStr "b" ]} :: [])
    = UpdateRaises (OtherException "KeyError").
Proof.
  apply (update_without_id_raises [model_entry "a" (PInt 1)] []
           {[ "name" := PStr "b" ]}); vm_compute; reflexivity.
Defined.

Lemma get_max_input_tokens_raises_iff_witness :
  get_max_input_tokens Config.settings
    {[ "m" := {[ "modelId" := PStr "m"; "tokenLimits" := PStr "200000" ]} ]} "m"
  = Err AttributeError.
Proof.
  apply (proj2 (get_max_input_tokens_raises_iff Config.settings
                  {[ "m" := {[ "modelId" := PStr "m"; "tokenLimits" := PStr "200000" ]} ]}
                  "m" AttributeError)).
  split; [reflexivity|].
  exists {[ "modelId" := PStr "m"; "tokenLimits" := PStr "200000" ]}, (PStr "200000").
  split; [vm_compute; reflexivity|]. split; [vm_compute; reflexivity|].
  split; [reflexivity|]. intros d. discriminate.
Defined.

End CacheMoreExamples.

(** ** Configuration: the model table and the validators *)

Section ConfigMoreFacts.
Import Config ConfigMore.

Lemma MODEL_MAPPING_values (external internal : string) :
  MODEL_MAPPING !! external = Some internal ->
  internal ∈ ["claude-opus-4.5"; "claude-haiku-4.5";
              "CLAUDE_SONNET_4_5_20250929_V1_0"; "CLAUDE_SONNET_4_20250514_V1_0";
              "CLAUDE_3_7_SONNET_20250219_V1_0"; "claude-sonnet-4.5"].
Proof.
  intros H. unfold MODEL_MAPPING in H. apply elem_of_list_to_map_2 in H.
  repeat (apply elem_of_cons in H as [[= _ <-]|H]; [set_solver|]).
  apply elem_of_nil in H. contradiction.
Qed.

(** X17: translating a model name twice is translating it once: no
    upstream id of [MODEL_MAPPING] is itself mapped to something else. *)
Theorem get_internal_model_id_idempotent (external_model : string) :
  get_internal_model_id (get_internal_model_id external_model)
  = get_internal_model_id external_model.
Proof.
  destruct (MODEL_MAPPING !! external_model) as [internal|] eqn:H.
  - assert (E : get_internal_model_id external_model = internal)
      by (unfold get_internal_model_id; rewrite H; reflexivity).
    rewrite E. apply MODEL_MAPPING_values in H.
    repeat (apply elem_of_cons in H as [->|H]; [vm_compute; reflexivity|]).
    apply elem_of_nil in H. contradiction.
  - assert (E : get_internal_model_id external_model = external_model)
      by (unfold get_internal_model_id; rewrite H; reflexivity).
    rewrite E. exact E.
Qed.

Variable upper : string -> string.
Variable lower : string -> string.

Lemma member_elem (v : string) (s : list string) :
  member v s = true <-> v ∈ s.
Proof.
  unfold member. rewrite existsb_exists. split.
  - intros (x & Hx & He). apply String.eqb_eq in He. subst.
    apply list_elem_of_In. exact Hx.
  - intros H. exists v. split; [apply list_elem_of_In, H | apply String.eqb_refl].
Qed.

(** X18: whatever string is configured, [validate_log_level] returns
    its upper-cased form if that is one of the six level names and
    ["INFO"] if it is not, and [validate_debug_mode] its lower-cased form
    if that is one of the three modes and ["off"] if it is not; so each
    returns a valid value, and validating a validated value changes
    nothing, given that [upper] leaves the level names and [lower] the
    mode names as they are. *)
Theorem validators_return_valid (v : string) :
  (forall l, l ∈ valid_levels -> upper l = l) ->
  (forall m, m ∈ valid_modes -> lower m = m) ->
  (validate_log_level upper v ∈ valid_levels
   /\ (upper v ∈ valid_levels -> validate_log_level upper v = upper v)
   /\ (upper v ∉ valid_levels -> validate_log_level upper v = "INFO")
   /\ validate_log_level upper (validate_log_level upper v)
      = validate_log_level upper v)
  /\ (validate_debug_mode lower v ∈ valid_modes
      /\ (lower v ∈ valid_modes -> validate_debug_mode lower v = lower v)
      /\ (lower v ∉ valid_modes -> validate_debug_mode lower v = "off")
      /\ validate_debug_mode lower (validate_debug_mode lower v)
         = validate_debug_mode lower v).
Proof.
  intros Hup Hlow. split.
  - assert (Hin : validate_log_level upper v ∈ valid_levels).
    { unfold validate_log_level. cbn zeta.
      destruct (member (upper v) valid_levels) eqn:Hm; cbn [negb].
      - apply member_elem, Hm.
      - unfold valid_levels. set_solver. }
    split; [exact Hin|]. split; [|split].
    + intros Hv. apply member_elem in Hv.
      unfold validate_log_level. cbn zeta. rewrite Hv. reflexivity.
    + intros Hv. unfold validate_log_level. cbn zeta.
      destruct (member (upper v) valid_levels) eqn:Hm; cbn [negb]; [|reflexivity].
      apply member_elem in Hm. contradiction.
    + unfold validate_log_level at 1. cbn zeta. rewrite (Hup _ Hin).
      apply member_elem in Hin. rewrite Hin. reflexivity.
  - assert (Hin : validate_debug_mode lower v ∈ valid_modes).
    { unfold validate_debug_mode. cbn zeta.
      destruct (member (lower v) valid_modes) eqn:Hm; cbn [negb].
      - apply member_elem, Hm.
      - unfold valid_modes. set_solver. }
    split; [exact Hin|]. split; [|split].
    + intros Hv. apply member_elem in Hv.
      unfold validate_debug_mode. cbn zeta. rewrite Hv. reflexivity.
    + intros Hv. unfold validate_debug_mode. cbn zeta.
      destruct (member (lower v) valid_modes) eqn:Hm; cbn [negb]; [|reflexivity].
      apply member_elem in Hm. contradiction.
    + unfold validate_debug_mode at 1. cbn zeta. rewrite (Hlow _ Hin).
      apply member_elem in Hin. rewrite Hin. reflexivity.
Qed.

End ConfigMoreFacts.

Lemma validators_return_valid_witness :
  (ConfigMore.validate_log_level ConfigMore.ascii_upper "Verbose"
     ∈ ConfigMore.valid_levels
   /\ (ConfigMore.ascii_upper "Verbose" ∈ ConfigMore.valid_levels ->
       ConfigMore.validate_log_level ConfigMore.ascii_upper "Verbose"
       = ConfigMore.ascii_upper "Verbose")
   /\ (ConfigMore.ascii_upper "Verbose" ∉ ConfigMore.valid_levels ->
       ConfigMore.validate_log_level ConfigMore.ascii_upper "Verbose" = "INFO")
   /\ ConfigMore.validate_log_level ConfigMore.ascii_upper
        (ConfigMore.validate_log_level ConfigMore.ascii_upper "Verbose")
      = ConfigMore.validate_log_level ConfigMore.ascii_upper "Verbose")
  /\ (ConfigMore.validate_debug_mode ConfigMore.ascii_lower "Verbose"
        ∈ ConfigMore.valid_modes
      /\ (ConfigMore.ascii_lower "Verbose" ∈ ConfigMore.valid_modes ->
          ConfigMore.validate_debug_mode ConfigMore.ascii_lower "Verbose"
          = ConfigMore.ascii_lower "Verbose")
      /\ (ConfigMore.ascii_lower "Verbose" ∉ ConfigMore.valid_modes ->
          ConfigMore.validate_debug_mode ConfigMore.ascii_lower "Verbose" = "off")
      /\ ConfigMore.validate_debug_mode ConfigMore.ascii_lower
           (ConfigMore.validate_debug_mode ConfigMore.ascii_lower "Verbose")
         = ConfigMore.validate_debug_mode ConfigMore.ascii_lower "Verbose").
Proof.
  apply (validators_return_valid ConfigMore.ascii_upper ConfigMore.ascii_lower
           "Verbose").
  - intros l Hl. unfold ConfigMore.valid_levels in Hl.
    repeat (apply elem_of_cons in Hl as [->|Hl]; [vm_compute; reflexivity|]).
    apply elem_of_nil in Hl. contradiction.
  - intros m Hm. unfold ConfigMore.valid_modes in Hm.
    repeat (apply elem_of_cons in Hm as [->|Hm]; [vm_compute; reflexivity|]).
    apply elem_of_nil in Hm. contradiction.
Defined.

Example validate_log_level_examples :
  ConfigMore.validate_log_level ConfigMore.ascii_upper "warning" = "WARNING"
  /\ ConfigMore.validate_log_level ConfigMore.ascii_upper "verbose" = "INFO"
  /\ ConfigMore.validate_debug_mode ConfigMore.ascii_lower "ALL" = "all".
Proof. repeat split. Qed.

(** ** Checking the proxy key *)

Section RoutesFacts.
Import Routes.

Variable PROXY_API_KEY : string.

Lemma compare_digest_true (a b : string) :
  compare_digest a b = Ok true <-> a = b /\ is_ascii b = true.
Proof.
  unfold compare_digest. split.
  - destruct (is_ascii a) eqn:Ha, (is_ascii b) eqn:Hb; cbn [andb]; try discriminate.
    intros [= H]. apply String.eqb_eq in H. split; [exact H | reflexivity].
  - intros [-> Hb]. rewrite Hb. cbn [andb]. rewrite String.eqb_refl. reflexivity.
Qed.

Lemma present_bearer : present (Some ("Bearer " +:+ PROXY_API_KEY))
                       = Some ("Bearer " +:+ PROXY_API_KEY).
Proof. reflexivity. Qed.

(** X19: [verify_api_key] lets a request through exactly when its
    Authorization header is, character for character, ["Bearer "]
    followed by the proxy key, and that is ASCII.  A missing or empty
    header, and an ASCII header that differs, get 401; a header or a key
    with a character outside ASCII makes the comparison raise
    [TypeError] instead. *)
Theorem verify_api_key_accepts_iff (auth_header : option string) :
  (verify_api_key PROXY_API_KEY auth_header = Ok true
   <-> auth_header = Some ("Bearer " +:+ PROXY_API_KEY)
       /\ is_ascii ("Bearer " +:+ PROXY_API_KEY) = true)
  /\ (present auth_header = None ->
      verify_api_key PROXY_API_KEY auth_header = Err (HTTPException 401))
  /\ (forall h, present auth_header = Some h ->
        verify_api_key PROXY_API_KEY auth_header
        = if is_ascii h && is_ascii ("Bearer " +:+ PROXY_API_KEY)
          then (if String.eqb h ("Bearer " +:+ PROXY_API_KEY)
                then Ok true else Err (HTTPException 401))
          else Err TypeError).
Proof.
  split; [|split].
  - unfold verify_api_key. split.
    + destruct auth_header as [h|]; cbn [present]; [|discriminate].
      destruct (String.eqb_spec h ""); [discriminate|].
      destruct (compare_digest h ("Bearer " +:+ PROXY_API_KEY)) as [[|]|e] eqn:Hc;
        cbn [bind negb]; try discriminate.
      intros _. apply compare_digest_true in Hc as [-> Ha].
      split; [reflexivity | exact Ha].
    + intros [-> Ha]. rewrite present_bearer.
      rewrite (proj2 (compare_digest_true _ _) (conj eq_refl Ha)). reflexivity.
  - intros Hp. unfold verify_api_key. rewrite Hp. reflexivity.
  - intros h Hp. unfold verify_api_key, compare_digest. rewrite Hp.
    destruct (is_ascii h && is_ascii ("Bearer " +:+ PROXY_API_KEY)); [|reflexivity].
    cbn [bind]. destruct (String.eqb h ("Bearer " +:+ PROXY_API_KEY)); reflexivity.
Qed.

(** X20: [verify_anthropic_api_key] accepts a request whose [x-api-key]
    is the proxy key whatever its Authorization header is; without an
    [x-api-key] it decides as [verify_api_key] does; and whenever it
    accepts, one of the two headers carried the key. *)
Theorem verify_anthropic_api_key_accepts (x_api_key auth_header : option string) :
  (x_api_key = Some PROXY_API_KEY -> PROXY_API_KEY <> "" ->
   is_ascii PROXY_API_KEY = true ->
   verify_anthropic_api_key PROXY_API_KEY x_api_key auth_header = Ok true)
  /\ (present x_api_key = None ->
      verify_anthropic_api_key PROXY_API_KEY x_api_key auth_header
      = verify_api_key PROXY_API_KEY auth_header)
  /\ (verify_anthropic_api_key PROXY_API_KEY x_api_key auth_header = Ok true ->
      x_api_key = Some PROXY_API_KEY
      \/ auth_header = Some ("Bearer " +:+ PROXY_API_KEY)).
Proof.
  split; [|split].
  - intros -> Hne Ha. unfold verify_anthropic_api_key, header_matches, present.
    destruct (String.eqb_spec PROXY_API_KEY ""); [contradiction|].
    rewrite (proj2 (compare_digest_true _ _) (conj eq_refl Ha)). reflexivity.
  - intros Hp. unfold verify_anthropic_api_key, verify_api_key, header_matches.
    rewrite Hp. cbn [bind].
    destruct (present auth_header) as [h|]; [|reflexivity].
    destruct (compare_digest h ("Bearer " +:+ PROXY_API_KEY)) as [[|]|e]; reflexivity.
  - unfold verify_anthropic_api_key, header_matches.
    destruct x_api_key as [x|]; cbn [present].
    + destruct (String.eqb_spec x "") as [Hx0|Hx0].
      * cbn [bind]. destruct auth_header as [h|]; cbn [present]; [|discriminate].
        destruct (String.eqb_spec h ""); [discriminate|].
        destruct (compare_digest h ("Bearer " +:+ PROXY_API_KEY)) as [[|]|e1] eqn:Hc;
          cbn [bind]; try discriminate.
        intros _. apply compare_digest_true in Hc as [-> _]. right. reflexivity.
      * destruct (compare_digest x PROXY_API_KEY) as [[|]|e2] eqn:Hx; cbn [bind];
          try discriminate.
        -- intros _. apply compare_digest_true in Hx as [-> _]. left. reflexivity.
        -- destruct auth_header as [h|]; cbn [present]; [|discriminate].
           destruct (String.eqb_spec h ""); [discriminate|].
           destruct (compare_digest h ("Bearer " +:+ PROXY_API_KEY)) as [[|]|e3] eqn:Hc;
             cbn [bind]; try discriminate.
           intros _. apply compare_digest_true in Hc as [-> _]. right. reflexivity.
    + cbn [bind]. destruct auth_header as [h|]; cbn [present]; [|discriminate].
      destruct (String.eqb_spec h ""); [discriminate|].
      destruct (compare_digest h ("Bearer " +:+ PROXY_API_KEY)) as [[|]|e4] eqn:Hc;
        cbn [bind]; try discriminate.
      intros _. apply compare_digest_true in Hc as [-> _]. right. reflexivity.
Qed.

End RoutesFacts.

Section RoutesExamples.
Import Routes.

Example verify_api_key_examples :
  verify_api_key "secret" (Some "Bearer secret") = Ok true
  /\ verify_api_key "secret" (Some "bearer secret") = Err (HTTPException 401)
  /\ verify_api_key "secret" (Some "secret") = Err (HTTPException 401)
  /\ verify_api_key "secret" None = Err (HTTPException 401)
  /\ verify_api_key "secret" (Some "") = Err (HTTPException 401).
Proof. repeat split. Qed.

Lemma verify_anthropic_api_key_accepts_witness :
  verify_anthropic_api_key "secret" (Some "secret") (Some "Bearer wrong") = Ok true.
Proof.
  apply (proj1 (verify_anthropic_api_key_accepts "secret" (Some "secret")
                  (Some "Bearer wrong"))).
  - reflexivity.
  - discriminate.
  - reflexivity.
Defined.

End RoutesExamples.

(** ** The latency histogram *)

Section FloatOrder.

Ltac compare_cases :=
  repeat match goal with
  | H : context [Z.compare ?x ?y] |- _ => destruct (Z.compare_spec x y)
  | |- context [Z.compare ?x ?y] => destruct (Z.compare_spec x y)
  | H : context [Pos.compare_cont Eq ?x ?y] |- _ =>
      change (Pos.compare_cont Eq x y) with (Pos.compare x y) in H;
      destruct (Pos.compare_spec x y)
  | |- context [Pos.compare_cont Eq ?x ?y] =>
      change (Pos.compare_cont Eq x y) with (Pos.compare x y);
      destruct (Pos.compare_spec x y)
  end.

Lemma SFleb_trans (a b c : spec_float) :
  SFleb a b = true -> SFleb b c = true -> SFleb a c = true.
Proof.
  unfold SFleb, SFcompare.
  destruct a as [sa|sa| |sa ma ea], b as [sb|sb| |sb mb eb], c as [sc|sc| |sc mc ec];
    try destruct sa; try destruct sb; try destruct sc; cbn;
    try discriminate; try reflexivity; intros H1 H2;
    compare_cases; cbn in *; try discriminate; try reflexivity; try lia.
Qed.

Lemma leb_trans (x y z : float) :
  PrimFloat.leb x y = true -> PrimFloat.leb y z = true -> PrimFloat.leb x z = true.
Proof. rewrite !FloatAxioms.leb_spec. apply SFleb_trans. Qed.

Lemma leb_infinity (x : float) :
  PrimFloat.leb x infinity = PrimFloat.eqb x x.
Proof.
  rewrite FloatAxioms.leb_spec, FloatAxioms.eqb_spec. unfold SFleb, SFeqb, SFcompare.
  change (Prim2SF infinity) with (S754_infinity false).
  destruct (Prim2SF x) as [s|s| |s m e]; try destruct s; cbn; try reflexivity.
  - rewrite Z.compare_refl, Pos.compare_cont_refl. reflexivity.
  - rewrite Z.compare_refl, Pos.compare_cont_refl. reflexivity.
Qed.

End FloatOrder.

Section HistogramFacts.
Import MetricsMore.

Lemma buckets_sorted (i j : nat) (bi bj : float) :
  (i <= j)%nat ->
  LATENCY_BUCKETS !! i = Some bi -> LATENCY_BUCKETS !! j = Some bj ->
  PrimFloat.leb bi bj = true.
Proof.
  intros Hij Hi Hj.
  assert (Hall : buckets_in_order = true) by (vm_compute; reflexivity).
  unfold buckets_in_order in Hall. rewrite forallb_forall in Hall.
  specialize (Hall i). rewrite forallb_forall in Hall.
  assert (Hi' := lookup_lt_Some _ _ _ Hi). assert (Hj' := lookup_lt_Some _ _ _ Hj).
  specialize (Hall ltac:(apply in_seq; lia) j ltac:(apply in_seq; lia)).
  rewrite Hi, Hj in Hall. apply Nat.leb_le in Hij. rewrite Hij in Hall. exact Hall.
Qed.

Lemma observe_buckets_lookup (latency : float) (counts : list Z) (i : nat) (a' : Z) :
  observe_buckets latency counts !! i = Some a' ->
  exists a le,
    counts !! i = Some a /\ LATENCY_BUCKETS !! i = Some le
    /\ a' = if PrimFloat.leb latency le then a + 1 else a.
Proof.
  unfold observe_buckets. intros H.
  apply lookup_zip_with_Some in H as (a & le & -> & Ha & Hle). eauto.
Qed.

Lemma observe_buckets_cumulative (latency : float) (counts : list Z) :
  cumulative counts -> cumulative (observe_buckets latency counts).
Proof.
  intros [Hlen Hmono]. split.
  - unfold observe_buckets. rewrite length_zip_with, Hlen. lia.
  - intros i j a' b' Hij Hi Hj.
    apply observe_buckets_lookup in Hi as (a & bi & Ha & Hbi & ->).
    apply observe_buckets_lookup in Hj as (b & bj & Hb & Hbj & ->).
    pose proof (Hmono i j a b Hij Ha Hb) as Hab.
    pose proof (buckets_sorted i j bi bj Hij Hbi Hbj) as Hle.
    destruct (PrimFloat.leb latency bi) eqn:Hx.
    + rewrite (leb_trans latency bi bj Hx Hle). lia.
    + destruct (PrimFloat.leb latency bj); lia.
Qed.

Lemma zeros_cumulative : cumulative (replicate (length LATENCY_BUCKETS) 0).
Proof.
  split; [apply length_replicate|].
  intros i j a b _ Hi Hj.
  apply lookup_replicate_1 in Hi as [-> _]. apply lookup_replicate_1 in Hj as [-> _].
  lia.
Qed.

Lemma observe_buckets_last (latency : float) (counts : list Z) (last : Z) :
  counts !! 10%nat = Some last ->
  observe_buckets latency counts !! 10%nat
  = Some (if is_number latency then last + 1 else last).
Proof.
  intros H. unfold observe_buckets. rewrite lookup_zip_with, H.
  change (LATENCY_BUCKETS !! 10%nat) with (Some infinity). cbn [mbind option_bind].
  rewrite leb_infinity. reflexivity.
Qed.

Lemma leb_number (x y : float) :
  PrimFloat.leb x y = true -> is_number x = true.
Proof.
  unfold is_number. rewrite FloatAxioms.leb_spec, FloatAxioms.eqb_spec.
  unfold SFleb, SFeqb, SFcompare.
  destruct (Prim2SF x) as [s|s| |s m e]; try destruct s; cbn;
    try reflexivity; try discriminate; intros _;
    rewrite Z.compare_refl, Pos.compare_cont_refl; reflexivity.
Qed.

(** A latency is below some bound exactly when it is a number: the last
    bound is [inf]. *)
Lemma below_some_bound (x : float) :
  existsb (PrimFloat.leb x) LATENCY_BUCKETS = is_number x.
Proof.
  destruct (is_number x) eqn:Hx.
  - apply existsb_exists. exists infinity. split.
    + unfold LATENCY_BUCKETS. cbn. tauto.
    + rewrite leb_infinity. exact Hx.
  - apply not_true_is_false. intros H.
    apply existsb_exists in H as (le & _ & Hle).
    apply leb_number in Hle. congruence.
Qed.

Lemma observed_snoc (endpoint : string) observations (o : string * float) :
  observed endpoint (observations ++ [o])
  = observed endpoint observations
    ++ (if String.eqb (fst o) endpoint then [o] else []).
Proof. unfold observed. rewrite List.filter_app. reflexivity. Qed.

Lemma numbers_snoc observations (o : string * float) :
  numbers (observations ++ [o])
  = numbers observations ++ (if is_number (snd o) then [o] else []).
Proof. unfold numbers. rewrite List.filter_app. reflexivity. Qed.

Lemma snoc_count {A} (l : list A) (x : A) :
  match l ++ [x] with
  | [] => None
  | _ => Some (Z.of_nat (length (l ++ [x])))
  end
  = Some (default 0 match l with
                    | [] => None
                    | _ => Some (Z.of_nat (length l))
                    end + 1).
Proof.
  destruct l as [|y l]; [reflexivity|].
  cbn [app default from_option id]. f_equal. rewrite !length_cons, length_app.
  cbn [length]. lia.
Qed.

Lemma endpoint_state_step (c : Collector) observations (ep : string) (x : float)
    (endpoint : string) :
  endpoint_state c observations endpoint ->
  endpoint_state (observe_latency ep x c) (observations ++ [(ep, x)]) endpoint.
Proof.
  unfold endpoint_state, observe_latency, add_to.
  cbn [_latency_histogram _latency_count].
  rewrite observed_snoc, below_some_bound. cbn [fst].
  destruct (String.eqb_spec ep endpoint) as [->|Hne].
  - rewrite lookup_insert_eq, numbers_snoc, snoc_count. cbn [snd].
    intros [Hrow ->]. split; [|reflexivity].
    destruct (is_number x) eqn:Hx.
    + rewrite lookup_insert_eq.
      split; [intros H; apply app_eq_nil in H as [_ H]; discriminate H|].
      destruct (_latency_histogram c !! endpoint) as [counts|];
        cbn [default from_option id].
      * destruct Hrow as (_ & Hcum & Hlast).
        split; [apply observe_buckets_cumulative, Hcum|].
        rewrite (observe_buckets_last x counts _ Hlast), Hx, length_app.
        cbn [length]. f_equal. lia.
      * split; [apply observe_buckets_cumulative, zeros_cumulative|].
        rewrite (observe_buckets_last x _ 0) by reflexivity.
        rewrite Hx, Hrow. reflexivity.
    + rewrite app_nil_r. exact Hrow.
  - rewrite app_nil_r, lookup_insert_ne by exact Hne. intros [Hrow Hcount].
    split; [|exact Hcount].
    destruct (is_number x); [rewrite lookup_insert_ne by exact Hne|]; exact Hrow.
Qed.

Lemma endpoint_state_run observations (endpoint : string) :
  endpoint_state (observe_all observations init) observations endpoint.
Proof.
  induction observations as [|[ep x] observations IH] using rev_ind.
  - unfold endpoint_state. cbn. rewrite !lookup_empty. split; reflexivity.
  - unfold observe_all. rewrite foldl_snoc. cbn [fst snd].
    apply endpoint_state_step. exact IH.
Qed.

(** X21: after any run of [observe_latency] calls on a new collector, an
    endpoint has a histogram row exactly when one of its observations
    was a number (a NaN latency is below no bound and touches no row),
    and a count exactly when it had an observation.  A row has one count
    per bucket, none negative, and never a count below that of a lower
    bucket: the stored counts are already cumulative.  The [+Inf] bucket
    is the number of the endpoint's observations that are numbers, the
    endpoint's count the number of all of them. *)
Theorem histogram_is_cumulative (observations : list (string * float))
    (endpoint : string) :
  (_latency_histogram (observe_all observations init) !! endpoint = None
   <-> numbers (observed endpoint observations) = [])
  /\ (forall counts,
        _latency_histogram (observe_all observations init) !! endpoint = Some counts ->
        length counts = 11%nat
        /\ (forall i j a b, (i <= j)%nat ->
              counts !! i = Some a -> counts !! j = Some b -> 0 <= a <= b)
        /\ counts !! 10%nat
           = Some (Z.of_nat (length (numbers (observed endpoint observations)))))
  /\ (_latency_count (observe_all observations init) !! endpoint = None
      <-> observed endpoint observations = [])
  /\ default 0 (_latency_count (observe_all observations init) !! endpoint)
     = Z.of_nat (length (observed endpoint observations)).
Proof.
  destruct (endpoint_state_run observations endpoint) as [Hrow Hcount].
  split; [|split; [|split]].
  - destruct (_latency_histogram (observe_all observations init) !! endpoint)
      as [counts|].
    + destruct Hrow as (Hne & _). split; [discriminate | contradiction].
    + split; [intros _; exact Hrow | reflexivity].
  - intros counts H. rewrite H in Hrow. destruct Hrow as (_ & [Hlen Hmono] & Hlast).
    split; [exact Hlen|]. split; [exact Hmono | exact Hlast].
  - rewrite Hcount. destruct (observed endpoint observations);
      split; try reflexivity; discriminate.
  - rewrite Hcount. destruct (observed endpoint observations); reflexivity.
Qed.

Example nan_latency_leaves_no_row :
  _latency_histogram (observe_latency "/health" nan init) !! "/health" = None
  /\ _latency_count (observe_latency "/health" nan init) !! "/health" = Some 1.
Proof. split; vm_compute; reflexivity. Qed.

Lemma histogram_is_cumulative_witness :
  length [1; 1; 1; 1; 1; 1; 1; 1; 1; 2; 2] = 11%nat
  /\ (forall i j a b, (i <= j)%nat ->
        [1; 1; 1; 1; 1; 1; 1; 1; 1; 2; 2] !! i = Some a ->
        [1; 1; 1; 1; 1; 1; 1; 1; 1; 2; 2] !! j = Some b -> 0 <= a <= b)
  /\ [1; 1; 1; 1; 1; 1; 1; 1; 1; 2; 2] !! 10%nat
     = Some (Z.of_nat
               (length (numbers (observed "/v1/messages"
                          [("/v1/messages", 0.0625%float); ("/health", nan);
                           ("/v1/messages", nan); ("/v1/messages", 100%float)])))).
Proof.
  apply (proj1 (proj2 (histogram_is_cumulative
           [("/v1/messages", 0.0625%float); ("/health", nan);
            ("/v1/messages", nan); ("/v1/messages", 100%float)] "/v1/messages"))).
  vm_compute. reflexivity.
Defined.

End HistogramFacts.

(** ** Counters, their sums, and the middleware *)

Section CounterFacts.
Import MetricsMore.

Lemma total_empty : total ∅ = 0.
Proof. unfold total. apply map_fold_empty. Qed.

Lemma total_insert_fresh (key : string) (n : Z) (d : gmap string Z) :
  d !! key = None -> total (<[key := n]> d) = total d + n.
Proof.
  intros H. unfold total. rewrite map_fold_insert_L; [reflexivity | | exact H].
  intros; lia.
Qed.

Lemma total_add_to (key : string) (n : Z) (d : gmap string Z) :
  total (add_to key n d) = total d + n.
Proof.
  unfold add_to. destruct (d !! key) as [v|] eqn:Hk; cbn [default from_option id].
  - rewrite <- (insert_delete_eq d key (v + n)).
    rewrite <- (insert_id d key v Hk) at 2. rewrite <- (insert_delete_eq d key v).
    rewrite !total_insert_fresh by apply lookup_delete_eq. lia.
  - rewrite total_insert_fresh by exact Hk. lia.
Qed.

Lemma add_to_lookup (key k : string) (n : Z) (d : gmap string Z) :
  add_to key n d !! k
  = if decide (key = k) then Some (default 0 (d !! k) + n) else d !! k.
Proof.
  unfold add_to. destruct (decide (key = k)) as [->|Hk].
  - apply lookup_insert_eq.
  - apply lookup_insert_ne. exact Hk.
Qed.

Lemma add_to_comm (k1 k2 : string) (n1 n2 : Z) (d : gmap string Z) :
  add_to k1 n1 (add_to k2 n2 d) = add_to k2 n2 (add_to k1 n1 d).
Proof.
  apply map_eq. intros k. rewrite !add_to_lookup.
  destruct (decide (k1 = k)), (decide (k2 = k));
    cbn [default from_option id]; try reflexivity.
  f_equal. lia.
Qed.

Lemma aggregate_insert (key : string) (count : Z) (d : gmap string Z) :
  d !! key = None ->
  _aggregate_by_endpoint (<[key := count]> d)
  = add_to (first_part key) count (_aggregate_by_endpoint d).
Proof.
  intros H. unfold _aggregate_by_endpoint.
  rewrite map_fold_insert_L; [reflexivity | | exact H].
  intros. apply add_to_comm.
Qed.

Lemma aggregate_total (d : gmap string Z) :
  total (_aggregate_by_endpoint d) = total d.
Proof.
  induction d as [|key count d Hk IH] using map_ind.
  - reflexivity.
  - rewrite (aggregate_insert _ _ _ Hk), total_add_to, IH,
      (total_insert_fresh _ _ _ Hk). reflexivity.
Qed.

Lemma aggregate_lookup (d : gmap string Z) (endpoint : string) :
  default 0 (_aggregate_by_endpoint d !! endpoint)
  = total (filter (fun kv => first_part (fst kv) = endpoint) d).
Proof.
  induction d as [|key count d Hk IH] using map_ind.
  - unfold _aggregate_by_endpoint. rewrite map_fold_empty, lookup_empty.
    rewrite map_filter_empty, total_empty. reflexivity.
  - rewrite (aggregate_insert _ _ _ Hk). unfold add_to.
    destruct (decide (first_part key = endpoint)) as [He|He].
    + rewrite He, lookup_insert_eq. cbn [default from_option id].
      rewrite map_filter_insert_True by exact He.
      rewrite total_insert_fresh by (rewrite map_lookup_filter_None; left; exact Hk).
      rewrite IH. reflexivity.
    + rewrite lookup_insert_ne by exact He.
      rewrite map_filter_insert_not by (intros y; exact He).
      exact IH.
Qed.

Lemma aggregate_add_to (key : string) (n : Z) (d : gmap string Z) (endpoint : string) :
  default 0 (_aggregate_by_endpoint (add_to key n d) !! endpoint)
  = default 0 (_aggregate_by_endpoint d !! endpoint)
    + (if String.eqb (first_part key) endpoint then n else 0).
Proof.
  rewrite !aggregate_lookup. unfold add_to.
  destruct (String.eqb_spec (first_part key) endpoint) as [He|He].
  - rewrite map_filter_insert_True by exact He.
    destruct (d !! key) as [v|] eqn:Hk; cbn [default from_option id].
    + assert (Hf : filter (fun kv => first_part (fst kv) = endpoint) d !! key = Some v)
        by (apply map_lookup_filter_Some; split; [exact Hk | exact He]).
      rewrite <- (insert_delete_eq (filter _ d) key (v + n)).
      rewrite <- (insert_id _ key v Hf) at 2.
      rewrite <- (insert_delete_eq (filter _ d) key v).
      rewrite !total_insert_fresh by apply lookup_delete_eq. lia.
    + rewrite total_insert_fresh; [lia|].
      rewrite map_lookup_filter_None. left. exact Hk.
  - rewrite map_filter_insert_not by (intros y; exact He). lia.
Qed.

Lemma split_colon_nonempty (s : string) : split_colon s <> [].
Proof.
  induction s as [|c s IH]; cbn; [discriminate|].
  destruct (Ascii.eqb c colon); [discriminate|].
  destruct (split_colon s); [contradiction | discriminate].
Qed.

Lemma first_part_prefix (e rest : string) :
  colon_free e = true -> first_part (e +:+ ":" +:+ rest) = e.
Proof.
  unfold first_part. induction e as [|c e IH]; intros Hf.
  - reflexivity.
  - cbn [colon_free] in Hf. apply andb_true_iff in Hf as [Hc Hf].
    apply negb_true_iff in Hc.
    change ((String c e) +:+ ":" +:+ rest) with (String c (e +:+ ":" +:+ rest)).
    cbn [split_colon]. rewrite Hc. specialize (IH Hf).
    destruct (split_colon (e +:+ ":" +:+ rest)) as [|part parts] eqn:Hs.
    + exfalso. exact (split_colon_nonempty _ Hs).
    + cbn [hd] in *. rewrite IH. reflexivity.
Qed.

Lemma inc_requests_snoc calls call (c : Collector) :
  inc_requests (calls ++ [call]) c
  = inc_request (fst (fst call)) (snd (fst call)) (snd call) (inc_requests calls c).
Proof. unfold inc_requests. rewrite foldl_snoc. reflexivity. Qed.

(** X22: the per-endpoint counts of [_aggregate_by_endpoint] add up to
    the number of requests recorded with [inc_request]; and when no
    endpoint has a [":"] in it, the count under an endpoint is the number
    of requests recorded for that endpoint, whatever their status and
    model. *)
Theorem aggregate_by_endpoint_counts (calls : list (string * Z * string))
    (endpoint : string) :
  total (_aggregate_by_endpoint (_request_total (inc_requests calls init)))
    = Z.of_nat (length calls)
  /\ (Forall (fun call => colon_free (fst (fst call)) = true) calls ->
      default 0 (_aggregate_by_endpoint (_request_total (inc_requests calls init))
                   !! endpoint)
      = Z.of_nat (length (calls_to endpoint calls))).
Proof.
  split.
  - rewrite aggregate_total.
    induction calls as [|call calls IH] using rev_ind; [reflexivity|].
    rewrite inc_requests_snoc. cbn [inc_request _request_total].
    rewrite total_add_to, IH, length_app. cbn [length]. lia.
  - induction calls as [|[[e st] mo] calls IH] using rev_ind; intros Hall.
    + reflexivity.
    + apply Forall_app in Hall as [Hall Hlast].
      apply Forall_cons in Hlast as [He _]. cbn [fst] in He.
      rewrite inc_requests_snoc. cbn [inc_request _request_total fst snd].
      rewrite aggregate_add_to, (IH Hall). unfold request_key.
      rewrite (first_part_prefix e _ He).
      unfold calls_to. rewrite List.filter_app, length_app. cbn [List.filter fst].
      destruct (String.eqb e endpoint); cbn [length]; lia.
Qed.

Lemma aggregate_by_endpoint_counts_witness :
  total (_aggregate_by_endpoint
           (_request_total
              (inc_requests [("/v1/messages", 200, "claude-sonnet-4");
                             ("/health", 200, "unknown");
                             ("/v1/messages", 502, "unknown")] init)))
    = 3
  /\ default 0
       (_aggregate_by_endpoint
          (_request_total
             (inc_requests [("/v1/messages", 200, "claude-sonnet-4");
                            ("/health", 200, "unknown");
                            ("/v1/messages", 502, "unknown")] init))
          !! "/v1/messages")
     = 2.
Proof.
  destruct (aggregate_by_endpoint_counts
              [("/v1/messages", 200, "claude-sonnet-4"); ("/health", 200, "unknown");
               ("/v1/messages", 502, "unknown")] "/v1/messages") as [H1 H2].
  split; [exact H1|]. apply H2. repeat constructor.
Defined.

Example endpoint_with_colon_is_split :
  first_part (request_key "/v1/models:batch" 404 "unknown") = "/v1/models".
Proof. reflexivity. Qed.

End CounterFacts.

Section DispatchFacts.
Import MetricsMore.

(** X23: what one pass through [MetricsMiddleware.dispatch] leaves in
    the collector, whatever the handler did to it meanwhile: the gauge is
    taken down by one again (not below zero) on every way out, also when
    the handler is cancelled; a response or an [Exception] adds exactly
    one request, under the response's status or under 500, and one latency
    observation for the endpoint; only an [Exception] adds an error, under
    the name of its type; and the caller gets the response's status
    exactly when the handler gave one, the exception otherwise. *)
Theorem dispatch_accounting (endpoint : string)
    (call_next : Collector -> handled * float * Collector)
    (c c' : Collector) (h : handled) (process_time : float) :
  call_next (inc_active_connections c) = (h, process_time, c') ->
  let r := fst (dispatch endpoint call_next c) in
  let c'' := snd (dispatch endpoint call_next c) in
  Metrics._active_connections (gauges c'')
    = Z.max 0 (Metrics._active_connections (gauges c') - 1)
  /\ (gauges c' = gauges (inc_active_connections c) ->
      0 <= Metrics._active_connections (gauges c) ->
      gauges c'' = gauges c)
  /\ total (_request_total c'') = total (_request_total c') + requests_recorded h
  /\ total (_error_total c'') = total (_error_total c') + errors_recorded h
  /\ (requests_recorded h = 1 ->
      _latency_count c'' !! endpoint
      = Some (default 0 (_latency_count c' !! endpoint) + 1))
  /\ match h with
     | Responded status_code model =>
         r = Ok status_code
         /\ _request_total c''
            = add_to (request_key endpoint status_code (default "unknown" model)) 1
                     (_request_total c')
     | Failed error_type =>
         r = Err (OtherException error_type)
         /\ _request_total c''
            = add_to (request_key endpoint 500 "unknown") 1 (_request_total c')
         /\ _error_total c'' = add_to error_type 1 (_error_total c')
     | Interrupted error_type =>
         r = Err (OtherException error_type)
         /\ _request_total c'' = _request_total c'
     end.
Proof.
  intros Hnext r c''. subst r c''. unfold dispatch. rewrite Hnext.
  assert (Hgauge : forall x : Collector,
             gauges x = gauges c' ->
             gauges c' = gauges (inc_active_connections c) ->
             0 <= Metrics._active_connections (gauges c) ->
             gauges (dec_active_connections x) = gauges c).
  { intros x Hx Hg Hpos. cbn [dec_active_connections with_gauges gauges].
    rewrite Hx, Hg. cbn [inc_active_connections with_gauges gauges].
    unfold Metrics.dec_active_connections, Metrics.inc_active_connections.
    cbn [Metrics._active_connections Metrics._cache_size Metrics._token_valid].
    destruct (gauges c) as [a s v]. cbn in *. f_equal. lia. }
  destruct h as [status_code model|error_type|error_type]; cbn [fst snd].
  - split; [reflexivity|]. split; [intros Hg Hpos; apply Hgauge; [reflexivity | exact Hg | exact Hpos]|].
    cbn [dec_active_connections with_gauges observe_latency inc_request
         _request_total _error_total _latency_count requests_recorded
         errors_recorded].
    split; [apply total_add_to|]. split; [lia|].
    split; [intros _; cbn [_latency_count inc_request inc_error];
            unfold add_to; apply lookup_insert_eq|].
    split; reflexivity.
  - split; [reflexivity|]. split; [intros Hg Hpos; apply Hgauge; [reflexivity | exact Hg | exact Hpos]|].
    cbn [dec_active_connections with_gauges observe_latency inc_request inc_error
         _request_total _error_total _latency_count requests_recorded
         errors_recorded].
    split; [apply total_add_to|]. split; [apply total_add_to|].
    split; [intros _; cbn [_latency_count inc_request inc_error];
            unfold add_to; apply lookup_insert_eq|].
    split; [reflexivity|]. split; reflexivity.
  - split; [reflexivity|]. split; [intros Hg Hpos; apply Hgauge; [reflexivity | exact Hg | exact Hpos]|].
    cbn [dec_active_connections with_gauges
         _request_total _error_total requests_recorded errors_recorded].
    split; [lia|]. split; [lia|].
    split; [intros H; discriminate H|].
    split; reflexivity.
Qed.

Lemma dispatch_accounting_witness :
  fst (dispatch "/v1/messages" (raises "ReadTimeout" 30.5%float) init)
    = Err (OtherException "ReadTimeout")
  /\ _request_total (snd (dispatch "/v1/messages" (raises "ReadTimeout" 30.5%float) init))
     = add_to "/v1/messages:500:unknown" 1 ∅
  /\ gauges (snd (dispatch "/v1/messages" (raises "ReadTimeout" 30.5%float) init))
     = Metrics.init.
Proof.
  destruct (dispatch_accounting "/v1/messages" (raises "ReadTimeout" 30.5%float)
              init (inc_active_connections init) (Failed "ReadTimeout") 30.5%float
              eq_refl)
    as (_ & Hg & _ & _ & _ & Hr & Ht & _).
  split; [exact Hr|]. split; [exact Ht|].
  apply Hg; [reflexivity | cbn; lia].
Defined.

End DispatchFacts.

(** ** Token info sync *)

Section TokenSyncFacts.
Import TokenSync.

Ltac body_cases :=
  unfold sync_token_info, sync_body;
  repeat (match goal with
          | |- context [match get_token_credentials ?w with _ => _ end] =>
              destruct (get_token_credentials w) eqn:?
          | |- context [match get_access_token ?w with _ => _ end] =>
              destruct (get_access_token w) eqn:?
          | |- context [match fetch_token_info ?w with _ => _ end] =>
              destruct (fetch_token_info w) eqn:?
          | |- context [match update_token_info ?w with _ => _ end] =>
              destruct (update_token_info w) eqn:?
          | |- context [match py_get ?v ?k with _ => _ end] =>
              destruct (py_get v k) eqn:?
          | |- context [negb (truthy ?v)] => destruct (truthy v) eqn:?
          end; cbn [negb fst snd]);
  repeat match goal with u : unit |- _ => destruct u end.

(** X24: [sync_token_info] raises no [Exception]: it returns [True]
    exactly when it got as far as [update_token_info] and that call
    returned; the database is written at most once, and only after the
    credentials, the access token and the account info were obtained, in
    that order; and the credentials are always looked up first. *)
Theorem sync_token_info_true_iff_updated (w : world) :
  (fst (sync_token_info w) = true
   <-> In UpdateDb (snd (sync_token_info w)) /\ update_token_info w = Ok tt)
  /\ (In UpdateDb (snd (sync_token_info w)) ->
      snd (sync_token_info w) = [LoadCredentials; AccessToken; FetchInfo; UpdateDb])
  /\ hd_error (snd (sync_token_info w)) = Some LoadCredentials
  /\ (occurrences UpdateDb (snd (sync_token_info w)) <= 1)%nat.
Proof.
  body_cases;
    (split;
     [split;
      [intros H; first [discriminate H | split; [cbn; tauto | reflexivity]]
      |intros [Hin Hup];
       first [reflexivity | discriminate Hup
             | cbn in Hin; exfalso; intuition discriminate]]
     |split;
      [intros Hin;
       first [reflexivity | cbn in Hin; exfalso; intuition discriminate]
      |split; [reflexivity | vm_compute; lia]]]).
Qed.

Lemma sync_step_counts {token : Type} (sync : token -> result bool * list effect)
    (tokens : list token) :
  let '(success, failed, trace) := foldl (sync_step sync) (0, 0, []) tokens in
  success = Z.of_nat (length (List.filter
                       (fun t => match fst (sync t) with Ok true => true | _ => false end)
                       tokens))
  /\ success + failed = Z.of_nat (length tokens)
  /\ occurrences Sleep trace
     = (length tokens + list_sum (map (fun t => occurrences Sleep (snd (sync t))) tokens))%nat.
Proof.
  induction tokens as [|t tokens IH] using rev_ind.
  - cbn. repeat split; reflexivity.
  - rewrite foldl_snoc.
    destruct (foldl (sync_step sync) (0, 0, []) tokens) as [[success failed] trace].
    destruct IH as (Hs & Hsum & Hsleep).
    unfold sync_step. rewrite List.filter_app, !length_app, map_app, list_sum_app.
    cbn [List.filter map list_sum length].
    assert (Hocc : forall effects,
               occurrences Sleep (trace ++ effects ++ [Sleep])
               = (occurrences Sleep trace + occurrences Sleep effects + 1)%nat).
    { intros effects. unfold occurrences.
      rewrite !List.filter_app, !length_app.
      replace (length (List.filter (fun x => bool_decide (x = Sleep)) [Sleep]))
        with 1%nat by reflexivity.
      lia. }
    destruct (sync t) as [[[|]|e] effects]; cbn [fst snd length];
      (split; [lia | split; [lia | rewrite Hocc, Hsleep; unfold list_sum; cbn [fold_right]; lia]]).
Qed.


Example sync_all_tokens_mixed :
  fst (sync_all_tokens sync_token
         [Fixtures3.world_ok; Fixtures3.world_no_info; Fixtures3.world_db_down])
  = {| success := 1; failed := 2; total := 3 |}.
Proof. reflexivity. Qed.

End TokenSyncFacts.
